(** * Aggregator: submission admission engine and dual-chain round tracker

    A shallow embedding of the Go sources of the Burst mining proxy
    (package [main]): the admission engine [tryUpdateRound], the upstream
    submitter [proxySubmitRound], the refresher [refreshMiningInfo], the
    miner-facing [requestHandler], [formatJSONError] and the decoder of
    [FlexUInt64]; besides, the miner registry of miner.go, the adapter
    between fasthttp and net/http, and the receive path of the websocket
    client.

    Conventions.
    - A Go [uint64], [int] or [int64] is a [Z]; where the Go code wraps
      around or converts between signed and unsigned, the reduction modulo
      [2^64] is written out.
    - A Go [string] or [[]byte] is a [string] (a list of bytes).
    - The process-wide variables of the Go program are the fields of
      [State]; the values read once from the configuration file are the
      fields of [Config].
    - A Go run-time panic (integer division by zero) is the result [None]
      of the functions in the [option] monad.
    - The engine is modelled sequentially: one call runs to completion
      before the next one starts.
    - The caches [primc], [secc] and [liarsCache] drop an item a quarter
      of an hour after it was stored.  [tryUpdateRound] is the call on
      the items its lookups find; [tryUpdateRoundAt] and
      [runSubmissionsAt] add the clock and the expirations, and
      [runSubmissions] is a run during which no item expires. *)

From Stdlib Require Import ZArith Lia List Ascii String DecimalString
  DecimalN DecimalPos.
From stdpp Require Import gmap strings list fin_maps.

Open Scope Z_scope.

(** ** Machine integers *)

Definition maxU64 : Z := 2 ^ 64 - 1.

(** [uint64(x)] for a signed [x]: two's complement reinterpretation. *)
Definition to_uint64 (x : Z) : Z := x mod 2 ^ 64.

(** ** package strconv *)

Module Strconv.

Inductive NumError := ErrSyntax | ErrRange.

Inductive result (A : Type) :=
| Ok (a : A)
| Err (e : NumError).
Arguments Ok {A} a.
Arguments Err {A} e.

Definition is_err {A} (r : result A) : bool :=
  match r with Ok _ => false | Err _ => true end.

Definition intSize : Z := 64.

Definition byteVal (c : ascii) : Z := Z.of_N (N_of_ascii c).

(** [strconv.FormatUint(n, 10)] and [strconv.FormatInt(n, 10)]. *)
Definition FormatUint (n : Z) : string :=
  NilZero.string_of_uint (N.to_uint (Z.to_N n)).

Definition FormatInt (n : Z) : string :=
  if n <? 0 then String "-" (FormatUint (- n)) else FormatUint n.

(** The digit switch of [ParseUint]: ['0'..'9'], ['a'..'z'], ['A'..'Z']. *)
Definition digitVal (c : ascii) : option Z :=
  let b := byteVal c in
  if (48 <=? b) && (b <=? 57) then Some (b - 48)
  else if (97 <=? b) && (b <=? 122) then Some (b - 97 + 10)
  else if (65 <=? b) && (b <=? 90) then Some (b - 65 + 10)
  else None.

Definition cutoff10 : Z := maxU64 / 10 + 1.

(** The loop of [ParseUint(s, 10, bitSize)], [n] being the accumulator
    and [maxVal = 1<<bitSize - 1]. *)
Fixpoint parseUintLoop (maxVal : Z) (s : string) (n : Z) : result Z :=
  match s with
  | EmptyString => Ok n
  | String c s' =>
      match digitVal c with
      | None => Err ErrSyntax
      | Some d =>
          if d >=? 10 then Err ErrSyntax
          else if n >=? cutoff10 then Err ErrRange
          else
            let n10 := (n * 10) mod 2 ^ 64 in
            let n1 := (n10 + d) mod 2 ^ 64 in
            if (n1 <? n10) || (n1 >? maxVal) then Err ErrRange
            else parseUintLoop maxVal s' n1
      end
  end.

Definition ParseUint (s : string) (bitSize : Z) : result Z :=
  match s with
  | EmptyString => Err ErrSyntax
  | _ => parseUintLoop (2 ^ bitSize - 1) s 0
  end.

(** [ParseInt(s, 10, 0)]: a range error of [ParseUint] falls through to
    the sign-aware cutoff test, which reports it again. *)
Definition ParseInt (s : string) : result Z :=
  match s with
  | EmptyString => Err ErrSyntax
  | String c s' =>
      let neg := Ascii.eqb c "-" in
      let body := if Ascii.eqb c "+" || neg then s' else s in
      match ParseUint body intSize with
      | Err ErrSyntax => Err ErrSyntax
      | Err ErrRange => Err ErrRange
      | Ok un =>
          let cutoff := 2 ^ (intSize - 1) in
          if negb neg && (un >=? cutoff) then Err ErrRange
          else if neg && (un >? cutoff) then Err ErrRange
          else Ok (if neg then - un else un)
      end
  end.

(** The fast path of [Atoi]: bytes are reduced by ['0'] modulo 256. *)
Fixpoint atoiFast (s : string) (n : Z) : result Z :=
  match s with
  | EmptyString => Ok n
  | String c s' =>
      let ch := (byteVal c - 48) mod 256 in
      if ch >? 9 then Err ErrSyntax else atoiFast s' (n * 10 + ch)
  end.

Definition Atoi (s : string) : result Z :=
  let sLen := Z.of_nat (String.length s) in
  if (0 <? sLen) && (sLen <? 19) then
    match s with
    | EmptyString => Err ErrSyntax
    | String c s' =>
        let signed := Ascii.eqb c "-" || Ascii.eqb c "+" in
        let body := if signed then s' else s in
        if signed && (Z.of_nat (String.length body) <? 1) then Err ErrSyntax
        else
          match atoiFast body 0 with
          | Err e => Err e
          | Ok n => Ok (if Ascii.eqb c "-" then - n else n)
          end
    end
  else ParseInt s.

(** The number a non-empty string of decimal digits denotes. *)
Definition isDigit (c : ascii) : bool :=
  (48 <=? byteVal c) && (byteVal c <=? 57).

Fixpoint decimalValueFrom (s : string) (acc : Z) : option Z :=
  match s with
  | EmptyString => Some acc
  | String c s' =>
      if isDigit c then decimalValueFrom s' (acc * 10 + (byteVal c - 48))
      else None
  end.

Definition decimalValue (s : string) : option Z :=
  match s with
  | EmptyString => None
  | _ => decimalValueFrom s 0
  end.

End Strconv.

(** ** FlexUInt64 *)

Inductive unmarshalResult :=
| Stored (v : Z)      (* nil error, the receiver holds [v] *)
| Failed              (* an error is returned *)
| IndexPanic.         (* [b[0]] on an empty slice *)

Section FlexUInt64.

(** [jsonx.Unmarshal] of the json-iterator library into an [int] and
    into a [string]: the decoded value, or [None] for an error. *)
Variable jsonUnmarshalInt : string -> option Z.
Variable jsonUnmarshalString : string -> option string.

(** [FlexUInt64.UnmarshalJSON]. *)
Definition UnmarshalJSON (b : string) : unmarshalResult :=
  match b with
  | EmptyString => IndexPanic
  | String b0 _ =>
      if negb (Ascii.eqb b0 (ascii_of_nat 34)) then
        match jsonUnmarshalInt b with
        | None => Failed
        | Some i => Stored i
        end
      else
        match jsonUnmarshalString b with
        | None => Failed
        | Some s =>
            match Strconv.Atoi s with
            | Strconv.Err _ => Failed
            | Strconv.Ok i => Stored i
            end
        end
  end.

End FlexUInt64.

(** ** encoding/json and net/url, as far as the program uses them *)

Definition dquote : string := String (ascii_of_nat 34) EmptyString.

Definition hexDigit (digits : string) (n : Z) : ascii :=
  match String.get (Z.to_nat n) digits with
  | Some c => c
  | None => "0"%char
  end.

(** Insertion sort of an association list by key, in byte order. *)
Fixpoint insertByKey {A} (kv : string * A) (l : list (string * A)) :
  list (string * A) :=
  match l with
  | [] => [kv]
  | kv' :: l' =>
      if String.leb (fst kv) (fst kv') then kv :: l
      else kv' :: insertByKey kv l'
  end.

Definition sortByKey {A} (l : list (string * A)) : list (string * A) :=
  foldr insertByKey [] l.

Module Json.

(** The string encoder of [json.Marshal] ([encodeState.string] with HTML
    escaping) on a byte below [utf8.RuneSelf]: quote and backslash
    escaped, newline, carriage return and tab in their short form, the
    other control bytes and [<], [>], [&] written as [\u00XX], every other
    byte copied.  Backspace and form feed are among the control bytes
    written as [\u0008] and [\u000c], as the Go releases before 1.22 write
    them; later releases write [\b] and [\f]. *)
Definition escapeByte (c : ascii) : string :=
  let b := Strconv.byteVal c in
  let bs := String (ascii_of_nat 92) EmptyString in
  if b =? 34 then bs +:+ dquote
  else if b =? 92 then bs +:+ bs
  else if b =? 10 then bs +:+ "n"
  else if b =? 13 then bs +:+ "r"
  else if b =? 9 then bs +:+ "t"
  else if (b <? 32) || (b =? 60) || (b =? 62) || (b =? 38) then
    bs +:+ "u00" +:+
      String (hexDigit "0123456789abcdef" (b / 16))
        (String (hexDigit "0123456789abcdef" (b mod 16)) EmptyString)
  else String c EmptyString.

(** The byte at a position, when there is one, lies in [lo..hi]. *)
Definition inRange (lo hi : Z) (o : option ascii) : bool :=
  match o with
  | Some c => (lo <=? Strconv.byteVal c) && (Strconv.byteVal c <=? hi)
  | None => false
  end.

(** [utf8.DecodeRuneInString] on [String c rest] for a first byte [c] from
    [0x80] on: the width of the encoding, or [0] where the result is
    [RuneError] with width 1 (a byte that starts no encoding, an encoding
    cut short, a second byte outside the range its first byte accepts, a
    later byte that is no continuation byte). *)
Definition runeWidth (c : ascii) (rest : string) : nat :=
  let b := Strconv.byteVal c in
  let b1 := String.get 0 rest in
  let b2 := String.get 1 rest in
  let b3 := String.get 2 rest in
  let cont := inRange 128 191 in
  if (194 <=? b) && (b <=? 223) then
    if cont b1 then 2%nat else 0%nat
  else if b =? 224 then
    if inRange 160 191 b1 && cont b2 then 3%nat else 0%nat
  else if ((225 <=? b) && (b <=? 236)) || ((238 <=? b) && (b <=? 239)) then
    if cont b1 && cont b2 then 3%nat else 0%nat
  else if b =? 237 then
    if inRange 128 159 b1 && cont b2 then 3%nat else 0%nat
  else if b =? 240 then
    if inRange 144 191 b1 && cont b2 && cont b3 then 4%nat else 0%nat
  else if (241 <=? b) && (b <=? 243) then
    if cont b1 && cont b2 && cont b3 then 4%nat else 0%nat
  else if b =? 244 then
    if inRange 128 143 b1 && cont b2 && cont b3 then 4%nat else 0%nat
  else 0%nat.

(** The rune is U+2028 or U+2029 (bytes [E2 80 A8] and [E2 80 A9]): the
    hexadecimal digit of its last four bits. *)
Definition lineSeparator (c : ascii) (rest : string) : option ascii :=
  if (Strconv.byteVal c =? 226) && inRange 128 128 (String.get 0 rest) then
    if inRange 168 168 (String.get 1 rest) then Some "8"%char
    else if inRange 169 169 (String.get 1 rest) then Some "9"%char
    else None
  else None.

(** The loop of the encoder.  [skip] counts the bytes of the rune at hand
    that are still to be passed over, copied when [copy] is set. *)
Fixpoint escapeFrom (skip : nat) (copy : bool) (s : string) : string :=
  match s with
  | EmptyString => EmptyString
  | String c s' =>
      match skip with
      | S k =>
          if copy then String c (escapeFrom k copy s')
          else escapeFrom k copy s'
      | O =>
          if Strconv.byteVal c <? 128 then
            escapeByte c +:+ escapeFrom 0 true s'
          else
            match runeWidth c s' with
            | O =>
                (* invalid UTF-8: the replacement character *)
                String (ascii_of_nat 92) "ufffd" +:+ escapeFrom 0 true s'
            | S k =>
                match lineSeparator c s' with
                | Some digit =>
                    String (ascii_of_nat 92) "u202"
                    +:+ String digit EmptyString +:+ escapeFrom k false s'
                | None => String c (escapeFrom k true s')
                end
            end
      end
  end.

Definition escape (s : string) : string := escapeFrom 0 true s.



Definition quote (s : string) : string := dquote +:+ escape s +:+ dquote.

Fixpoint members (kvs : list (string * string)) : string :=
  match kvs with
  | [] => EmptyString
  | [(k, v)] => quote k +:+ ":" +:+ quote v
  | (k, v) :: rest => quote k +:+ ":" +:+ quote v +:+ "," +:+ members rest
  end.

(** [json.Marshal] of a [map[string]string]: members in key order. *)
Definition MarshalMap (m : list (string * string)) : string :=
  "{" +:+ members (sortByKey m) +:+ "}".

End Json.

Module Url.

(** [shouldEscape(c, encodeQueryComponent)] is false exactly on letters,
    digits and [-], [_], [.], [~]. *)
Definition unreserved (c : ascii) : bool :=
  let b := Strconv.byteVal c in
  ((48 <=? b) && (b <=? 57)) || ((65 <=? b) && (b <=? 90))
  || ((97 <=? b) && (b <=? 122))
  || (b =? 45) || (b =? 95) || (b =? 46) || (b =? 126).

(** What [QueryEscape] writes for one byte: the byte, [+] for a space,
    or [%XX]. *)
Definition escapeByte (c : ascii) : string :=
  let b := Strconv.byteVal c in
  if unreserved c then String c EmptyString
  else if b =? 32 then "+"
  else
    String "%"
      (String (hexDigit "0123456789ABCDEF" (b / 16))
         (String (hexDigit "0123456789ABCDEF" (b mod 16)) EmptyString)).

Fixpoint QueryEscape (s : string) : string :=
  match s with
  | EmptyString => EmptyString
  | String c s' => escapeByte c +:+ QueryEscape s'
  end.

(** [url.Values]: the program puts one value under each key. *)
Definition Values := list (string * string).

Definition Del (key : string) (v : Values) : Values :=
  filter (fun kv => fst kv <> key) v.

Fixpoint encodePairs (first : bool) (v : Values) : string :=
  match v with
  | [] => EmptyString
  | (k, x) :: rest =>
      (if first then EmptyString else "&") +:+ QueryEscape k +:+ "=" +:+
      QueryEscape x +:+ encodePairs false rest
  end.

(** [Values.Encode]: [key=value] pairs joined by [&], sorted by key. *)
Definition Encode (v : Values) : string := encodePairs true (sortByKey v).

End Url.

(** [formatJSONError]. *)
Definition formatJSONError (errorCode : Z) (errorMsg : string) : string :=
  Json.MarshalMap
    [("errorCode", Strconv.FormatInt errorCode);
     ("errorDescription", errorMsg)].

(** ** Data model *)

Record minerRound := {
  AccountID : Z;
  Height : Z;
  Deadline : Z;
  Nonce : Z;
  Passphrase : string;
  Adjusted : bool
}.

(** [miningInfo]; the three numbers are [FlexUInt64], a signed [int].
    [miStartTime] is an instant, [0] being the zero [time.Time]. *)
Record miningInfo := {
  miHeight : Z;
  miBaseTarget : Z;
  miTargetDeadline : Z;
  miGenSig : string;
  miBytes : string;
  miStartTime : Z
}.

(** [ipData.accountIDtoRound]. *)
Abbreviation ipData := (gmap Z minerRound).

(** The return codes of [tryUpdateRound]. *)
Inductive Outcome :=
| exceededMinersPerIP
| notUpdated
| updated
| remoteErr
| wrongHeight.

Definition outcomeCode (o : Outcome) : Z :=
  match o with
  | exceededMinersPerIP => 0
  | notUpdated => 1
  | updated => 2
  | remoteErr => 3
  | wrongHeight => 4
  end.

(** The configuration variables set once by [main]. *)
Record Config := {
  primarySubmitURL : string;
  primTDL : Z;
  primaryPassphrase : string;
  primaryIgnoreWorseDeadlines : bool;
  primaryws : bool;
  secondarySubmitURL : string;
  secTDL : Z;
  secondaryPassphrase : string;
  secondaryIgnoreWorseDeadlines : bool;
  secondaryws : bool;
  scanTime : Z;
  minersPerIP : Z;
  lieDetector : bool
}.

(** The state variables, the best-deadline counters and the three caches.
    [liarsCache] holds the marked addresses. *)
Record State := {
  currentPrimChain : bool;
  currentHeight : Z;
  currentBaseTarget : Z;
  curPrimaryMiningInfo : option miningInfo;
  lastPrimChain : bool;
  lastHeight : Z;
  lastBaseTarget : Z;
  curSecondaryMiningInfo : option miningInfo;
  primBest : Z;
  secBest : Z;
  primc : gmap string ipData;
  secc : gmap string ipData;
  liarsCache : gset string
}.

(** The state [main] starts from: zero values, both base targets [1],
    empty caches. *)
Definition initialState : State := {|
  currentPrimChain := false; currentHeight := 0; currentBaseTarget := 1;
  curPrimaryMiningInfo := None;
  lastPrimChain := false; lastHeight := 0; lastBaseTarget := 1;
  curSecondaryMiningInfo := None;
  primBest := 0; secBest := 0;
  primc := ∅; secc := ∅; liarsCache := ∅
|}.

Definition set_primBest (v : Z) (st : State) : State := {|
  currentPrimChain := currentPrimChain st; currentHeight := currentHeight st;
  currentBaseTarget := currentBaseTarget st;
  curPrimaryMiningInfo := curPrimaryMiningInfo st;
  lastPrimChain := lastPrimChain st; lastHeight := lastHeight st;
  lastBaseTarget := lastBaseTarget st;
  curSecondaryMiningInfo := curSecondaryMiningInfo st;
  primBest := v; secBest := secBest st;
  primc := primc st; secc := secc st; liarsCache := liarsCache st
|}.

Definition set_secBest (v : Z) (st : State) : State := {|
  currentPrimChain := currentPrimChain st; currentHeight := currentHeight st;
  currentBaseTarget := currentBaseTarget st;
  curPrimaryMiningInfo := curPrimaryMiningInfo st;
  lastPrimChain := lastPrimChain st; lastHeight := lastHeight st;
  lastBaseTarget := lastBaseTarget st;
  curSecondaryMiningInfo := curSecondaryMiningInfo st;
  primBest := primBest st; secBest := v;
  primc := primc st; secc := secc st; liarsCache := liarsCache st
|}.

Definition set_primc (c : gmap string ipData) (st : State) : State := {|
  currentPrimChain := currentPrimChain st; currentHeight := currentHeight st;
  currentBaseTarget := currentBaseTarget st;
  curPrimaryMiningInfo := curPrimaryMiningInfo st;
  lastPrimChain := lastPrimChain st; lastHeight := lastHeight st;
  lastBaseTarget := lastBaseTarget st;
  curSecondaryMiningInfo := curSecondaryMiningInfo st;
  primBest := primBest st; secBest := secBest st;
  primc := c; secc := secc st; liarsCache := liarsCache st
|}.

Definition set_secc (c : gmap string ipData) (st : State) : State := {|
  currentPrimChain := currentPrimChain st; currentHeight := currentHeight st;
  currentBaseTarget := currentBaseTarget st;
  curPrimaryMiningInfo := curPrimaryMiningInfo st;
  lastPrimChain := lastPrimChain st; lastHeight := lastHeight st;
  lastBaseTarget := lastBaseTarget st;
  curSecondaryMiningInfo := curSecondaryMiningInfo st;
  primBest := primBest st; secBest := secBest st;
  primc := primc st; secc := c; liarsCache := liarsCache st
|}.

Definition set_liarsCache (l : gset string) (st : State) : State := {|
  currentPrimChain := currentPrimChain st; currentHeight := currentHeight st;
  currentBaseTarget := currentBaseTarget st;
  curPrimaryMiningInfo := curPrimaryMiningInfo st;
  lastPrimChain := lastPrimChain st; lastHeight := lastHeight st;
  lastBaseTarget := lastBaseTarget st;
  curSecondaryMiningInfo := curSecondaryMiningInfo st;
  primBest := primBest st; secBest := secBest st;
  primc := primc st; secc := secc st; liarsCache := l
|}.

Definition set_curPrimaryMiningInfo (mi : miningInfo) (st : State) : State := {|
  currentPrimChain := currentPrimChain st; currentHeight := currentHeight st;
  currentBaseTarget := currentBaseTarget st;
  curPrimaryMiningInfo := Some mi;
  lastPrimChain := lastPrimChain st; lastHeight := lastHeight st;
  lastBaseTarget := lastBaseTarget st;
  curSecondaryMiningInfo := curSecondaryMiningInfo st;
  primBest := primBest st; secBest := secBest st;
  primc := primc st; secc := secc st; liarsCache := liarsCache st
|}.

Definition set_curSecondaryMiningInfo (mi : miningInfo) (st : State) : State := {|
  currentPrimChain := currentPrimChain st; currentHeight := currentHeight st;
  currentBaseTarget := currentBaseTarget st;
  curPrimaryMiningInfo := curPrimaryMiningInfo st;
  lastPrimChain := lastPrimChain st; lastHeight := lastHeight st;
  lastBaseTarget := lastBaseTarget st;
  curSecondaryMiningInfo := Some mi;
  primBest := primBest st; secBest := secBest st;
  primc := primc st; secc := secc st; liarsCache := liarsCache st
|}.

(** [current*] stored in one go: base target, height, chain flag. *)
Definition set_current (baseTarget height : Z) (prim : bool) (st : State) :
  State := {|
  currentPrimChain := prim; currentHeight := height;
  currentBaseTarget := baseTarget;
  curPrimaryMiningInfo := curPrimaryMiningInfo st;
  lastPrimChain := lastPrimChain st; lastHeight := lastHeight st;
  lastBaseTarget := lastBaseTarget st;
  curSecondaryMiningInfo := curSecondaryMiningInfo st;
  primBest := primBest st; secBest := secBest st;
  primc := primc st; secc := secc st; liarsCache := liarsCache st
|}.

(** [last*] overwritten with [current*], the flag set to [prim]. *)
Definition rotate_last (prim : bool) (st : State) : State := {|
  currentPrimChain := currentPrimChain st; currentHeight := currentHeight st;
  currentBaseTarget := currentBaseTarget st;
  curPrimaryMiningInfo := curPrimaryMiningInfo st;
  lastPrimChain := prim; lastHeight := currentHeight st;
  lastBaseTarget := currentBaseTarget st;
  curSecondaryMiningInfo := curSecondaryMiningInfo st;
  primBest := primBest st; secBest := secBest st;
  primc := primc st; secc := secc st; liarsCache := liarsCache st
|}.

(** The cache and the best-deadline counter of a chain. *)
Definition cacheOf (primChain : bool) (st : State) : gmap string ipData :=
  if primChain then primc st else secc st.

Definition set_cacheOf (primChain : bool) (c : gmap string ipData)
  (st : State) : State :=
  if primChain then set_primc c st else set_secc c st.

Definition bestOf (primChain : bool) (st : State) : Z :=
  if primChain then primBest st else secBest st.

Definition set_bestOf (primChain : bool) (v : Z) (st : State) : State :=
  if primChain then set_primBest v st else set_secBest v st.

(** ** The submission path *)

(** What the upstream does with a forwarded submission: [client.Do] fails,
    or answers with a body. *)
Inductive UpstreamReply :=
| Unreachable
| Replied (body : string).

(** What [proxySubmitRound] sends upstream. *)
Inductive UpstreamCall :=
| WsSubmitNonce (accountID height nonce deadline : Z)
| HttpPost (uri : string).

(** What one call of [proxySubmitRound] does: the error it returns, the
    round as it leaves it (the passphrase may be overwritten in place),
    the bytes written to the miner, whether the address was put into
    [liarsCache], and the upstream request. *)
Record ProxyResult := {
  prFailed : bool;
  prRound : minerRound;
  prBody : string;
  prLiar : bool;
  prCall : UpstreamCall
}.

Record Response := {
  status : Z;
  body : string
}.

Definition set_Passphrase (p : string) (r : minerRound) : minerRound := {|
  AccountID := AccountID r; Height := Height r; Deadline := Deadline r;
  Nonce := Nonce r; Passphrase := p; Adjusted := Adjusted r
|}.

Definition nonEmpty (s : string) : bool :=
  match s with EmptyString => false | _ => true end.

(** [deadline := round.Deadline; if !round.Adjusted { deadline /= baseTarget }]:
    unsigned division, which panics on a zero divisor. *)
Definition adjust (round : minerRound) (baseTarget : Z) : option Z :=
  if Adjusted round then Some (Deadline round)
  else if baseTarget =? 0 then None
  else Some (Deadline round / baseTarget).

(** [query.Values(round)] of go-querystring: one pair per field, named by
    its [url] tag, or by the field name where there is no tag. *)
Definition queryValues (round : minerRound) : Url.Values :=
  [("accountId", Strconv.FormatUint (AccountID round));
   ("blockheight", Strconv.FormatUint (Height round));
   ("deadline", Strconv.FormatUint (Deadline round));
   ("nonce", Strconv.FormatUint (Nonce round));
   ("secretPhrase", Passphrase round);
   ("Adjusted", if Adjusted round then "true" else "false")].

(** The query of the pull branch, [round] being the round after the
    passphrase overwrite. *)
Definition submitValues (round : minerRound) : Url.Values :=
  let v := queryValues round in
  let v := if Adjusted round then Url.Del "deadline" v else v in
  let v :=
    if nonEmpty (Passphrase round) then Url.Del "deadline" v
    else Url.Del "secretPhrase" v in
  Url.Del "Adjusted" v.

Definition successBody (deadline : Z) : string :=
  "{" +:+ dquote +:+ "deadline" +:+ dquote +:+ ":" +:+
  Strconv.FormatUint deadline +:+ "," +:+ dquote +:+ "result" +:+ dquote +:+
  ":" +:+ dquote +:+ "success" +:+ dquote +:+ "}".

(** One submission as the engine receives it, with what the outside world
    does during the call: the upstream's answer and the order in which the
    bucket is ranged over. *)
Record Submission := {
  subIP : string;
  subRound : minerRound;
  subReply : UpstreamReply;
  subPick : nat
}.

Section Engine.

Variable cfg : Config.

(** [jsonx.Unmarshal(resp.Body(), &mi)] into a [submitResponse]: the
    [Deadline] field when no error is returned. *)
Variable decodeSubmitResponse : string -> option Z.

Definition passphraseOverwrite (primary : bool) (round : minerRound) :
  minerRound :=
  let round :=
    if primary && nonEmpty (primaryPassphrase cfg)
    then set_Passphrase (primaryPassphrase cfg) round else round in
  if negb primary && nonEmpty (secondaryPassphrase cfg)
  then set_Passphrase (secondaryPassphrase cfg) round else round.

Definition submitQuery (primary : bool) (round : minerRound) : string :=
  Url.Encode (submitValues (passphraseOverwrite primary round)).

Definition submitURI (primary : bool) (round : minerRound) : string :=
  (if primary then primarySubmitURL cfg else secondarySubmitURL cfg)
  +:+ "/burst?requestType=submitNonce&" +:+ submitQuery primary round.

(** [proxySubmitRound].  The request headers are not modelled. *)
Definition proxySubmitRound (st : State) (ip : string) (round : minerRound)
  (primary : bool) (baseTarget : Z) (reply : UpstreamReply) :
  option ProxyResult :=
  if (primary && primaryws cfg) || (negb primary && secondaryws cfg) then
    (* websocket api handling: fire submission, fake answer *)
    let baseTarget :=
      if negb (Height round =? currentHeight st) then lastBaseTarget st
      else currentBaseTarget st in
    deadline ← adjust round baseTarget;
    Some {| prFailed := false; prRound := round;
            prBody := successBody deadline; prLiar := false;
            prCall := WsSubmitNonce (AccountID round) (Height round)
                        (Nonce round) (Deadline round) |}
  else
    let round := passphraseOverwrite primary round in
    let call :=
      HttpPost ((if primary then primarySubmitURL cfg
                 else secondarySubmitURL cfg)
                +:+ "/burst?requestType=submitNonce&"
                +:+ Url.Encode (submitValues round)) in
    match reply with
    | Unreachable =>
        Some {| prFailed := true; prRound := round;
                prBody := formatJSONError 3 "error reaching pool or wallet";
                prLiar := false; prCall := call |}
    | Replied respBody =>
        liar ←
          (if lieDetector cfg then
             match decodeSubmitResponse respBody with
             | Some miDeadline =>
                 deadline ← adjust round baseTarget;
                 Some (negb (to_uint64 miDeadline =? deadline))
             | None => Some false
             end
           else Some false);
        Some {| prFailed := false; prRound := round; prBody := respBody;
                prLiar := liar; prCall := call |}
    end.

Definition markLiar (liar : bool) (ip : string) (st : State) : State :=
  if liar then set_liarsCache ({[ip]} ∪ liarsCache st) st else st.

(** The chain and base target a round is bound to. *)
Definition bindChain (st : State) (height : Z) : bool * Z :=
  if height =? currentHeight st
  then (currentPrimChain st, currentBaseTarget st)
  else (lastPrimChain st, lastBaseTarget st).

(** The stored rounds the loop over a full bucket may stop at. *)
Definition staleRounds (bucket : ipData) (round : minerRound) :
  list minerRound :=
  filter (fun o => Height o < Height round) (map_to_list bucket).*2.

(** The loop over a full bucket.  Go leaves the order in which a map is
    ranged over open: [pick] says which of the stale rounds is met
    first.  [None]: the loop ends without a [delete]. *)
Definition evictStale (bucket : ipData) (round : minerRound) (pick : nat) :
  option ipData :=
  match staleRounds bucket round with
  | [] => None
  | o :: os =>
      let otherRound := nth (pick mod length (o :: os)) (o :: os) o in
      Some (delete (AccountID otherRound) bucket)
  end.

(** The label [update] of [tryUpdateRound], [bucket] being the map of
    the locked [ipData] as the code before the label left it. *)
Definition updateBucket (st : State) (ip : string) (round : minerRound)
  (primChain : bool) (baseTarget deadline : Z) (bucket : ipData)
  (reply : UpstreamReply) : option (Outcome * State * string) :=
  let st := set_cacheOf primChain (<[ip := bucket]> (cacheOf primChain st)) st in
  pr ← proxySubmitRound st ip round primChain baseTarget reply;
  if prFailed pr then Some (remoteErr, st, prBody pr)
  else
    let st := markLiar (prLiar pr) ip st in
    let bucket := <[AccountID round := prRound pr]> bucket in
    let st :=
      set_cacheOf primChain (<[ip := bucket]> (cacheOf primChain st)) st in
    Some (updated, set_bestOf primChain deadline st, prBody pr).

(** [tryUpdateRound]: the return code, the state afterwards and the
    bytes written to the miner. *)
Definition tryUpdateRound (st : State) (ip : string) (round : minerRound)
  (reply : UpstreamReply) (pick : nat) : option (Outcome * State * string) :=
  let accountID := AccountID round in
  if negb (Height round =? currentHeight st)
     && Bool.eqb (currentPrimChain st) (lastPrimChain st)
  then Some (wrongHeight, st, EmptyString)
  else if negb (Height round =? currentHeight st)
          && negb (Height round =? lastHeight st)
  then Some (wrongHeight, st, EmptyString)
  else if bool_decide (ip ∈ liarsCache st)
  then Some (notUpdated, st, EmptyString)
  else
    let '(primChain, baseTarget) := bindChain st (Height round) in
    deadline ← adjust round baseTarget;
    if (primChain && (deadline >? primTDL cfg))
       || (negb primChain && (deadline >? secTDL cfg))
    then Some (notUpdated, st, EmptyString)
    else if (primChain && (deadline >? primBest st)
             && primaryIgnoreWorseDeadlines cfg)
            || (negb primChain && ((deadline >? secBest st)
                                   && secondaryIgnoreWorseDeadlines cfg))
    then Some (notUpdated, st, EmptyString)
    else
      match cacheOf primChain st !! ip with
      | None =>
          pr ← proxySubmitRound st ip round primChain baseTarget reply;
          if prFailed pr then Some (remoteErr, st, prBody pr)
          else
            let st := markLiar (prLiar pr) ip st in
            let st :=
              set_cacheOf primChain
                (<[ip := {[accountID := prRound pr]}]> (cacheOf primChain st))
                st in
            Some (updated, set_bestOf primChain deadline st, prBody pr)
      | Some bucket =>
          match bucket !! accountID with
          | None =>
              if Z.of_nat (size bucket) =? minersPerIP cfg then
                match evictStale bucket round pick with
                | Some bucket' =>
                    updateBucket st ip round primChain baseTarget deadline
                      bucket' reply
                | None => Some (exceededMinersPerIP, st, EmptyString)
                end
              else
                updateBucket st ip round primChain baseTarget deadline
                  bucket reply
          | Some existingRound =>
              existingDeadline ← adjust existingRound baseTarget;
              if (Height existingRound >? Height round)
                 || ((Height existingRound =? Height round)
                     && (existingDeadline <? deadline))
              then Some (notUpdated, st, EmptyString)
              else
                updateBucket st ip round primChain baseTarget deadline
                  bucket reply
          end
      end.

(** The [submitNonce] arm of [requestHandler], from the parsed round on:
    the response the miner gets and the state afterwards. *)
Definition requestHandlerSubmit (st : State) (ip : string)
  (round : minerRound) (reply : UpstreamReply) (pick : nat) :
  option (Response * State) :=
  '(res, st', written) ← tryUpdateRound st ip round reply pick;
  match res with
  | updated => Some ({| status := 200; body := written |}, st')
  | notUpdated =>
      let baseTarget :=
        if negb (Height round =? currentHeight st') then lastBaseTarget st'
        else currentBaseTarget st' in
      deadline ← adjust round baseTarget;
      Some ({| status := 200; body := written +:+ successBody deadline |}, st')
  | wrongHeight =>
      Some ({| status := 400;
               body := written +:+
                       formatJSONError 1005 "Submitted on wrong height" |}, st')
  | exceededMinersPerIP =>
      Some ({| status := 400;
               body := written +:+
                       formatJSONError 2
                         "too many submissions from different account ids by same ip" |},
            st')
  | remoteErr => Some ({| status := 200; body := written |}, st')
  end.

(** Submissions handled one after the other, with no cache item expiring
    and no tick of the refresher in between. *)
Fixpoint runSubmissions (st : State) (subs : list Submission) :
  option (list Outcome * State) :=
  match subs with
  | [] => Some ([], st)
  | s :: rest =>
      '(o, st', _) ← tryUpdateRound st (subIP s) (subRound s) (subReply s)
                       (subPick s);
      '(os, st'') ← runSubmissions st' rest;
      Some (o :: os, st'')
  end.

End Engine.

(** ** Expiry of cache entries *)


(** The field [Expiration] of the items of [primc], [secc] and
    [liarsCache], by key: the instant [SetDefault] gave the item when it
    stored it.  An item without one never expires, as go-cache has it for
    [Expiration = 0]. *)
Record Expirations := {
  primExp : gmap string Z;
  secExp : gmap string Z;
  liarExp : gmap string Z
}.

(** The state of the engine with the clock and the expirations of the
    cache items. *)
Record TimedState := {
  clock : Z;
  engine : State;
  expirations : Expirations
}.


(** [Get] at the instant [t] finds the item under [k], if there is one:
    go-cache takes an item for expired when [now > Expiration]. *)
Definition live (t : Z) (exp : gmap string Z) (k : string) : bool :=
  match exp !! k with
  | Some e => negb (e <? t)
  | None => true
  end.

(** An expired item is not found by [Get], whether or not the janitor has
    deleted it, and as the clock only moves on it is never found again
    before [SetDefault] replaces it: the model drops it at the lookup. *)
Definition expire {A} (t : Z) (exp : gmap string Z) (k : string)
  (c : gmap string A) : gmap string A :=
  if live t exp k then c else delete k c.

Definition expireSet (t : Z) (exp : gmap string Z) (k : string)
  (s : gset string) : gset string :=
  if live t exp k then s else s ∖ {[k]}.

(** The caches as the lookups of a call from [ip] at the instant [t] find
    them. *)
Definition visible (t : Z) (ip : string) (ts : TimedState) : State :=
  let e := expirations ts in
  let st := engine ts in
  set_liarsCache (expireSet t (liarExp e) ip (liarsCache st))
    (set_secc (expire t (secExp e) ip (secc st))
       (set_primc (expire t (primExp e) ip (primc st)) st)).



Section TimedEngine.

Variable cfg : Config.
Variable decodeSubmitResponse : string -> option Z.




End TimedEngine.

(** ** The refresher *)

(** What an upstream answers to [getMiningInfo]. *)
Inductive FetchReply :=
| FetchFailed
| Fetched (body : string).

Inductive RefreshError :=
| ErrDecode
| ErrTransport
| ErrMissingInfo.

(** What one tick of the refresher reads from outside the state: the
    clock, the two variables the websocket receive loop publishes, and
    the answers of the two upstreams. *)
Record RefreshEnv := {
  now : Z;
  available : bool;
  currentMiningInfo : miningInfo;
  primaryReply : FetchReply;
  secondaryReply : FetchReply
}.

(** The arms of the [switch] over the published and the fetched round. *)
Inductive Transition :=
| NewBlock
| ForkBack
| SameHeightFork
| NoChange.

Definition classify (cur : option miningInfo) (mi : miningInfo) : Transition :=
  match cur with
  | None => NewBlock
  | Some c =>
      if miHeight c <? miHeight mi then NewBlock
      else if miHeight c >? miHeight mi then ForkBack
      else if negb (miBaseTarget c =? miBaseTarget mi) then SameHeightFork
      else NoChange
  end.

Definition zeroMiningInfo : miningInfo := {|
  miHeight := 0; miBaseTarget := 0; miTargetDeadline := 0;
  miGenSig := EmptyString; miBytes := EmptyString; miStartTime := 0
|}.

(** [miningInfo{0, 0, 0, "", []byte{0}, time.Time{}}]. *)
Definition resetMiningInfo : miningInfo := {|
  miHeight := 0; miBaseTarget := 0; miTargetDeadline := 0;
  miGenSig := EmptyString;
  miBytes := String (ascii_of_nat 0) EmptyString; miStartTime := 0
|}.

(** [mi.bytes, _ = json.Marshal(...); mi.StartTime = time.Now()]. *)
Definition stamp (t : Z) (mi : miningInfo) : miningInfo := {|
  miHeight := miHeight mi; miBaseTarget := miBaseTarget mi;
  miTargetDeadline := miTargetDeadline mi; miGenSig := miGenSig mi;
  miBytes :=
    Json.MarshalMap
      [("height", Strconv.FormatInt (miHeight mi));
       ("baseTarget", Strconv.FormatInt (miBaseTarget mi));
       ("generationSignature", miGenSig mi)];
  miStartTime := t
|}.

Section Refresher.

Variable cfg : Config.

(** [jsonx.Unmarshal(resp.Body(), &mi)]: the fields the body carries
    replace those of [mi]; [None] for an error. *)
Variable decodeMiningInfo : string -> miningInfo -> option miningInfo.

(** [int64(t.Sub(start).Seconds())], a floating-point computation. *)
Variable secondsSince : Z -> Z -> Z.

Definition startOf (cur : option miningInfo) : Z :=
  match cur with
  | Some c => miStartTime c
  | None => 0
  end.

(** The tail the three primary arms share: reschedule the secondary
    chain on interrupt. *)
Definition rescheduleSecondary (t lastSecondaryStart : Z) (st : State) :
  State :=
  if secondsSince t lastSecondaryStart <? scanTime cfg
  then set_curSecondaryMiningInfo resetMiningInfo st
  else st.

Definition primaryNewBlock (t lastSecondaryStart : Z) (mi : miningInfo)
  (st : State) : State :=
  let st := set_curPrimaryMiningInfo (stamp t mi) st in
  let st := if negb (currentPrimChain st) then rotate_last false st else st in
  let st :=
    set_current (to_uint64 (miBaseTarget mi)) (to_uint64 (miHeight mi))
      true st in
  let st := set_primBest maxU64 st in
  rescheduleSecondary t lastSecondaryStart st.

Definition primaryForkBack (t lastSecondaryStart : Z) (mi : miningInfo)
  (st : State) : State :=
  let st := set_curPrimaryMiningInfo (stamp t mi) st in
  let st := set_primc ∅ st in
  let st := if negb (currentPrimChain st) then rotate_last false st else st in
  let st :=
    set_current (to_uint64 (miBaseTarget mi)) (to_uint64 (miHeight mi))
      true st in
  let st := set_primBest maxU64 st in
  rescheduleSecondary t lastSecondaryStart st.

Definition primarySameHeightFork (t lastSecondaryStart : Z)
  (mi : miningInfo) (st : State) : State :=
  let st := set_curPrimaryMiningInfo (stamp t mi) st in
  let st := set_primc ∅ st in
  let st := if negb (currentPrimChain st) then rotate_last false st else st in
  let st :=
    set_current (to_uint64 (miBaseTarget mi)) (to_uint64 (miHeight mi))
      true st in
  let st := set_primBest maxU64 st in
  rescheduleSecondary t lastSecondaryStart st.

Definition secondaryNewBlock (t : Z) (mi : miningInfo) (st : State) : State :=
  let st := set_curSecondaryMiningInfo (stamp t mi) st in
  let st := if currentPrimChain st then rotate_last true st else st in
  let st :=
    set_current (to_uint64 (miBaseTarget mi)) (to_uint64 (miHeight mi))
      false st in
  set_secBest maxU64 st.

(** The fork-back arm stores [true] into [currentPrimChain]. *)
Definition secondaryForkBack (t : Z) (mi : miningInfo) (st : State) : State :=
  let st := set_curSecondaryMiningInfo (stamp t mi) st in
  let st := set_secc ∅ st in
  let st := if currentPrimChain st then rotate_last true st else st in
  let st :=
    set_current (to_uint64 (miBaseTarget mi)) (to_uint64 (miHeight mi))
      true st in
  set_secBest maxU64 st.

Definition secondarySameHeightFork (t : Z) (mi : miningInfo) (st : State) :
  State :=
  let st := set_curSecondaryMiningInfo (stamp t mi) st in
  let st := set_secc ∅ st in
  let st := if currentPrimChain st then rotate_last true st else st in
  let st :=
    set_current (to_uint64 (miBaseTarget mi)) (to_uint64 (miHeight mi))
      false st in
  set_secBest maxU64 st.

(** The second [switch] of [refreshMiningInfo]. *)
Definition secondarySwitch (t : Z) (mi : miningInfo) (st : State) : State :=
  match classify (curSecondaryMiningInfo st) mi with
  | NewBlock => secondaryNewBlock t mi st
  | ForkBack => secondaryForkBack t mi st
  | SameHeightFork => secondarySameHeightFork t mi st
  | NoChange => st
  end.

(** The part of [refreshMiningInfo] after the first [switch]; [mi] is
    the variable as the primary part left it. *)
Definition refreshSecondary (env : RefreshEnv) (mi : miningInfo)
  (st : State) : State * option RefreshError :=
  if negb (nonEmpty (secondarySubmitURL cfg)) then (st, None)
  else if secondsSince (now env) (startOf (curPrimaryMiningInfo st))
          <? scanTime cfg
  then (st, None)
  else if secondaryws cfg then
    if available env
    then (secondarySwitch (now env) (currentMiningInfo env) st, None)
    else (st, Some ErrMissingInfo)
  else
    match secondaryReply env with
    | FetchFailed => (st, Some ErrTransport)
    | Fetched respBody =>
        match decodeMiningInfo respBody mi with
        | None => (st, Some ErrDecode)
        | Some mi => (secondarySwitch (now env) mi st, None)
        end
    end.

(** The first [switch], entered when [errchain1] is nil. *)
Definition refreshPrimary (env : RefreshEnv) (mi : miningInfo) (st : State) :
  State * option RefreshError :=
  let lastSecondaryStart := startOf (curSecondaryMiningInfo st) in
  match classify (curPrimaryMiningInfo st) mi with
  | NewBlock => (primaryNewBlock (now env) lastSecondaryStart mi st, None)
  | ForkBack => (primaryForkBack (now env) lastSecondaryStart mi st, None)
  | SameHeightFork =>
      (primarySameHeightFork (now env) lastSecondaryStart mi st, None)
  | NoChange => refreshSecondary env mi st
  end.

(** [refreshMiningInfo]: the state afterwards and the error returned. *)
Definition refreshMiningInfo (env : RefreshEnv) (st : State) :
  State * option RefreshError :=
  if primaryws cfg then
    if available env then refreshPrimary env (currentMiningInfo env) st
    else refreshSecondary env zeroMiningInfo st
  else
    match primaryReply env with
    | FetchFailed => refreshSecondary env zeroMiningInfo st
    | Fetched respBody =>
        match decodeMiningInfo respBody zeroMiningInfo with
        | None => (st, Some ErrDecode)
        | Some mi => refreshPrimary env mi st
        end
    end.

End Refresher.

(** ** Notions the properties are stated with *)

(** [strings.HasPrefix(s, pat)] and [strings.Contains(s, pat)]. *)
Fixpoint hasPrefix (pat s : string) : bool :=
  match pat, s with
  | EmptyString, _ => true
  | String a pat', String b s' => Ascii.eqb a b && hasPrefix pat' s'
  | String _ _, EmptyString => false
  end.

Fixpoint containsb (pat s : string) : bool :=
  hasPrefix pat s
  || match s with
     | EmptyString => false
     | String _ s' => containsb pat s'
     end.

(** Every byte of a string passes a test. *)
Fixpoint strAll (P : ascii -> bool) (s : string) : bool :=
  match s with
  | EmptyString => true
  | String c s' => P c && strAll P s'
  end.

Definition isNot (c : ascii) : ascii -> bool := fun x => negb (Ascii.eqb x c).

(** The envelope [{error:{code:3,...}}]: a JSON object whose member
    [error] is itself an object.  Every compact rendering of it starts
    with the member name followed by an opening brace. *)
Definition nestedErrorEnvelope (body : string) : Prop :=
  exists rest,
    body = "{" +:+ dquote +:+ "error" +:+ dquote +:+ ":{" +:+ rest.

(** The height check as the specification words it: the height differs
    from the current one and no cross-chain transition is open, or the
    height is neither the current nor the last one. *)
Definition lateSubmission (st : State) (round : minerRound) : Prop :=
  (Height round <> currentHeight st
   /\ currentPrimChain st = lastPrimChain st)
  \/ (Height round <> currentHeight st /\ Height round <> lastHeight st).

(** The variables only the refresher writes. *)
Definition chainVars (st : State) :=
  (currentPrimChain st, currentHeight st, currentBaseTarget st,
   lastPrimChain st, lastHeight st, lastBaseTarget st,
   curPrimaryMiningInfo st, curSecondaryMiningInfo st).

(** The adjusted deadline of a round, for a non-zero base target. *)
Definition adjusted (baseTarget : Z) (round : minerRound) : Z :=
  if Adjusted round then Deadline round else Deadline round / baseTarget.



(** A bucket files every round under its own account id and holds at
    most [minersPerIP] of them. *)
Definition bucketKeyed (bucket : ipData) : Prop :=
  forall k r, bucket !! k = Some r -> AccountID r = k.

Definition bucketBounded (cfg : Config) (bucket : ipData) : Prop :=
  Z.of_nat (size bucket) <= minersPerIP cfg.

Definition cachesBounded (cfg : Config) (st : State) : Prop :=
  forall primChain ip bucket,
    cacheOf primChain st !! ip = Some bucket ->
    bucketKeyed bucket /\ bucketBounded cfg bucket.

(** The map [tryUpdateRound] has in hand when it reaches the upstream
    call: nothing yet when the address has no bucket, else the bucket,
    after the eviction of a stale round when it was full. *)
Inductive startBucket (cfg : Config) (st : State) (primChain : bool)
  (baseTarget deadline : Z) (ip : string) (round : minerRound) (pick : nat) :
  ipData -> Prop :=
| start_fresh :
    cacheOf primChain st !! ip = None ->
    startBucket cfg st primChain baseTarget deadline ip round pick ∅
| start_room bucket :
    cacheOf primChain st !! ip = Some bucket ->
    bucket !! AccountID round = None ->
    Z.of_nat (size bucket) <> minersPerIP cfg ->
    startBucket cfg st primChain baseTarget deadline ip round pick bucket
| start_evicted bucket bucket' :
    cacheOf primChain st !! ip = Some bucket ->
    bucket !! AccountID round = None ->
    Z.of_nat (size bucket) = minersPerIP cfg ->
    evictStale bucket round pick = Some bucket' ->
    startBucket cfg st primChain baseTarget deadline ip round pick bucket'
| start_replace bucket existingRound existingDeadline :
    cacheOf primChain st !! ip = Some bucket ->
    bucket !! AccountID round = Some existingRound ->
    adjust existingRound baseTarget = Some existingDeadline ->
    Height existingRound <= Height round ->
    (Height existingRound = Height round -> deadline <= existingDeadline) ->
    startBucket cfg st primChain baseTarget deadline ip round pick bucket.

(** The state a failed upstream call leaves behind. *)
Definition afterFailure (st : State) (primChain : bool) (ip : string)
  (bucket : ipData) : State :=
  match cacheOf primChain st !! ip with
  | None => st
  | Some _ => set_cacheOf primChain (<[ip := bucket]> (cacheOf primChain st)) st
  end.

(** The state a forwarded and stored submission leaves behind. *)
Definition afterUpdate (st : State) (primChain : bool) (ip : string)
  (bucket : ipData) (stored : minerRound) (deadline : Z) (liar : bool) : State :=
  set_bestOf primChain deadline
    (set_cacheOf primChain
       (<[ip := <[AccountID stored := stored]> bucket]> (cacheOf primChain st))
       (if liar then set_liarsCache ({[ip]} ∪ liarsCache st) st else st)).

Definition outcomeOf (res : option (Outcome * State * string)) :
  option Outcome :=
  match res with
  | Some (o, _, _) => Some o
  | None => None
  end.


(** ** Sample inputs *)

(** A pull-only pool configuration. *)
Definition sampleConfig : Config := {|
  primarySubmitURL := "http://pool"; primTDL := 1000000000;
  primaryPassphrase := EmptyString; primaryIgnoreWorseDeadlines := false;
  primaryws := false;
  secondarySubmitURL := "http://wallet"; secTDL := 1000000000;
  secondaryPassphrase := EmptyString; secondaryIgnoreWorseDeadlines := false;
  secondaryws := false;
  scanTime := 30; minersPerIP := 2; lieDetector := false
|}.

(** The primary chain current at height 100 with base target 10; the last
    round at height [lastH] with base target 5 on the chain [lastPrim]. *)
Definition sampleState (lastPrim : bool) (lastH : Z) : State := {|
  currentPrimChain := true; currentHeight := 100; currentBaseTarget := 10;
  curPrimaryMiningInfo := None;
  lastPrimChain := lastPrim; lastHeight := lastH; lastBaseTarget := 5;
  curSecondaryMiningInfo := None;
  primBest := maxU64; secBest := maxU64;
  primc := ∅; secc := ∅; liarsCache := ∅
|}.

Definition sampleRound (account height deadline : Z) : minerRound := {|
  AccountID := account; Height := height; Deadline := deadline; Nonce := 7;
  Passphrase := EmptyString; Adjusted := false
|}.

(** A decoder that finds no deadline in the upstream's answer. *)
Definition noDeadline : string -> option Z := fun _ => None.

(** A full bucket of the address 10.0.0.1 on the primary chain: the
    accounts 1 and 2, both at height 99. *)
Definition fullBucketState : State := {|
  currentPrimChain := true; currentHeight := 100; currentBaseTarget := 10;
  curPrimaryMiningInfo := None;
  lastPrimChain := false; lastHeight := 90; lastBaseTarget := 5;
  curSecondaryMiningInfo := None;
  primBest := maxU64; secBest := maxU64;
  primc := {[ "10.0.0.1"%string :=
                {[ 1 := sampleRound 1 99 5000; 2 := sampleRound 2 99 6000 ]} ]};
  secc := ∅; liarsCache := ∅
|}.

Definition sampleSubmission (ip : string) (account height deadline : Z) :
  Submission := {|
  subIP := ip; subRound := sampleRound account height deadline;
  subReply := Replied "ok"; subPick := 0
|}.

(** Mining info at a given height and base target, published at instant 0. *)
Definition sampleMiningInfo (height baseTarget : Z) : miningInfo := {|
  miHeight := height; miBaseTarget := baseTarget; miTargetDeadline := 0;
  miGenSig := "ab"; miBytes := EmptyString; miStartTime := 0
|}.

(** A decoder of upstream mining info for the two bodies the samples use. *)
Definition sampleDecodeMiningInfo (respBody : string) (mi : miningInfo) :
  option miningInfo :=
  if String.eqb respBody "primary" then Some (sampleMiningInfo 100 10)
  else if String.eqb respBody "secondary" then Some (sampleMiningInfo 90 7)
  else None.

(** Both chains published at height 100, the primary one current. *)
Definition twoChainState : State := {|
  currentPrimChain := true; currentHeight := 100; currentBaseTarget := 10;
  curPrimaryMiningInfo := Some (sampleMiningInfo 100 10);
  lastPrimChain := false; lastHeight := 100; lastBaseTarget := 7;
  curSecondaryMiningInfo := Some (sampleMiningInfo 100 7);
  primBest := maxU64; secBest := maxU64;
  primc := ∅; secc := ∅; liarsCache := ∅
|}.

(** A tick at instant 60: the primary upstream repeats height 100, the
    secondary one answers with height 90. *)
Definition forkBackEnv : RefreshEnv := {|
  now := 60; available := false; currentMiningInfo := zeroMiningInfo;
  primaryReply := Fetched "primary"; secondaryReply := Fetched "secondary"
|}.




(** [sampleConfig] with [minersPerIP] left at zero. *)
Definition zeroCapConfig : Config := {|
  primarySubmitURL := "http://pool"; primTDL := 1000000000;
  primaryPassphrase := EmptyString; primaryIgnoreWorseDeadlines := false;
  primaryws := false;
  secondarySubmitURL := "http://wallet"; secTDL := 1000000000;
  secondaryPassphrase := EmptyString; secondaryIgnoreWorseDeadlines := false;
  secondaryws := false;
  scanTime := 30; minersPerIP := 0; lieDetector := false
|}.

(** An unadjusted round that carries a wallet passphrase. *)
Definition walletRound : minerRound := {|
  AccountID := 1; Height := 100; Deadline := 5000; Nonce := 7;
  Passphrase := "secret"; Adjusted := false
|}.

(** ** The miner-facing handler: [parseRound] and [requestHandler] *)

(** What the handler reads of a request: the host part of [RemoteAddr],
    the form values and the headers.  A missing key reads as the empty
    string, as [FormValue] and [Header.Get] have it. *)
Record Request := {
  RemoteHost : string;
  Form : gmap string string;
  Header : gmap string string
}.

Definition FormValue (r : Request) (key : string) : string :=
  default EmptyString (Form r !! key).

Definition HeaderGet (r : Request) (key : string) : string :=
  default EmptyString (Header r !! key).

Inductive parseError :=
| errSubmissionWrongFormatDeadline
| errSubmissionWrongFormatNonce
| errSubmissionWrongFormatBlockHeight
| errSubmissionWrongFormatAccountID.

(** [err.Error()]. *)
Definition errorText (e : parseError) : string :=
  match e with
  | errSubmissionWrongFormatDeadline => "deadline submission has wrong format"
  | errSubmissionWrongFormatNonce => "nonce submission has wrong format"
  | errSubmissionWrongFormatBlockHeight =>
      "blockheight submission has wrong format"
  | errSubmissionWrongFormatAccountID =>
      "account id submission has wrong format"
  end.

(** The deadline of a request: the form value, or else the header
    [X-Deadline], which marks the round as adjusted. *)
Definition parseDeadline (r : Request) : option (Z * bool) :=
  match Strconv.ParseUint (FormValue r "deadline") 64 with
  | Strconv.Ok deadline => Some (deadline, false)
  | Strconv.Err _ =>
      match Strconv.ParseUint (HeaderGet r "X-Deadline") 64 with
      | Strconv.Ok deadline => Some (deadline, true)
      | Strconv.Err _ => None
      end
  end.

(** A field that [strconv.ParseUint(s, 10, 64)] reads without error. *)
Definition readable (s : string) : bool :=
  negb (Strconv.is_err (Strconv.ParseUint s 64)).

(** The deadline can be read from the form or else from the header. *)
Definition deadlineReadable (r : Request) : bool :=
  readable (FormValue r "deadline") || readable (HeaderGet r "X-Deadline").

(** [parseRound]. *)
Definition parseRound (r : Request) : parseError + minerRound :=
  match parseDeadline r with
  | None => inl errSubmissionWrongFormatDeadline
  | Some (deadline, adjusted) =>
      match Strconv.ParseUint (FormValue r "nonce") 64 with
      | Strconv.Err _ => inl errSubmissionWrongFormatNonce
      | Strconv.Ok nonce =>
          match Strconv.ParseUint (FormValue r "blockheight") 64 with
          | Strconv.Err _ => inl errSubmissionWrongFormatBlockHeight
          | Strconv.Ok height =>
              match Strconv.ParseUint (FormValue r "accountId") 64 with
              | Strconv.Err _ => inl errSubmissionWrongFormatAccountID
              | Strconv.Ok accountID =>
                  inr {| AccountID := accountID; Height := height;
                         Deadline := deadline; Nonce := nonce;
                         Passphrase := FormValue r "secretPhrase";
                         Adjusted := adjusted |}
              end
          end
      end
  end.

Section Handler.

Variable cfg : Config.
Variable decodeSubmitResponse : string -> option Z.

(** [requestHandler]: the response and the state afterwards; [None] is a
    panic, which in the [getMiningInfo] arm is the conversion of a mining
    info that was never stored.  The entry the arm makes for the caller in
    the miner registry is not modelled. *)
Definition requestHandler (st : State) (r : Request) (reply : UpstreamReply)
  (pick : nat) : option (Response * State) :=
  let reqType := FormValue r "requestType" in
  if String.eqb reqType "getMiningInfo" then
    mi ← (if currentPrimChain st then curPrimaryMiningInfo st
          else curSecondaryMiningInfo st);
    Some ({| status := 200; body := miBytes mi |}, st)
  else if String.eqb reqType "submitNonce" then
    match parseRound r with
    | inl err =>
        Some ({| status := 400; body := formatJSONError 1 (errorText err) |},
              st)
    | inr round =>
        requestHandlerSubmit cfg decodeSubmitResponse st (RemoteHost r) round
          reply pick
    end
  else
    Some ({| status := 400;
             body := formatJSONError 4 "unknown request type" |}, st).

End Handler.

(** ** miner.go: the registry of miners *)

(** [int64(x)]: two's complement reduction. *)
Definition to_int64 (x : Z) : Z := (x + 2 ^ 63) mod 2 ^ 64 - 2 ^ 63.

Module Miner.

Record clientID := {
  IP : string;
  MinerName : string;
  Xpu : string
}.

Record clientData := {
  Id : clientID;
  Capacity : Z;
  Alias : string
}.

Section Registry.

(** [hash]: the hexadecimal MD5 sum of the JSON form of an id. *)
Variable hash : clientID -> string.

(** [UpdateClient], on the cache [clients].  Expiry of entries by
    wall-clock time is outside the model. *)
Definition UpdateClient (clients : gmap string clientData)
  (ip minerName alias xpu : string) (capacity : Z) :
  gmap string clientData :=
  let cd := {| Id := {| IP := ip; MinerName := minerName; Xpu := xpu |};
               Capacity := capacity; Alias := alias |} in
  <[hash (Id cd) := cd]> clients.

End Registry.

(** [TotalCapacity]: the loop adds in [int64], wrapping around. *)
Definition TotalCapacity (clients : gmap string clientData) : Z :=
  map_fold (fun _ miner capa => to_int64 (capa + Capacity miner)) 0 clients.

(** The sum of the capacities as a mathematical integer. *)
Definition capacitySum (clients : gmap string clientData) : Z :=
  map_fold (fun _ miner capa => capa + Capacity miner) 0 clients.

End Miner.

(** ** The adapter between fasthttp and net/http *)

Module Adapter.

(** [netHTTPBody.Read] on the remaining bytes [b] and the buffer [p]: the
    count, whether [io.EOF] is returned, the buffer and the bytes left. *)
Definition Read (b p : list ascii) : nat * bool * list ascii * list ascii :=
  match b with
  | [] => (0%nat, true, p, b)
  | _ =>
      let n := Nat.min (length p) (length b) in
      (n, false, take n b ++ drop n p, drop n b)
  end.

(** [netHTTPBody.Close]. *)
Definition Close (b : list ascii) : list ascii := take 0 b.

(** A reader that calls [Read] with a buffer of [size] bytes until
    [io.EOF], at most [fuel] times, and collects what it is given. *)
Fixpoint readAll (fuel size : nat) (b : list ascii) : option (list ascii) :=
  match fuel with
  | O => None
  | S fuel' =>
      let '(n, eof, p, b') := Read b (replicate size "000"%char) in
      if eof then Some []
      else rest ← readAll fuel' size b'; Some (take n p ++ rest)
  end.

Record netHTTPResponseWriter := {
  statusCode : Z;
  h : option (gmap string (list string));
  body : string
}.

(** The zero value [var w netHTTPResponseWriter]. *)
Definition zeroWriter : netHTTPResponseWriter :=
  {| statusCode := 0; h := None; body := EmptyString |}.

Definition StatusCode (w : netHTTPResponseWriter) : Z :=
  if statusCode w =? 0 then 200 else statusCode w.

Definition Header (w : netHTTPResponseWriter) :
  gmap string (list string) * netHTTPResponseWriter :=
  match h w with
  | None => (∅, {| statusCode := statusCode w; h := Some ∅; body := body w |})
  | Some m => (m, w)
  end.

Definition WriteHeader (code : Z) (w : netHTTPResponseWriter) :
  netHTTPResponseWriter :=
  {| statusCode := code; h := h w; body := body w |}.

(** [Write]: the writer afterwards and the count returned. *)
Definition Write (p : string) (w : netHTTPResponseWriter) :
  netHTTPResponseWriter * nat :=
  ({| statusCode := statusCode w; h := h w; body := body w +:+ p |},
   String.length p).

(** What a handler does to the writer it is given. *)
Inductive call :=
| CallWriteHeader (code : Z)
| CallWrite (p : string).

Definition perform (w : netHTTPResponseWriter) (c : call) :
  netHTTPResponseWriter :=
  match c with
  | CallWriteHeader code => WriteHeader code w
  | CallWrite p => fst (Write p w)
  end.

(** The bytes of the [Write] calls, in order, and the code of the last
    [WriteHeader] call. *)
Fixpoint written (calls : list call) : string :=
  match calls with
  | [] => EmptyString
  | CallWrite p :: rest => p +:+ written rest
  | CallWriteHeader _ :: rest => written rest
  end.

Fixpoint lastCode (calls : list call) (code : Z) : Z :=
  match calls with
  | [] => code
  | CallWriteHeader c :: rest => lastCode rest c
  | CallWrite _ :: rest => lastCode rest code
  end.

End Adapter.

(** ** The websocket receive path *)

Module Websocket.

(** [currentMiningInfo], [available] and [lastHeartBeat]. *)
Record state := {
  currentMiningInfo : option miningInfo;
  available : bool;
  lastHeartBeat : option Z
}.

Definition initial : state :=
  {| currentMiningInfo := None; available := false; lastHeartBeat := None |}.

Section Receive.

(** [jsonx.UnmarshalFromString] into a [websocketMessage], of which the
    handler reads [Cmd], and into a [websocketMiningInfo] whose [Para]
    starts as given. *)
Variable decodeCmd : string -> option string.
Variable decodePara : string -> miningInfo -> option miningInfo.

Definition withStartTime (t : Z) (mi : miningInfo) : miningInfo := {|
  miHeight := miHeight mi; miBaseTarget := miBaseTarget mi;
  miTargetDeadline := miTargetDeadline mi; miGenSig := miGenSig mi;
  miBytes := miBytes mi; miStartTime := t
|}.

(** [onTextMessage] at the instant [t]. *)
Definition onTextMessage (t : Z) (message : string) (ws : state) : state :=
  match decodeCmd message with
  | None => ws
  | Some cmd =>
      if String.eqb cmd "poolmgr.heartbeat" then
        {| currentMiningInfo := currentMiningInfo ws;
           available := available ws; lastHeartBeat := Some t |}
      else if String.eqb cmd "poolmgr.mining_info" then
        match decodePara message zeroMiningInfo with
        | None => ws
        | Some para =>
            {| currentMiningInfo := Some (stamp t para); available := true;
               lastHeartBeat := lastHeartBeat ws |}
        end
      else if String.eqb cmd "mining_info" then
        match decodePara message (withStartTime t zeroMiningInfo) with
        | None => ws
        | Some para =>
            {| currentMiningInfo := Some (stamp t para); available := true;
               lastHeartBeat := lastHeartBeat ws |}
        end
      else ws
  end.

(** The messages of a connection, each with the instant it arrives at. *)
Definition receive (ws : state) (messages : list (Z * string)) : state :=
  foldl (fun ws m => onTextMessage (fst m) (snd m) ws) ws messages.

End Receive.

End Websocket.

(** ** Notions the further properties are stated with *)

Definition isU64 (x : Z) : Prop := 0 <= x <= maxU64.

Definition roundInRange (round : minerRound) : Prop :=
  isU64 (AccountID round) /\ isU64 (Height round)
  /\ isU64 (Deadline round) /\ isU64 (Nonce round).

(** The numbers of the state fit their Go type [uint64]. *)
Definition stateInRange (st : State) : Prop :=
  isU64 (currentHeight st) /\ isU64 (currentBaseTarget st)
  /\ isU64 (lastHeight st) /\ isU64 (lastBaseTarget st)
  /\ isU64 (primBest st) /\ isU64 (secBest st).

(** Mining info of the primary chain has been stored, and so has that of
    the secondary chain when it is the current one. *)
Definition published (st : State) : Prop :=
  curPrimaryMiningInfo st <> None
  /\ (currentPrimChain st = false -> curSecondaryMiningInfo st <> None).

(** The bytes served for mining info [mi]. *)
Definition miningInfoBytes (mi : miningInfo) : string :=
  Json.MarshalMap
    [("height", Strconv.FormatInt (miHeight mi));
     ("baseTarget", Strconv.FormatInt (miBaseTarget mi));
     ("generationSignature", miGenSig mi)].

(** The form a miner sends for a round it has not adjusted. *)
Definition formOf (round : minerRound) : gmap string string :=
  {[ "requestType"%string := "submitNonce"%string;
     "accountId"%string := Strconv.FormatUint (AccountID round);
     "blockheight"%string := Strconv.FormatUint (Height round);
     "deadline"%string := Strconv.FormatUint (Deadline round);
     "nonce"%string := Strconv.FormatUint (Nonce round);
     "secretPhrase"%string := Passphrase round ]}.

Definition stateOfRun (res : option (Outcome * State * string)) :
  option State :=
  match res with
  | Some (_, st, _) => Some st
  | None => None
  end.

(** A primary upstream reached over a websocket, no secondary chain. *)
Definition pushConfig : Config := {|
  primarySubmitURL := "wss://pool"; primTDL := 1000000000;
  primaryPassphrase := EmptyString; primaryIgnoreWorseDeadlines := false;
  primaryws := true;
  secondarySubmitURL := EmptyString; secTDL := 0;
  secondaryPassphrase := EmptyString; secondaryIgnoreWorseDeadlines := false;
  secondaryws := false;
  scanTime := 30; minersPerIP := 2; lieDetector := true
|}.

(** [sampleConfig] with the lie detector switched on. *)
Definition detectorConfig : Config := {|
  primarySubmitURL := "http://pool"; primTDL := 1000000000;
  primaryPassphrase := EmptyString; primaryIgnoreWorseDeadlines := false;
  primaryws := false;
  secondarySubmitURL := "http://wallet"; secTDL := 1000000000;
  secondaryPassphrase := EmptyString; secondaryIgnoreWorseDeadlines := false;
  secondaryws := false;
  scanTime := 30; minersPerIP := 2; lieDetector := true
|}.

(** A decoder that finds the deadline [m] in every answer. *)
Definition deadlineIs (m : Z) : string -> option Z := fun _ => Some m.

(** The mining info the [getMiningInfo] arm serves. *)
Definition servedInfo (st : State) : option miningInfo :=
  if currentPrimChain st then curPrimaryMiningInfo st
  else curSecondaryMiningInfo st.

(** The served mining info is the round the engine takes for the current
    one, and its bytes are the JSON form of its own fields. *)
Definition coherent (st : State) : Prop :=
  exists mi,
    servedInfo st = Some mi
    /\ miBytes mi = miningInfoBytes mi
    /\ currentHeight st = to_uint64 (miHeight mi)
    /\ currentBaseTarget st = to_uint64 (miBaseTarget mi).

(** The mining info of the primary chain a tick gets hold of: the one the
    websocket published, or the decoded answer of the upstream. *)
Definition primarySource (cfg : Config)
  (decodeMiningInfo : string -> miningInfo -> option miningInfo)
  (env : RefreshEnv) : option miningInfo :=
  if primaryws cfg then
    if available env then Some (currentMiningInfo env) else None
  else
    match primaryReply env with
    | FetchFailed => None
    | Fetched respBody => decodeMiningInfo respBody zeroMiningInfo
    end.

(** What the secondary part of a tick reads when it gets as far as its
    upstream: the mining info the websocket published, or the answer of
    the secondary upstream decoded into [mi], the variable the primary
    part left behind. *)
Definition secondaryFetch (cfg : Config)
  (decodeMiningInfo : string -> miningInfo -> option miningInfo)
  (env : RefreshEnv) (mi : miningInfo) : option miningInfo :=
  if secondaryws cfg then
    if available env then Some (currentMiningInfo env) else None
  else
    match secondaryReply env with
    | FetchFailed => None
    | Fetched respBody => decodeMiningInfo respBody mi
    end.

(** The mining info of the secondary chain a tick gets hold of.  The
    variable the primary part leaves behind is the primary mining info
    when there is one, and the zero value otherwise. *)
Definition secondarySource (cfg : Config)
  (decodeMiningInfo : string -> miningInfo -> option miningInfo)
  (env : RefreshEnv) : option miningInfo :=
  secondaryFetch cfg decodeMiningInfo env
    (default zeroMiningInfo (primarySource cfg decodeMiningInfo env)).

(** The variables that describe the last round. *)
Definition lastVars (st : State) : bool * Z * Z :=
  (lastPrimChain st, lastHeight st, lastBaseTarget st).

Definition currentVars (st : State) : bool * Z * Z :=
  (currentPrimChain st, currentHeight st, currentBaseTarget st).

(** A tick at instant 1000 at which only the primary upstream answers. *)
Definition primaryAnswers : RefreshEnv := {|
  now := 1000; available := false; currentMiningInfo := zeroMiningInfo;
  primaryReply := Fetched "primary"; secondaryReply := FetchFailed
|}.

(** An environment in which no upstream answers. *)
Definition nobodyAnswers : RefreshEnv := {|
  now := 1000; available := false; currentMiningInfo := zeroMiningInfo;
  primaryReply := FetchFailed; secondaryReply := FetchFailed
|}.

(** [sampleConfig] without a secondary chain. *)
Definition singleChainConfig : Config := {|
  primarySubmitURL := "http://pool"; primTDL := 1000000000;
  primaryPassphrase := EmptyString; primaryIgnoreWorseDeadlines := false;
  primaryws := false;
  secondarySubmitURL := EmptyString; secTDL := 0;
  secondaryPassphrase := EmptyString; secondaryIgnoreWorseDeadlines := false;
  secondaryws := false;
  scanTime := 30; minersPerIP := 2; lieDetector := false
|}.

(** The request [GET /burst?requestType=getMiningInfo]. *)
Definition getMiningInfoRequest : Request := {|
  RemoteHost := "10.0.0.1";
  Form := {[ "requestType"%string := "getMiningInfo"%string ]};
  Header := ∅
|}.

(** [available] is set only together with a mining info that carries the
    bytes of its own fields. *)
Definition ready (ws : Websocket.state) : Prop :=
  Websocket.available ws = true ->
  exists mi,
    Websocket.currentMiningInfo ws = Some mi
    /\ miBytes mi = miningInfoBytes mi.

(** * Theorems *)

(** ** Decimal decoding *)

Module StrconvFacts.
Import Strconv.

Lemma isDigit_range c : isDigit c = true -> 0 <= byteVal c - 48 <= 9.
Proof. unfold isDigit. lia. Qed.

Lemma isDigit_digitVal c :
  isDigit c = true -> digitVal c = Some (byteVal c - 48).
Proof.
  unfold isDigit, digitVal. intros H. cbv zeta.
  destruct ((48 <=? byteVal c) && (byteVal c <=? 57)); [reflexivity | discriminate].
Qed.

Lemma isDigit_not_sign c :
  isDigit c = true -> Ascii.eqb c "-" = false /\ Ascii.eqb c "+" = false.
Proof.
  intros H. split.
  - destruct (Ascii.eqb_spec c "-"); [subst; discriminate H | reflexivity].
  - destruct (Ascii.eqb_spec c "+"); [subst; discriminate H | reflexivity].
Qed.

(** A digit string of length [k] read after [acc] stays below
    [(acc + 1) * 10 ^ k]. *)
Lemma decimalValueFrom_bound s : forall acc v,
  0 <= acc -> decimalValueFrom s acc = Some v ->
  v < (acc + 1) * 10 ^ Z.of_nat (String.length s).
Proof.
  induction s as [| c s IH]; intros acc v Hacc Hv.
  - simpl in *. injection Hv as <-. lia.
  - cbn [decimalValueFrom] in Hv.
    destruct (isDigit c) eqn:Hc; [| discriminate].
    pose proof (isDigit_range c Hc) as Hr.
    apply IH in Hv; [| lia].
    cbn [String.length]. rewrite Nat2Z.inj_succ, Z.pow_succ_r by lia.
    assert (0 < 10 ^ Z.of_nat (String.length s)) by (apply Z.pow_pos_nonneg; lia).
    nia.
Qed.

(** On digit strings the loop of [ParseUint], when it ends without an
    error, has read the number the string denotes. *)
Lemma parseUintLoop_digits s : forall n v r,
  0 <= n -> decimalValueFrom s n = Some v ->
  parseUintLoop (2 ^ 64 - 1) s n = Ok r -> r = v.
Proof.
  induction s as [| c s IH]; intros n v r Hn Hv Hr.
  - simpl in *. congruence.
  - cbn [decimalValueFrom] in Hv. cbn [parseUintLoop] in Hr.
    destruct (isDigit c) eqn:Hc; [| discriminate].
    rewrite (isDigit_digitVal c Hc) in Hr.
    pose proof (isDigit_range c Hc) as Hd.
    set (d := byteVal c - 48) in *.
    destruct (d >=? 10) eqn:Hd10; [discriminate |].
    destruct (n >=? cutoff10) eqn:Hcut; [discriminate |].
    assert (Hlt : n < 1844674407370955162).
    { change cutoff10 with 1844674407370955162 in Hcut. lia. }
    cbv zeta in Hr.
    change (2 ^ 64) with 18446744073709551616 in Hr.
    rewrite (Z.mod_small (n * 10)) in Hr by lia.
    destruct (((n * 10 + d) mod 18446744073709551616 <? n * 10)
              || ((n * 10 + d) mod 18446744073709551616
                  >? 18446744073709551616 - 1)) eqn:Hov; [discriminate |].
    apply orb_false_iff in Hov as [Hov _].
    assert (Hsmall : n * 10 + d < 18446744073709551616).
    { destruct (Z_lt_dec (n * 10 + d) 18446744073709551616) as [|Hge]; [assumption |].
      exfalso.
      assert ((n * 10 + d) mod 18446744073709551616
              = n * 10 + d - 18446744073709551616).
      { symmetry. apply Z.mod_unique with (q := 1); lia. }
      lia. }
    rewrite Z.mod_small in Hr by lia.
    eapply IH; [| exact Hv | exact Hr]. lia.
Qed.

(** [Atoi] rejects every digit string that denotes a number above the
    largest [int]. *)
Lemma Atoi_above_maxInt s v :
  decimalValue s = Some v -> v > 2 ^ 63 - 1 -> is_err (Atoi s) = true.
Proof.
  intros Hv Hbig. unfold Atoi. cbv zeta.
  destruct s as [| c s']; [discriminate |].
  unfold decimalValue in Hv.
  destruct ((0 <? Z.of_nat (String.length (String c s')))
            && (Z.of_nat (String.length (String c s')) <? 19)) eqn:Hlen.
  - exfalso.
    apply decimalValueFrom_bound in Hv; [| lia].
    assert (10 ^ Z.of_nat (String.length (String c s')) <= 10 ^ 18)
      by (apply Z.pow_le_mono_r; lia).
    change (2 ^ 63 - 1) with 9223372036854775807 in Hbig.
    change (10 ^ 18) with 1000000000000000000 in *. lia.
  - unfold ParseInt.
    assert (Hc : isDigit c = true).
    { cbn [decimalValueFrom] in Hv. destruct (isDigit c); [reflexivity | discriminate]. }
    destruct (isDigit_not_sign c Hc) as [-> ->]. cbn [orb negb andb].
    unfold ParseUint, intSize.
    destruct (parseUintLoop (2 ^ 64 - 1) (String c s') 0) as [un | []] eqn:Hloop;
      try reflexivity.
    apply (parseUintLoop_digits _ _ _ _ (Z.le_refl 0) Hv) in Hloop. subst un.
    change (2 ^ (64 - 1)) with 9223372036854775808.
    change (2 ^ 63 - 1) with 9223372036854775807 in Hbig.
    destruct (v >=? 9223372036854775808) eqn:Hge; [reflexivity | lia].
Qed.

End StrconvFacts.

Example Atoi_42 : Strconv.Atoi "42" = Strconv.Ok 42.
Proof. reflexivity. Qed.

Example Atoi_maxInt :
  Strconv.Atoi "9223372036854775807" = Strconv.Ok 9223372036854775807.
Proof. vm_compute. reflexivity. Qed.

Example Atoi_negative : Strconv.Atoi "-17" = Strconv.Ok (-17).
Proof. reflexivity. Qed.

Example Atoi_not_a_number : Strconv.Atoi "12a" = Strconv.Err Strconv.ErrSyntax.
Proof. reflexivity. Qed.

(** C10. [FlexUInt64] is an [int]: a JSON string whose digits denote a
    number above [2^63 - 1] makes [UnmarshalJSON] return an error, whatever
    the underlying decoders are; the largest unsigned 64-bit number,
    [18446744073709551615], is such a string.  Mining info whose decoding
    fails is not published: the refresher returns the error and leaves the
    state as it was. *)
Theorem FlexUInt64_rejects_upper_half
  (jsonUnmarshalInt : string -> option Z)
  (jsonUnmarshalString : string -> option string)
  (b rest s : string) (v : Z) :
  b = String (ascii_of_nat 34) rest ->
  jsonUnmarshalString b = Some s ->
  Strconv.decimalValue s = Some v ->
  v > 2 ^ 63 - 1 ->
  UnmarshalJSON jsonUnmarshalInt jsonUnmarshalString b = Failed
  /\ Strconv.decimalValue "18446744073709551615" = Some (2 ^ 64 - 1)
  /\ Strconv.Atoi "18446744073709551615" = Strconv.Err Strconv.ErrRange
  /\ (forall cfg decodeMiningInfo secondsSince env st respBody,
        primaryws cfg = false ->
        primaryReply env = Fetched respBody ->
        decodeMiningInfo respBody zeroMiningInfo = None ->
        refreshMiningInfo cfg decodeMiningInfo secondsSince env st
        = (st, Some ErrDecode)).
Proof.
  intros -> Hs Hv Hbig.
  split; [| split; [vm_compute; reflexivity |
             split; [vm_compute; reflexivity |]]].
  2: { intros cfg dm ss env st respBody Hws Hreply Hdec.
       unfold refreshMiningInfo. rewrite Hws, Hreply, Hdec. reflexivity. }
  unfold UnmarshalJSON. rewrite Ascii.eqb_refl. cbn [negb]. rewrite Hs.
  pose proof (StrconvFacts.Atoi_above_maxInt s v Hv Hbig) as Herr.
  destruct (Strconv.Atoi s); [discriminate | reflexivity].
Qed.

Lemma FlexUInt64_rejects_upper_half_witness :
  UnmarshalJSON (fun _ => None) (fun _ => Some "18446744073709551615"%string)
    (dquote +:+ "18446744073709551615" +:+ dquote) = Failed.
Proof.
  refine (proj1 (FlexUInt64_rejects_upper_half _ _ _
            ("18446744073709551615" +:+ dquote) "18446744073709551615"
            (2 ^ 64 - 1) _ _ _ _)).
  - reflexivity.
  - reflexivity.
  - vm_compute. reflexivity.
  - vm_compute. reflexivity.
Defined.

(** ** The submission path: frame and inversion lemmas *)

Lemma State_eq (s t : State) :
  currentPrimChain s = currentPrimChain t ->
  currentHeight s = currentHeight t ->
  currentBaseTarget s = currentBaseTarget t ->
  curPrimaryMiningInfo s = curPrimaryMiningInfo t ->
  lastPrimChain s = lastPrimChain t ->
  lastHeight s = lastHeight t ->
  lastBaseTarget s = lastBaseTarget t ->
  curSecondaryMiningInfo s = curSecondaryMiningInfo t ->
  primBest s = primBest t ->
  secBest s = secBest t ->
  primc s = primc t ->
  secc s = secc t ->
  liarsCache s = liarsCache t ->
  s = t.
Proof. destruct s, t; simpl; intros; subst; reflexivity. Qed.

Lemma cacheOf_set_cacheOf pc c st : cacheOf pc (set_cacheOf pc c st) = c.
Proof. destruct pc; reflexivity. Qed.

Lemma cacheOf_set_cacheOf_other pc c st :
  cacheOf (negb pc) (set_cacheOf pc c st) = cacheOf (negb pc) st.
Proof. destruct pc; reflexivity. Qed.

Lemma set_cacheOf_id pc st : set_cacheOf pc (cacheOf pc st) st = st.
Proof. destruct pc, st; reflexivity. Qed.

Lemma set_cacheOf_twice pc c c' st :
  set_cacheOf pc c' (set_cacheOf pc c st) = set_cacheOf pc c' st.
Proof. destruct pc; reflexivity. Qed.

Lemma adjust_set_Passphrase p round bt :
  adjust (set_Passphrase p round) bt = adjust round bt.
Proof. reflexivity. Qed.

Section EngineFacts.

Variable cfg : Config.
Variable decodeSubmitResponse : string -> option Z.

Local Abbreviation proxy := (proxySubmitRound cfg decodeSubmitResponse).
Local Abbreviation tryUpdate := (tryUpdateRound cfg decodeSubmitResponse).

Lemma passphraseOverwrite_fields primary round :
  let r := passphraseOverwrite cfg primary round in
  AccountID r = AccountID round /\ Height r = Height round
  /\ Deadline r = Deadline round /\ Nonce r = Nonce round
  /\ Adjusted r = Adjusted round.
Proof.
  unfold passphraseOverwrite.
  destruct (primary && nonEmpty (primaryPassphrase cfg)),
    (negb primary && nonEmpty (secondaryPassphrase cfg)); simpl; auto.
Qed.

(** The round [proxySubmitRound] hands back is the one it was given, up
    to the passphrase. *)
Lemma proxy_round st ip round primary bt reply pr :
  proxy st ip round primary bt reply = Some pr ->
  AccountID (prRound pr) = AccountID round
  /\ Height (prRound pr) = Height round
  /\ Deadline (prRound pr) = Deadline round
  /\ Adjusted (prRound pr) = Adjusted round.
Proof.
  unfold proxySubmitRound. intros H.
  pose proof (passphraseOverwrite_fields primary round) as (Ha & Hh & Hd & _ & Hj).
  destruct ((primary && primaryws cfg) || (negb primary && secondaryws cfg)).
  - simplify_option_eq. auto.
  - destruct reply; simplify_option_eq; auto.
Qed.

(** A failed call: the pull branch, an unreachable upstream, error 3
    written to the miner, nobody marked. *)
Lemma proxy_failed st ip round primary bt reply pr :
  proxy st ip round primary bt reply = Some pr ->
  prFailed pr = true ->
  reply = Unreachable
  /\ prBody pr = formatJSONError 3 "error reaching pool or wallet"
  /\ prLiar pr = false.
Proof.
  unfold proxySubmitRound. intros H Hf.
  destruct ((primary && primaryws cfg) || (negb primary && secondaryws cfg)).
  - simplify_option_eq; try discriminate.
  - destruct reply; simplify_option_eq; try discriminate; auto.
Qed.

(** The call reads the chain variables only. *)
Lemma proxy_set_cacheOf st pc c ip round primary bt reply :
  proxy (set_cacheOf pc c st) ip round primary bt reply
  = proxy st ip round primary bt reply.
Proof. destruct pc; reflexivity. Qed.

Lemma updateBucket_inv st ip round pc bt d bucket reply o st' w :
  updateBucket cfg decodeSubmitResponse st ip round pc bt d bucket reply
  = Some (o, st', w) ->
  exists pr,
    proxy st ip round pc bt reply = Some pr /\ w = prBody pr
    /\ ((prFailed pr = true /\ o = remoteErr
         /\ st' = set_cacheOf pc (<[ip := bucket]> (cacheOf pc st)) st)
        \/ (prFailed pr = false /\ o = updated
            /\ st' = afterUpdate st pc ip bucket (prRound pr) d (prLiar pr))).
Proof.
  unfold updateBucket. rewrite proxy_set_cacheOf. intros H.
  destruct (proxy st ip round pc bt reply) as [pr |] eqn:Hpr; [| discriminate].
  pose proof (proxy_round _ _ _ _ _ _ _ Hpr) as (Ha & _).
  exists pr. cbn in H. split; [reflexivity |].
  destruct (prFailed pr); injection H as <- <- <-; (split; [reflexivity |]).
  - left. auto.
  - right. split; [reflexivity | split; [reflexivity |]].
    unfold afterUpdate, markLiar. rewrite Ha.
    destruct pc, (prLiar pr); apply State_eq; simpl; try reflexivity;
      apply insert_insert_eq.
Qed.

(** Every way [tryUpdateRound] returns. *)
Lemma tryUpdateRound_inv st ip round reply pick o st' w :
  tryUpdate st ip round reply pick = Some (o, st', w) ->
  (o = wrongHeight /\ lateSubmission st round
   /\ st' = st /\ w = EmptyString)
  \/ ((o = notUpdated \/ o = exceededMinersPerIP)
      /\ (~ lateSubmission st round) /\ st' = st /\ w = EmptyString)
  \/ exists pc bt d bucket pr,
      (~ lateSubmission st round)
      /\ (ip ∉ liarsCache st)
      /\ bindChain st (Height round) = (pc, bt)
      /\ adjust round bt = Some d
      /\ (primaryIgnoreWorseDeadlines cfg = true -> pc = true ->
          d <= primBest st)
      /\ (secondaryIgnoreWorseDeadlines cfg = true -> pc = false ->
          d <= secBest st)
      /\ startBucket cfg st pc bt d ip round pick bucket
      /\ proxy st ip round pc bt reply = Some pr
      /\ w = prBody pr
      /\ ((prFailed pr = true /\ o = remoteErr
           /\ st' = afterFailure st pc ip bucket)
          \/ (prFailed pr = false /\ o = updated
              /\ st' = afterUpdate st pc ip bucket (prRound pr) d (prLiar pr))).
Proof.
  unfold tryUpdateRound. intros H.
  destruct (negb (Height round =? currentHeight st)
            && Bool.eqb (currentPrimChain st) (lastPrimChain st)) eqn:H1.
  { injection H as <- <- <-. left. split; [reflexivity |].
    split; [| auto]. left.
    apply andb_true_iff in H1 as [Hh Hf].
    apply Bool.eqb_prop in Hf. split; [lia | assumption]. }
  destruct (negb (Height round =? currentHeight st)
            && negb (Height round =? lastHeight st)) eqn:H2.
  { injection H as <- <- <-. left. split; [reflexivity |].
    split; [| auto]. right. lia. }
  assert (Hok : ~ lateSubmission st round).
  { intros [[Hh Hf] | [Hh Hl]].
    - rewrite Hf, Bool.eqb_reflx in H1. lia.
    - lia. }
  clear H1 H2.
  destruct (bool_decide (ip ∈ liarsCache st)) eqn:Hliar;
    [injection H as <- <- <-; right; left; auto |].
  apply bool_decide_eq_false in Hliar.
  destruct (bindChain st (Height round)) as [pc bt] eqn:Hbind.
  destruct (adjust round bt) as [d |] eqn:Hd; [| discriminate].
  cbn [mbind option_bind] in H.
  destruct ((pc && (d >? primTDL cfg)) || (negb pc && (d >? secTDL cfg)));
    [injection H as <- <- <-; right; left; auto |].
  destruct ((pc && (d >? primBest st) && primaryIgnoreWorseDeadlines cfg)
            || (negb pc && ((d >? secBest st)
                            && secondaryIgnoreWorseDeadlines cfg))) eqn:Hbest;
    [injection H as <- <- <-; right; left; auto |].
  apply orb_false_iff in Hbest as [Hb1 Hb2].
  assert (Hprim : primaryIgnoreWorseDeadlines cfg = true -> pc = true ->
                  d <= primBest st).
  { intros Hi ->. rewrite Hi in Hb1. simpl in Hb1. lia. }
  assert (Hsec : secondaryIgnoreWorseDeadlines cfg = true -> pc = false ->
                 d <= secBest st).
  { intros Hi ->. rewrite Hi in Hb2. simpl in Hb2. lia. }
  destruct (cacheOf pc st !! ip) as [bucket |] eqn:Hcache.
  - destruct (bucket !! AccountID round) as [ex |] eqn:Hex.
    + destruct (adjust ex bt) as [d' |] eqn:Hd'; [| discriminate].
      cbn [mbind option_bind] in H.
      destruct ((Height ex >? Height round)
                || ((Height ex =? Height round) && (d' <? d))) eqn:Hworse;
        [injection H as <- <- <-; right; left; auto |].
      apply orb_false_iff in Hworse as [Hw1 Hw2].
      apply updateBucket_inv in H as (pr & Hpr & Hw & Hres).
      right; right. exists pc, bt, d, bucket, pr.
      repeat (split; [first [assumption | reflexivity] |]).
      split.
      { eapply start_replace; eauto; [lia |].
        intros Heq. rewrite Heq, Z.eqb_refl in Hw2. simpl in Hw2. lia. }
      split; [assumption |]. split; [assumption |].
      unfold afterFailure. rewrite Hcache. exact Hres.
    + destruct (Z.of_nat (size bucket) =? minersPerIP cfg) eqn:Hfull.
      * destruct (evictStale bucket round pick) as [bucket' |] eqn:Hev;
          [| injection H as <- <- <-; right; left; auto].
        apply updateBucket_inv in H as (pr & Hpr & Hw & Hres).
        right; right. exists pc, bt, d, bucket', pr.
        repeat (split; [first [assumption | reflexivity] |]).
        split; [eapply start_evicted; eauto; lia |].
        split; [assumption |]. split; [assumption |].
        unfold afterFailure. rewrite Hcache. exact Hres.
      * apply updateBucket_inv in H as (pr & Hpr & Hw & Hres).
        right; right. exists pc, bt, d, bucket, pr.
        repeat (split; [first [assumption | reflexivity] |]).
        split; [eapply start_room; eauto; lia |].
        split; [assumption |]. split; [assumption |].
        unfold afterFailure. rewrite Hcache. exact Hres.
  - destruct (proxy st ip round pc bt reply) as [pr |] eqn:Hpr; [| discriminate].
    cbn [mbind option_bind] in H.
    pose proof (proxy_round _ _ _ _ _ _ _ Hpr) as (Ha & _).
    right; right. exists pc, bt, d, ∅, pr.
    repeat (split; [first [assumption | reflexivity] |]).
    split; [apply start_fresh; assumption |].
    split; [assumption |].
    destruct (prFailed pr); injection H as <- <- <-; (split; [reflexivity |]).
    * left. unfold afterFailure. rewrite Hcache. auto.
    * right. split; [reflexivity | split; [reflexivity |]].
      unfold afterUpdate, markLiar. rewrite Ha, insert_empty.
      destruct (prLiar pr); reflexivity.
Qed.

End EngineFacts.

(** ** The scenarios of the specification, run on the model *)

(** An unadjusted deadline goes upstream in the query. *)
Example scenario_query :
  submitQuery sampleConfig true (sampleRound 1 100 5000)
  = "accountId=1&blockheight=100&deadline=5000&nonce=7"%string.
Proof. vm_compute. reflexivity. Qed.

(** The answer of the upstream reaches the miner as it is. *)
Example scenario_fresh_pool :
  fst <$> requestHandlerSubmit sampleConfig noDeadline (sampleState false 90)
            "1.1.1.1" (sampleRound 1 100 5000) (Replied (successBody 500)) 0
  = Some {| status := 200; body := successBody 500 |}.
Proof. vm_compute. reflexivity. Qed.

(** Better deadline wins: 5000 and then 4000 are forwarded, 6000 is not,
    and is answered locally with its own adjusted deadline. *)
Example scenario_better_deadline_wins :
  exists st,
    runSubmissions sampleConfig noDeadline (sampleState false 90)
      [sampleSubmission "1.1.1.1" 1 100 5000;
       sampleSubmission "1.1.1.1" 1 100 4000] = Some ([updated; updated], st)
    /\ primBest st = 400
    /\ fst <$> requestHandlerSubmit sampleConfig noDeadline st "1.1.1.1"
                 (sampleRound 1 100 6000) (Replied "ok") 0
       = Some {| status := 200; body := successBody 600 |}.
Proof.
  eexists. split; [vm_compute; reflexivity |].
  split; vm_compute; reflexivity.
Qed.

(** Cap hit: with [minersPerIP = 2] the third account of an address at the
    same height is turned away with status 400 and error code 2. *)
Example scenario_cap_hit :
  exists st,
    runSubmissions sampleConfig noDeadline (sampleState false 90)
      [sampleSubmission "1.1.1.1" 1 100 5000;
       sampleSubmission "1.1.1.1" 2 100 5000] = Some ([updated; updated], st)
    /\ requestHandlerSubmit sampleConfig noDeadline st "1.1.1.1"
         (sampleRound 3 100 5000) (Replied "ok") 0
       = Some ({| status := 400;
                  body := formatJSONError 2
                            "too many submissions from different account ids by same ip" |},
               st).
Proof.
  eexists. split; [vm_compute; reflexivity |].
  vm_compute. reflexivity.
Qed.

(** Fork flush: the published round keeps its height and changes its base
    target; the primary cache is emptied and [primBest] reset. *)
Example scenario_fork_flush :
  let st := set_curPrimaryMiningInfo (sampleMiningInfo 100 12) fullBucketState in
  let st' := fst (refreshMiningInfo sampleConfig sampleDecodeMiningInfo Z.sub
                    forkBackEnv st) in
  classify (curPrimaryMiningInfo st) (sampleMiningInfo 100 10) = SameHeightFork
  /\ primc st' = ∅
  /\ primBest st' = maxU64
  /\ currentBaseTarget st' = 10.
Proof. vm_compute. auto. Qed.

(** ** The height check *)

(** C4, as the code has it.  [tryUpdateRound] returns [wrongHeight] exactly
    for a late submission: the height differs from [currentHeight] and the
    two chain flags agree, or the height is neither [currentHeight] nor
    [lastHeight].  A submission for [lastHeight], when that differs from
    [currentHeight], is [wrongHeight] while the flags agree; while they
    differ it passes the height check and is bound to the last chain's
    flag and base target. *)
Theorem wrongHeight_iff_late (cfg : Config) (decode : string -> option Z)
  (st : State) (ip : string) (round : minerRound) (reply : UpstreamReply)
  (pick : nat) :
  (outcomeOf (tryUpdateRound cfg decode st ip round reply pick)
   = Some wrongHeight <-> lateSubmission st round)
  /\ (Height round = lastHeight st -> Height round <> currentHeight st ->
      (currentPrimChain st = lastPrimChain st ->
       tryUpdateRound cfg decode st ip round reply pick
       = Some (wrongHeight, st, EmptyString))
      /\ (currentPrimChain st <> lastPrimChain st ->
          outcomeOf (tryUpdateRound cfg decode st ip round reply pick)
          <> Some wrongHeight
          /\ bindChain st (Height round)
             = (lastPrimChain st, lastBaseTarget st))).
Proof.
  assert (Hiff : outcomeOf (tryUpdateRound cfg decode st ip round reply pick)
                 = Some wrongHeight <-> lateSubmission st round).
  { split.
    - destruct (tryUpdateRound cfg decode st ip round reply pick)
        as [[[o st'] w] |] eqn:Hrun; [| discriminate].
      cbn. intros [= ->].
      apply tryUpdateRound_inv in Hrun
        as [(_ & Hlate & _) | [([|] & _) | (pc & bt & d & b & pr & Hrest)]];
        try assumption; try discriminate.
      destruct Hrest as (_ & _ & _ & _ & _ & _ & _ & _ & _ & [(_ & ? & _) | (_ & ? & _)]);
        discriminate.
    - intros Hlate. unfold tryUpdateRound.
      destruct Hlate as [[Hh Hf] | [Hh Hl]].
      + apply Z.eqb_neq in Hh. rewrite Hh, Hf, Bool.eqb_reflx. reflexivity.
      + apply Z.eqb_neq in Hh. apply Z.eqb_neq in Hl. rewrite Hh, Hl.
        destruct (Bool.eqb (currentPrimChain st) (lastPrimChain st)); reflexivity. }
  split; [exact Hiff |].
  intros Hlast Hcur. split.
  - intros Hf. unfold tryUpdateRound.
    apply Z.eqb_neq in Hcur. rewrite Hcur, Hf, Bool.eqb_reflx. reflexivity.
  - intros Hf. split.
    + rewrite Hiff. intros [[_ ?] | [_ ?]]; contradiction.
    + unfold bindChain. apply Z.eqb_neq in Hcur. rewrite Hcur. reflexivity.
Qed.

Lemma wrongHeight_iff_late_witness :
  tryUpdateRound sampleConfig noDeadline (sampleState true 90) "10.0.0.1"
    (sampleRound 1 90 5000) (Replied "ok") 0
  = Some (wrongHeight, sampleState true 90, EmptyString)
  /\ bindChain (sampleState false 90) 90 = (false, 5).
Proof.
  split.
  - refine (proj1 (proj2 (wrongHeight_iff_late sampleConfig noDeadline
              (sampleState true 90) "10.0.0.1" (sampleRound 1 90 5000)
              (Replied "ok") 0) _ _) _).
    + reflexivity.
    + simpl. lia.
    + reflexivity.
  - refine (proj2 (proj2 (proj2 (wrongHeight_iff_late sampleConfig noDeadline
              (sampleState false 90) "10.0.0.1" (sampleRound 1 90 5000)
              (Replied "ok") 0) _ _) _)).
    + reflexivity.
    + simpl. lia.
    + simpl. discriminate.
Defined.

(** C4 as stated fails where [lastHeight] equals [currentHeight]: with both
    flags equal, a submission for that height is not [wrongHeight] but is
    forwarded and stored.  That is so in the state [main] starts from, for
    height 0, and in a state where both chains stand at height 100. *)
Lemma lastHeight_equal_flags_not_wrongHeight :
  (Height (sampleRound 1 0 5000) = lastHeight initialState
   /\ currentPrimChain initialState = lastPrimChain initialState
   /\ outcomeOf (tryUpdateRound sampleConfig noDeadline initialState
                   "10.0.0.1" (sampleRound 1 0 5000) (Replied "ok") 0)
      = Some updated)
  /\ (Height (sampleRound 1 100 5000) = lastHeight (sampleState true 100)
      /\ currentPrimChain (sampleState true 100)
         = lastPrimChain (sampleState true 100)
      /\ outcomeOf (tryUpdateRound sampleConfig noDeadline
                      (sampleState true 100) "10.0.0.1"
                      (sampleRound 1 100 5000) (Replied "ok") 0)
         = Some updated).
Proof. vm_compute. auto. Qed.

(** ** Frame properties of the engine *)

Section EngineFrame.

Variable cfg : Config.
Variable decodeSubmitResponse : string -> option Z.

Lemma chainVars_afterFailure st pc ip bucket :
  chainVars (afterFailure st pc ip bucket) = chainVars st.
Proof.
  unfold afterFailure. destruct (cacheOf pc st !! ip); [| reflexivity].
  destruct pc; reflexivity.
Qed.

Lemma chainVars_afterUpdate st pc ip bucket stored d liar :
  chainVars (afterUpdate st pc ip bucket stored d liar) = chainVars st.
Proof. unfold afterUpdate. destruct pc, liar; reflexivity. Qed.

(** The engine never writes the chain variables. *)
Lemma tryUpdateRound_chainVars st ip round reply pick o st' w :
  tryUpdateRound cfg decodeSubmitResponse st ip round reply pick
  = Some (o, st', w) ->
  chainVars st' = chainVars st.
Proof.
  intros H.
  apply tryUpdateRound_inv in H
    as [(_ & _ & -> & _) | [(_ & _ & -> & _) | (pc & bt & d & b & pr & H)]];
    try reflexivity.
  destruct H as (_ & _ & _ & _ & _ & _ & _ & _ & _ & [(_ & _ & ->) | (_ & _ & ->)]).
  - apply chainVars_afterFailure.
  - apply chainVars_afterUpdate.
Qed.

Lemma bindChain_chainVars st st' h :
  chainVars st' = chainVars st -> bindChain st' h = bindChain st h.
Proof.
  unfold chainVars, bindChain. intros H.
  injection H as H1 H2 H3 H4 H5 H6 _ _.
  rewrite H1, H2, H3, H4, H6. reflexivity.
Qed.

Lemma runSubmissions_chainVars subs : forall st outs st',
  runSubmissions cfg decodeSubmitResponse st subs = Some (outs, st') ->
  chainVars st' = chainVars st.
Proof.
  induction subs as [| s subs IH]; intros st outs st' H.
  - injection H as <- <-. reflexivity.
  - cbn [runSubmissions] in H.
    destruct (tryUpdateRound cfg decodeSubmitResponse st (subIP s)
                (subRound s) (subReply s) (subPick s))
      as [[[o st1] w] |] eqn:H1; [| discriminate].
    cbn in H.
    destruct (runSubmissions cfg decodeSubmitResponse st1 subs)
      as [[os st2] |] eqn:H2; [| discriminate].
    cbn in H. injection H as <- <-.
    rewrite (IH _ _ _ H2). eapply tryUpdateRound_chainVars; eassumption.
Qed.

End EngineFrame.

(** ** Division by the base target *)

Section Division.

Variable cfg : Config.
Variable decodeSubmitResponse : string -> option Z.

Lemma adjust_defined round bt :
  bt <> 0 -> exists d, adjust round bt = Some d.
Proof.
  intros Hbt. unfold adjust. destruct (Adjusted round); [eauto |].
  apply Z.eqb_neq in Hbt. rewrite Hbt. eauto.
Qed.

Lemma bindChain_nonzero st h :
  currentBaseTarget st <> 0 -> lastBaseTarget st <> 0 ->
  snd (bindChain st h) <> 0.
Proof. unfold bindChain. destruct (h =? currentHeight st); auto. Qed.

Lemma proxySubmitRound_defined st ip round primary bt reply :
  currentBaseTarget st <> 0 -> lastBaseTarget st <> 0 -> bt <> 0 ->
  exists pr,
    proxySubmitRound cfg decodeSubmitResponse st ip round primary bt reply
    = Some pr.
Proof.
  intros Hc Hl Hbt. unfold proxySubmitRound.
  destruct ((primary && primaryws cfg) || (negb primary && secondaryws cfg)).
  - destruct (adjust_defined round
                (if negb (Height round =? currentHeight st)
                 then lastBaseTarget st else currentBaseTarget st)) as [d ->].
    { destruct (negb (Height round =? currentHeight st)); assumption. }
    cbn. eauto.
  - destruct reply as [| respBody]; [eauto |].
    destruct (lieDetector cfg); [| cbn; eauto].
    destruct (decodeSubmitResponse respBody); [| cbn; eauto].
    destruct (adjust_defined (passphraseOverwrite cfg primary round) bt Hbt)
      as [d ->].
    cbn. eauto.
Qed.

Lemma updateBucket_defined st ip round pc bt d bucket reply :
  currentBaseTarget st <> 0 -> lastBaseTarget st <> 0 -> bt <> 0 ->
  exists res,
    updateBucket cfg decodeSubmitResponse st ip round pc bt d bucket reply
    = Some res.
Proof.
  intros Hc Hl Hbt. unfold updateBucket. rewrite proxy_set_cacheOf.
  destruct (proxySubmitRound_defined st ip round pc bt reply Hc Hl Hbt)
    as [pr ->].
  cbn. destruct (prFailed pr); eauto.
Qed.

Lemma tryUpdateRound_defined st ip round reply pick :
  currentBaseTarget st <> 0 -> lastBaseTarget st <> 0 ->
  exists res,
    tryUpdateRound cfg decodeSubmitResponse st ip round reply pick = Some res.
Proof.
  intros Hc Hl. unfold tryUpdateRound.
  destruct (negb (Height round =? currentHeight st)
            && Bool.eqb (currentPrimChain st) (lastPrimChain st)); [eauto |].
  destruct (negb (Height round =? currentHeight st)
            && negb (Height round =? lastHeight st)); [eauto |].
  destruct (bool_decide (ip ∈ liarsCache st)); [eauto |].
  pose proof (bindChain_nonzero st (Height round) Hc Hl) as Hbt.
  destruct (bindChain st (Height round)) as [pc bt]. cbn [snd] in Hbt.
  destruct (adjust_defined round bt Hbt) as [d ->]. cbn [mbind option_bind].
  destruct ((pc && (d >? primTDL cfg)) || (negb pc && (d >? secTDL cfg)));
    [eauto |].
  destruct ((pc && (d >? primBest st) && primaryIgnoreWorseDeadlines cfg)
            || (negb pc && ((d >? secBest st)
                            && secondaryIgnoreWorseDeadlines cfg))); [eauto |].
  destruct (cacheOf pc st !! ip) as [bucket |].
  - destruct (bucket !! AccountID round) as [ex |].
    + destruct (adjust_defined ex bt Hbt) as [d' ->]. cbn [mbind option_bind].
      destruct ((Height ex >? Height round)
                || ((Height ex =? Height round) && (d' <? d))); [eauto |].
      apply updateBucket_defined; assumption.
    + destruct (Z.of_nat (size bucket) =? minersPerIP cfg).
      * destruct (evictStale bucket round pick); [| eauto].
        apply updateBucket_defined; assumption.
      * apply updateBucket_defined; assumption.
  - destruct (proxySubmitRound_defined st ip round pc bt reply Hc Hl Hbt)
      as [pr ->].
    cbn. destruct (prFailed pr); eauto.
Qed.

End Division.

(** C9. The deadline is divided by a loaded base target in
    [tryUpdateRound], in the push branch and the lie detector of
    [proxySubmitRound], and in the [notUpdated] arm of [requestHandler];
    none of them tests the divisor, and a zero base target makes the
    division of an unadjusted deadline panic.  Both base targets start at 1.
    When [currentBaseTarget] and [lastBaseTarget] are non-zero, all of the
    divisions are defined: neither [proxySubmitRound], called with the base
    target the round is bound to, nor [tryUpdateRound] nor the handler
    panics. *)
Theorem base_target_nonzero_no_panic (cfg : Config)
  (decode : string -> option Z) (st : State) (ip : string)
  (round : minerRound) (reply : UpstreamReply) (pick : nat) :
  currentBaseTarget st <> 0 ->
  lastBaseTarget st <> 0 ->
  (exists d, adjust round (snd (bindChain st (Height round))) = Some d)
  /\ (forall primary, exists pr,
        proxySubmitRound cfg decode st ip round primary
          (snd (bindChain st (Height round))) reply = Some pr)
  /\ (exists res, tryUpdateRound cfg decode st ip round reply pick = Some res)
  /\ (exists resp, requestHandlerSubmit cfg decode st ip round reply pick
                   = Some resp)
  /\ (Adjusted round = false -> adjust round 0 = None)
  /\ currentBaseTarget initialState = 1
  /\ lastBaseTarget initialState = 1.
Proof.
  intros Hc Hl.
  pose proof (bindChain_nonzero st (Height round) Hc Hl) as Hbt.
  split; [apply adjust_defined; assumption |].
  split; [intros primary; apply proxySubmitRound_defined; assumption |].
  split; [apply tryUpdateRound_defined; assumption |].
  split.
  - unfold requestHandlerSubmit.
    destruct (tryUpdateRound_defined cfg decode st ip round reply pick Hc Hl)
      as [[[o st'] w] Hrun].
    rewrite Hrun. cbn [mbind option_bind].
    apply tryUpdateRound_chainVars in Hrun.
    destruct o; eauto.
    assert (Hc' : currentBaseTarget st' = currentBaseTarget st)
      by (unfold chainVars in Hrun; congruence).
    assert (Hl' : lastBaseTarget st' = lastBaseTarget st)
      by (unfold chainVars in Hrun; congruence).
    destruct (adjust_defined round
                (if negb (Height round =? currentHeight st')
                 then lastBaseTarget st' else currentBaseTarget st')) as [d ->].
    { rewrite Hc', Hl'. destruct (negb (Height round =? currentHeight st'));
        assumption. }
    cbn. eauto.
  - split; [| split; reflexivity].
    intros Ha. unfold adjust. rewrite Ha. reflexivity.
Qed.

Lemma base_target_nonzero_no_panic_witness :
  exists resp,
    requestHandlerSubmit sampleConfig noDeadline (sampleState false 90)
      "10.0.0.1" (sampleRound 1 100 5000) (Replied "ok") 0 = Some resp.
Proof.
  refine (proj1 (proj2 (proj2 (proj2
            (base_target_nonzero_no_panic sampleConfig noDeadline
               (sampleState false 90) "10.0.0.1" (sampleRound 1 100 5000)
               (Replied "ok") 0 _ _))))).
  - simpl. lia.
  - simpl. lia.
Defined.

(** ** A failed upstream call *)

Lemma formatJSONError_3_text :
  formatJSONError 3 "error reaching pool or wallet"
  = "{" +:+ dquote +:+ "errorCode" +:+ dquote +:+ ":" +:+ dquote +:+ "3"
    +:+ dquote +:+ "," +:+ dquote +:+ "errorDescription" +:+ dquote +:+ ":"
    +:+ dquote +:+ "error reaching pool or wallet" +:+ dquote +:+ "}".
Proof. vm_compute. reflexivity. Qed.

Lemma formatJSONError_3_flat :
  ~ nestedErrorEnvelope (formatJSONError 3 "error reaching pool or wallet").
Proof.
  intros [rest H]. rewrite formatJSONError_3_text in H.
  vm_compute in H. discriminate H.
Qed.

(** C3, as the code has it.  Whenever [tryUpdateRound] returns [remoteErr],
    the bytes written to the miner are those of [formatJSONError] for code
    3: the flat object with the two string members [errorCode], holding
    "3", and [errorDescription]; the handler adds nothing to them and
    leaves the status at 200.  The body is not an object nested under a
    member [error]. *)
Theorem remoteErr_body (cfg : Config) (decode : string -> option Z)
  (st st' : State) (ip : string) (round : minerRound) (reply : UpstreamReply)
  (pick : nat) (w : string) :
  tryUpdateRound cfg decode st ip round reply pick = Some (remoteErr, st', w) ->
  w = formatJSONError 3 "error reaching pool or wallet"
  /\ w = "{" +:+ dquote +:+ "errorCode" +:+ dquote +:+ ":" +:+ dquote +:+ "3"
         +:+ dquote +:+ "," +:+ dquote +:+ "errorDescription" +:+ dquote
         +:+ ":" +:+ dquote +:+ "error reaching pool or wallet" +:+ dquote
         +:+ "}"
  /\ requestHandlerSubmit cfg decode st ip round reply pick
     = Some ({| status := 200; body := w |}, st')
  /\ ~ nestedErrorEnvelope w.
Proof.
  intros Hrun.
  assert (Hw : w = formatJSONError 3 "error reaching pool or wallet").
  { apply tryUpdateRound_inv in Hrun
      as [(? & _) | [([|] & _) | (pc & bt & d & b & pr & H)]];
      try discriminate.
    destruct H as (_ & _ & _ & _ & _ & _ & _ & Hpr & -> & [(Hf & _) | (_ & ? & _)]);
      [| discriminate].
    apply (proxy_failed _ _ _ _ _ _ _ _ _ Hpr Hf). }
  split; [exact Hw |].
  split; [rewrite Hw; apply formatJSONError_3_text |].
  split; [unfold requestHandlerSubmit; rewrite Hrun; reflexivity |].
  rewrite Hw. apply formatJSONError_3_flat.
Qed.

Lemma remoteErr_body_witness :
  requestHandlerSubmit sampleConfig noDeadline (sampleState false 90)
    "10.0.0.1" (sampleRound 1 100 5000) Unreachable 0
  = Some ({| status := 200;
             body := formatJSONError 3 "error reaching pool or wallet" |},
          sampleState false 90).
Proof.
  refine (proj1 (proj2 (proj2
            (remoteErr_body sampleConfig noDeadline (sampleState false 90)
               (sampleState false 90) "10.0.0.1" (sampleRound 1 100 5000)
               Unreachable 0 _ _)))).
  reflexivity.
Defined.

(** C3 as stated fails: the body a failed upstream call leaves is not of
    the shape [{error:{code:3,...}}]. *)
Lemma remoteErr_body_not_nested :
  exists st' w,
    tryUpdateRound sampleConfig noDeadline (sampleState false 90) "10.0.0.1"
      (sampleRound 1 100 5000) Unreachable 0 = Some (remoteErr, st', w)
    /\ ~ nestedErrorEnvelope w.
Proof.
  exists (sampleState false 90),
    (formatJSONError 3 "error reaching pool or wallet").
  split; [reflexivity | apply formatJSONError_3_flat].
Qed.

Section FailedCall.

Variable cfg : Config.
Variable decodeSubmitResponse : string -> option Z.

Lemma afterFailure_same st pc ip bucket :
  cacheOf pc st !! ip = Some bucket -> afterFailure st pc ip bucket = st.
Proof.
  intros H. unfold afterFailure. rewrite H, insert_id by exact H.
  apply set_cacheOf_id.
Qed.

(** When the upstream call fails the state is the one the call started
    from, unless a full bucket lost a stale round to make room. *)
Lemma remoteErr_state st st' ip round reply pick w :
  tryUpdateRound cfg decodeSubmitResponse st ip round reply pick
  = Some (remoteErr, st', w) ->
  st' = st
  \/ exists pc bucket bucket',
      cacheOf pc st !! ip = Some bucket
      /\ bucket !! AccountID round = None
      /\ Z.of_nat (size bucket) = minersPerIP cfg
      /\ evictStale bucket round pick = Some bucket'
      /\ st' = set_cacheOf pc (<[ip := bucket']> (cacheOf pc st)) st.
Proof.
  intros H.
  apply tryUpdateRound_inv in H
    as [(? & _) | [([|] & _) | (pc & bt & d & b & pr & H)]];
    try discriminate.
  destruct H as (_ & _ & _ & _ & _ & _ & Hstart & _ & _ & [(_ & _ & ->) | (_ & ? & _)]);
    [| discriminate].
  destruct Hstart as [Hc | b Hc Ha Hn | b b' Hc Ha Hn Hev | b ex d' Hc Ha _ _ _].
  - left. unfold afterFailure. rewrite Hc. reflexivity.
  - left. apply afterFailure_same, Hc.
  - right. exists pc, b, b'. unfold afterFailure. rewrite Hc. auto.
  - left. apply afterFailure_same, Hc.
Qed.

Lemma evictStale_subseteq bucket round pick bucket' :
  evictStale bucket round pick = Some bucket' -> bucket' ⊆ bucket.
Proof.
  unfold evictStale. destruct (staleRounds bucket round); [discriminate |].
  intros [= <-]. apply delete_subseteq.
Qed.

End FailedCall.

(** C8, as the code has it.  Whenever [tryUpdateRound] returns [remoteErr],
    neither [primBest] nor [secBest] is modified, the liar marks and the
    chain variables are as before, and the round is stored nowhere: no
    bucket is created and every bucket holds a part of what it held.  The
    state as a whole is unchanged except in one case: a full bucket that
    held a round of a lower height has lost it, the [delete] coming before
    the upstream call. *)
Theorem remoteErr_stores_nothing (cfg : Config) (decode : string -> option Z)
  (st st' : State) (ip : string) (round : minerRound) (reply : UpstreamReply)
  (pick : nat) (w : string) :
  tryUpdateRound cfg decode st ip round reply pick = Some (remoteErr, st', w) ->
  primBest st' = primBest st
  /\ secBest st' = secBest st
  /\ liarsCache st' = liarsCache st
  /\ chainVars st' = chainVars st
  /\ (forall pc ip' bucket',
        cacheOf pc st' !! ip' = Some bucket' ->
        exists bucket, cacheOf pc st !! ip' = Some bucket /\ bucket' ⊆ bucket)
  /\ (st' = st
      \/ exists pc bucket bucket',
          cacheOf pc st !! ip = Some bucket
          /\ bucket !! AccountID round = None
          /\ Z.of_nat (size bucket) = minersPerIP cfg
          /\ evictStale bucket round pick = Some bucket'
          /\ st' = set_cacheOf pc (<[ip := bucket']> (cacheOf pc st)) st).
Proof.
  intros Hrun.
  pose proof (remoteErr_state _ _ _ _ _ _ _ _ _ Hrun) as Hst.
  destruct Hst as [-> | (pc & b & b' & Hc & Ha & Hn & Hev & ->)].
  - repeat (split; [reflexivity |]). split; [| left; reflexivity].
    intros pc ip' b' H. exists b'. split; [assumption | reflexivity].
  - split; [destruct pc; reflexivity |].
    split; [destruct pc; reflexivity |].
    split; [destruct pc; reflexivity |].
    split; [destruct pc; reflexivity |].
    split; [| right; exists pc, b, b'; auto].
    intros pc' ip' b'' H.
    destruct (Bool.bool_dec pc' pc) as [-> | Hne].
    + rewrite cacheOf_set_cacheOf in H.
      destruct (decide (ip = ip')) as [<- | Hip].
      * rewrite lookup_insert_eq in H. injection H as <-.
        exists b. split; [assumption |].
        eapply evictStale_subseteq; eassumption.
      * rewrite lookup_insert_ne in H by assumption.
        exists b''. split; [assumption | reflexivity].
    + assert (pc' = negb pc) as -> by (destruct pc, pc'; simpl; congruence).
      rewrite cacheOf_set_cacheOf_other in H.
      exists b''. split; [assumption | reflexivity].
Qed.

Lemma remoteErr_stores_nothing_witness :
  primBest (sampleState false 90) = primBest (sampleState false 90)
  /\ secBest (sampleState false 90) = secBest (sampleState false 90).
Proof.
  pose proof (remoteErr_stores_nothing sampleConfig noDeadline
                (sampleState false 90) (sampleState false 90) "10.0.0.1"
                (sampleRound 1 100 5000) Unreachable 0
                (formatJSONError 3 "error reaching pool or wallet")
                eq_refl) as H.
  exact (conj (proj1 H) (proj1 (proj2 H))).
Defined.

(** C8 as stated fails: the call below returns [remoteErr] and the state
    has changed, the full bucket having lost one of its two rounds. *)
Lemma remoteErr_after_eviction_changes_state :
  exists st' w,
    tryUpdateRound sampleConfig noDeadline fullBucketState "10.0.0.1"
      (sampleRound 3 100 5000) Unreachable 0 = Some (remoteErr, st', w)
    /\ st' <> fullBucketState
    /\ size <$> (primc fullBucketState !! "10.0.0.1"%string) = Some 2%nat
    /\ size <$> (primc st' !! "10.0.0.1"%string) = Some 1%nat.
Proof.
  eexists. eexists. split; [vm_compute; reflexivity |].
  split; [| split; vm_compute; reflexivity].
  intros H.
  apply (f_equal (fun s => size <$> (primc s !! "10.0.0.1"%string))) in H.
  vm_compute in H. discriminate H.
Qed.

(** ** The best-deadline counters *)

Section BestDeadline.

Variable cfg : Config.
Variable decodeSubmitResponse : string -> option Z.

Lemma tryUpdateRound_best st ip round reply pick o st' w :
  tryUpdateRound cfg decodeSubmitResponse st ip round reply pick
  = Some (o, st', w) ->
  (primaryIgnoreWorseDeadlines cfg = true -> primBest st' <= primBest st)
  /\ (secondaryIgnoreWorseDeadlines cfg = true -> secBest st' <= secBest st).
Proof.
  intros H.
  apply tryUpdateRound_inv in H
    as [(_ & _ & -> & _) | [(_ & _ & -> & _) | (pc & bt & d & b & pr & H)]];
    try (split; intros; lia).
  destruct H as (_ & _ & _ & _ & Hp & Hs & _ & _ & _ & [(_ & _ & ->) | (_ & _ & ->)]).
  - unfold afterFailure. destruct (cacheOf pc st !! ip); [| split; intros; lia].
    destruct pc; simpl; split; intros; lia.
  - unfold afterUpdate.
    destruct pc, (prLiar pr); simpl; split; intros; auto; lia.
Qed.

Lemma runSubmissions_best subs : forall st outs st',
  runSubmissions cfg decodeSubmitResponse st subs = Some (outs, st') ->
  (primaryIgnoreWorseDeadlines cfg = true -> primBest st' <= primBest st)
  /\ (secondaryIgnoreWorseDeadlines cfg = true -> secBest st' <= secBest st).
Proof.
  induction subs as [| s subs IH]; intros st outs st' H.
  - injection H as <- <-. split; intros; lia.
  - cbn [runSubmissions] in H.
    destruct (tryUpdateRound cfg decodeSubmitResponse st (subIP s)
                (subRound s) (subReply s) (subPick s))
      as [[[o st1] w] |] eqn:H1; [| discriminate].
    cbn in H.
    destruct (runSubmissions cfg decodeSubmitResponse st1 subs)
      as [[os st2] |] eqn:H2; [| discriminate].
    cbn in H. injection H as <- <-.
    destruct (IH _ _ _ H2) as [IHp IHs].
    destruct (tryUpdateRound_best _ _ _ _ _ _ _ _ H1) as [Hp Hs].
    split; intros Hi; [specialize (IHp Hi); specialize (Hp Hi)
                      | specialize (IHs Hi); specialize (Hs Hi)]; lia.
Qed.

End BestDeadline.

Section RefresherTransitions.

Variable cfg : Config.
Variable decodeMiningInfo : string -> miningInfo -> option miningInfo.
Variable secondsSince : Z -> Z -> Z.

Lemma primBest_refreshPrimary env mi st :
  classify (curPrimaryMiningInfo st) mi <> NoChange ->
  primBest (fst (refreshPrimary cfg decodeMiningInfo secondsSince env mi st))
  = maxU64.
Proof.
  intros Hc. unfold refreshPrimary.
  destruct (classify (curPrimaryMiningInfo st) mi); try contradiction;
    cbn [fst];
    unfold primaryNewBlock, primaryForkBack, primarySameHeightFork,
      rescheduleSecondary;
    cbv zeta;
    match goal with
    | |- context [if ?b then _ else _] => destruct b
    end; reflexivity.
Qed.

Lemma secBest_secondarySwitch t mi st :
  classify (curSecondaryMiningInfo st) mi <> NoChange ->
  secBest (secondarySwitch t mi st) = maxU64.
Proof.
  intros Hc. unfold secondarySwitch.
  destruct (classify (curSecondaryMiningInfo st) mi); try contradiction;
    reflexivity.
Qed.

Lemma secondarySwitch_cases t mi st :
  secondarySwitch t mi st = st
  \/ classify (curSecondaryMiningInfo st) mi <> NoChange.
Proof.
  unfold secondarySwitch.
  destruct (classify (curSecondaryMiningInfo st) mi);
    first [left; reflexivity | right; discriminate].
Qed.

(** What a tick does to the state: nothing, one arm of the first switch,
    or one arm of the second. *)
Lemma refreshSecondary_inv env mi st :
  let st' := fst (refreshSecondary cfg decodeMiningInfo secondsSince env mi st) in
  st' = st
  \/ exists mi',
      classify (curSecondaryMiningInfo st) mi' <> NoChange
      /\ st' = secondarySwitch (now env) mi' st.
Proof.
  cbv zeta. unfold refreshSecondary.
  repeat case_match; cbn [fst]; try (left; reflexivity);
    match goal with
    | |- secondarySwitch ?t ?m ?s = _ \/ _ =>
        destruct (secondarySwitch_cases t m s) as [-> | Hc];
        [left; reflexivity | right; exists m; split; [exact Hc | reflexivity]]
    end.
Qed.

Lemma refreshMiningInfo_inv env st :
  let st' := fst (refreshMiningInfo cfg decodeMiningInfo secondsSince env st) in
  st' = st
  \/ (exists mi,
        classify (curPrimaryMiningInfo st) mi <> NoChange
        /\ st' = fst (refreshPrimary cfg decodeMiningInfo secondsSince env mi st))
  \/ (exists mi,
        classify (curSecondaryMiningInfo st) mi <> NoChange
        /\ st' = secondarySwitch (now env) mi st).
Proof.
  cbv zeta.
  assert (Hprim : forall mi,
    let st' := fst (refreshPrimary cfg decodeMiningInfo secondsSince env mi st) in
    st' = st
    \/ (exists mi0,
          classify (curPrimaryMiningInfo st) mi0 <> NoChange
          /\ st' = fst (refreshPrimary cfg decodeMiningInfo secondsSince env mi0 st))
    \/ (exists mi0,
          classify (curSecondaryMiningInfo st) mi0 <> NoChange
          /\ st' = secondarySwitch (now env) mi0 st)).
  { intros mi. cbv zeta.
    destruct (classify (curPrimaryMiningInfo st) mi) eqn:Hc;
      try (right; left; exists mi; split; [rewrite Hc; discriminate | reflexivity]).
    unfold refreshPrimary. rewrite Hc.
    destruct (refreshSecondary_inv env mi st) as [-> | Hsec]; auto. }
  unfold refreshMiningInfo.
  repeat case_match; try apply Hprim; try (left; reflexivity);
    destruct (refreshSecondary_inv env zeroMiningInfo st) as [-> | Hsec]; auto.
Qed.

End RefresherTransitions.

(** C2, as the code has it.  Over every sequence of admissions the
    best-deadline counter of a chain whose [IgnoreWorseDeadlines] option is
    set does not increase; every arm of the refresher that publishes a new
    round of a chain (new block, fork back, same-height fork) resets that
    chain's counter to the largest unsigned 64-bit number, and a tick of
    the refresher that changes the state has taken one of these arms. *)
Theorem best_deadline_monotone_and_reset (cfg : Config)
  (decode : string -> option Z)
  (decodeMiningInfo : string -> miningInfo -> option miningInfo)
  (secondsSince : Z -> Z -> Z) :
  (forall st subs outs st',
      runSubmissions cfg decode st subs = Some (outs, st') ->
      (primaryIgnoreWorseDeadlines cfg = true -> primBest st' <= primBest st)
      /\ (secondaryIgnoreWorseDeadlines cfg = true ->
          secBest st' <= secBest st))
  /\ (forall env mi st,
        classify (curPrimaryMiningInfo st) mi <> NoChange ->
        primBest (fst (refreshPrimary cfg decodeMiningInfo secondsSince
                         env mi st)) = maxU64)
  /\ (forall t mi st,
        classify (curSecondaryMiningInfo st) mi <> NoChange ->
        secBest (secondarySwitch t mi st) = maxU64)
  /\ (forall env st,
        let st' :=
          fst (refreshMiningInfo cfg decodeMiningInfo secondsSince env st) in
        st' = st
        \/ (exists mi,
              classify (curPrimaryMiningInfo st) mi <> NoChange
              /\ st' = fst (refreshPrimary cfg decodeMiningInfo secondsSince
                              env mi st)
              /\ primBest st' = maxU64)
        \/ (exists mi,
              classify (curSecondaryMiningInfo st) mi <> NoChange
              /\ st' = secondarySwitch (now env) mi st
              /\ secBest st' = maxU64)).
Proof.
  split; [intros st subs outs st'; apply runSubmissions_best |].
  split; [intros; apply primBest_refreshPrimary; assumption |].
  split; [intros; apply secBest_secondarySwitch; assumption |].
  intros env st. cbv zeta.
  destruct (refreshMiningInfo_inv cfg decodeMiningInfo secondsSince env st)
    as [H | [(mi & Hc & H) | (mi & Hc & H)]]; cbv zeta in H.
  - left. exact H.
  - right; left. exists mi. rewrite H.
    repeat split; [exact Hc | apply primBest_refreshPrimary, Hc].
  - right; right. exists mi. rewrite H.
    repeat split; [exact Hc | apply secBest_secondarySwitch, Hc].
Qed.

Lemma best_deadline_monotone_and_reset_witness :
  secBest (secondarySwitch 60 (sampleMiningInfo 90 7) twoChainState) = maxU64.
Proof.
  refine (proj1 (proj2 (proj2 (best_deadline_monotone_and_reset sampleConfig
            noDeadline sampleDecodeMiningInfo Z.sub))) 60
            (sampleMiningInfo 90 7) twoChainState _).
  vm_compute. discriminate.
Defined.

(** C2 as stated fails: with the option off, a first admission at adjusted
    deadline 5 and a second one, from another address, at 10 are both
    stored, and [primBest] goes from 5 up to 10. *)
Lemma primBest_increases_without_filter :
  (exists st1,
      runSubmissions sampleConfig noDeadline (sampleState false 90)
        [sampleSubmission "10.0.0.1" 1 100 50] = Some ([updated], st1)
      /\ primBest st1 = 5)
  /\ (exists st2,
        runSubmissions sampleConfig noDeadline (sampleState false 90)
          [sampleSubmission "10.0.0.1" 1 100 50;
           sampleSubmission "10.0.0.2" 2 100 100]
        = Some ([updated; updated], st2)
        /\ primBest st2 = 10).
Proof.
  split; eexists; (split; [vm_compute; reflexivity | reflexivity]).
Qed.

(** ** The secondary chain's transitions *)

(** C1.  After the new-block arm and after the same-height fork arm of the
    secondary switch [currentPrimChain] is false; after the fork-back arm
    it is true, the arm storing [true] where its two siblings store
    [false].  All three arms reset [secBest] to the largest unsigned 64-bit
    number and both fork arms flush the secondary cache.  The tick
    [forkBackEnv] takes the fork-back arm: the secondary chain becomes the
    current one, at height 90, and the flag says primary. *)
Theorem secondary_fork_back_marks_primary :
  (forall t mi st,
      currentPrimChain (secondaryNewBlock t mi st) = false
      /\ secBest (secondaryNewBlock t mi st) = maxU64)
  /\ (forall t mi st,
        currentPrimChain (secondarySameHeightFork t mi st) = false
        /\ secBest (secondarySameHeightFork t mi st) = maxU64
        /\ secc (secondarySameHeightFork t mi st) = ∅)
  /\ (forall t mi st,
        currentPrimChain (secondaryForkBack t mi st) = true
        /\ secBest (secondaryForkBack t mi st) = maxU64
        /\ secc (secondaryForkBack t mi st) = ∅)
  /\ (let st' := fst (refreshMiningInfo sampleConfig sampleDecodeMiningInfo
                        Z.sub forkBackEnv twoChainState) in
      classify (curSecondaryMiningInfo twoChainState) (sampleMiningInfo 90 7)
      = ForkBack
      /\ st' = secondaryForkBack 60 (sampleMiningInfo 90 7) twoChainState
      /\ currentPrimChain st' = true
      /\ currentHeight st' = 90
      /\ currentBaseTarget st' = 7
      /\ secBest st' = maxU64
      /\ secc st' = ∅).
Proof.
  split; [intros; split; reflexivity |].
  split.
  { intros t mi st. unfold secondarySameHeightFork. cbn.
    destruct (currentPrimChain st); repeat split; reflexivity. }
  split.
  { intros t mi st. unfold secondaryForkBack. cbn.
    destruct (currentPrimChain st); repeat split; reflexivity. }
  cbv zeta. repeat split; vm_compute; reflexivity.
Qed.

(** ** The bound on a bucket *)

Section Buckets.

Variable cfg : Config.
Variable decodeSubmitResponse : string -> option Z.

(** The loop ends without a [delete] exactly when no stored round is
    lower than the incoming one. *)
Lemma staleRounds_elem (bucket : ipData) round o :
  o ∈ staleRounds bucket round <->
  Height o < Height round /\ exists k, bucket !! k = Some o.
Proof.
  unfold staleRounds. rewrite list_elem_of_filter, list_elem_of_fmap.
  split.
  - intros [Hlt ([k r] & -> & Hin)]. apply elem_of_map_to_list in Hin.
    split; [exact Hlt | exists k; exact Hin].
  - intros [Hlt [k Hk]]. split; [exact Hlt |].
    exists (k, o). split; [reflexivity | apply elem_of_map_to_list, Hk].
Qed.

Lemma evictStale_None (bucket : ipData) round pick :
  evictStale bucket round pick = None <->
  forall k r, bucket !! k = Some r -> Height round <= Height r.
Proof.
  unfold evictStale. split.
  - destruct (staleRounds bucket round) as [| o os] eqn:Hs; [| discriminate].
    intros _ k r Hk.
    destruct (Z_lt_dec (Height r) (Height round)) as [Hlt |]; [| lia].
    assert (r ∈ staleRounds bucket round)
      by (apply staleRounds_elem; eauto).
    rewrite Hs in *. exfalso. eapply not_elem_of_nil; eassumption.
  - intros Hall.
    destruct (staleRounds bucket round) as [| o os] eqn:Hs; [reflexivity |].
    assert (Ho : o ∈ staleRounds bucket round) by (rewrite Hs; left).
    apply staleRounds_elem in Ho as [Hlt [k Hk]].
    specialize (Hall _ _ Hk). lia.
Qed.

Lemma evictStale_Some (bucket : ipData) round pick bucket' :
  evictStale bucket round pick = Some bucket' ->
  exists k victim,
    bucket !! k = Some victim /\ Height victim < Height round
    /\ bucket' = delete (AccountID victim) bucket.
Proof.
  unfold evictStale.
  destruct (staleRounds bucket round) as [| o os] eqn:Hs; [discriminate |].
  intros [= <-].
  set (victim := nth (pick mod length (o :: os)) (o :: os) o).
  assert (Hin : victim ∈ staleRounds bucket round).
  { rewrite Hs. apply list_elem_of_In. apply nth_In.
    apply Nat.mod_upper_bound. discriminate. }
  apply staleRounds_elem in Hin as [Hlt [k Hk]].
  exists k, victim. auto.
Qed.

Lemma bucketKeyed_insert (bucket : ipData) stored :
  bucketKeyed bucket -> bucketKeyed (<[AccountID stored := stored]> bucket).
Proof.
  intros Hk k r. rewrite lookup_insert.
  case_decide as Heq; [intros [= <-]; exact Heq | apply Hk].
Qed.

Lemma bucketKeyed_subseteq (b b' : ipData) :
  b' ⊆ b -> bucketKeyed b -> bucketKeyed b'.
Proof. intros Hsub Hk k r Hr. eapply Hk, lookup_weaken; eassumption. Qed.

(** The map in hand at the upstream call has room for the incoming
    account. *)
Lemma startBucket_room st pc bt d ip round pick b :
  1 <= minersPerIP cfg ->
  cachesBounded cfg st ->
  startBucket cfg st pc bt d ip round pick b ->
  bucketKeyed b /\ bucketBounded cfg b
  /\ (b !! AccountID round = None -> Z.of_nat (size b) < minersPerIP cfg).
Proof.
  intros Hmin Hinv Hstart. unfold bucketBounded.
  destruct Hstart as [Hc | b Hc Ha Hn | b b' Hc Ha Hn Hev | b ex d' Hc Ha _ _ _].
  - split; [intros k r; rewrite lookup_empty; discriminate |].
    rewrite map_size_empty. lia.
  - destruct (Hinv _ _ _ Hc) as [Hk Hb]. unfold bucketBounded in Hb.
    split; [exact Hk |]. lia.
  - destruct (Hinv _ _ _ Hc) as [Hk Hb]. unfold bucketBounded in Hb.
    apply evictStale_Some in Hev as (k & victim & Hv & _ & ->).
    rewrite (Hk _ _ Hv).
    split; [eapply bucketKeyed_subseteq; [apply delete_subseteq | exact Hk] |].
    rewrite map_size_delete_Some by eauto.
    assert (size b <> 0%nat).
    { intros Hz. apply map_size_empty_inv in Hz. subst b.
      rewrite lookup_empty in Hv. discriminate. }
    lia.
  - destruct (Hinv _ _ _ Hc) as [Hk Hb]. unfold bucketBounded in Hb.
    split; [exact Hk |]. split; [exact Hb |]. congruence.
Qed.

Lemma cachesBounded_insert st pc ip b st' :
  cachesBounded cfg st ->
  bucketKeyed b -> bucketBounded cfg b ->
  cacheOf pc st' = <[ip := b]> (cacheOf pc st) ->
  cacheOf (negb pc) st' = cacheOf (negb pc) st ->
  cachesBounded cfg st'.
Proof.
  intros Hinv Hk Hb Hsame Hother pc' ip' b' H.
  destruct (Bool.bool_dec pc' pc) as [-> | Hne].
  - rewrite Hsame, lookup_insert in H. case_decide.
    + injection H as <-. auto.
    + eapply Hinv; eassumption.
  - assert (pc' = negb pc) as -> by (destruct pc, pc'; simpl; congruence).
    rewrite Hother in H. eapply Hinv; eassumption.
Qed.

Lemma tryUpdateRound_bounded st ip round reply pick o st' w :
  1 <= minersPerIP cfg ->
  cachesBounded cfg st ->
  tryUpdateRound cfg decodeSubmitResponse st ip round reply pick
  = Some (o, st', w) ->
  cachesBounded cfg st'.
Proof.
  intros Hmin Hinv H.
  apply tryUpdateRound_inv in H
    as [(_ & _ & -> & _) | [(_ & _ & -> & _) | (pc & bt & d & b & pr & H)]];
    try assumption.
  destruct H as (_ & _ & _ & _ & _ & _ & Hstart & Hpr & _ & Hres).
  destruct (startBucket_room _ _ _ _ _ _ _ _ Hmin Hinv Hstart)
    as (Hk & Hb & Hroom).
  destruct Hres as [(_ & _ & ->) | (_ & _ & ->)].
  - unfold afterFailure.
    destruct (cacheOf pc st !! ip) eqn:Hc; [| assumption].
    eapply cachesBounded_insert; eauto.
    + apply cacheOf_set_cacheOf.
    + apply cacheOf_set_cacheOf_other.
  - pose proof (proxy_round _ _ _ _ _ _ _ _ _ Hpr) as (Ha & _).
    eapply (cachesBounded_insert st pc ip
              (<[AccountID (prRound pr) := prRound pr]> b)); eauto.
    + apply bucketKeyed_insert, Hk.
    + unfold bucketBounded in *. rewrite map_size_insert, Ha.
      destruct (b !! AccountID round) eqn:Hl; simpl; [exact Hb |].
      specialize (Hroom eq_refl). lia.
    + unfold afterUpdate. destruct pc, (prLiar pr); reflexivity.
    + unfold afterUpdate. destruct pc, (prLiar pr); reflexivity.
Qed.

End Buckets.

(** ** The refresher and the caches *)

Section RefresherCaches.

Variable cfg : Config.
Variable decodeMiningInfo : string -> miningInfo -> option miningInfo.
Variable secondsSince : Z -> Z -> Z.

(** A tick leaves a cache as it is or flushes it. *)
Lemma refreshMiningInfo_caches env st pc :
  let st' := fst (refreshMiningInfo cfg decodeMiningInfo secondsSince env st) in
  cacheOf pc st' = cacheOf pc st \/ cacheOf pc st' = ∅.
Proof.
  cbv zeta.
  unfold refreshMiningInfo, refreshPrimary, refreshSecondary,
    secondarySwitch, primaryNewBlock, primaryForkBack,
    primarySameHeightFork, rescheduleSecondary, secondaryNewBlock,
    secondaryForkBack, secondarySameHeightFork.
  repeat case_match; destruct pc; cbn; auto.
Qed.

Lemma refreshMiningInfo_bounded (limits : Config) env st :
  cachesBounded limits st ->
  cachesBounded limits
    (fst (refreshMiningInfo cfg decodeMiningInfo secondsSince env st)).
Proof.
  intros Hinv pc ip b H.
  destruct (refreshMiningInfo_caches env st pc) as [Heq | Heq];
    cbv zeta in Heq; rewrite Heq in H.
  - eapply Hinv, H.
  - rewrite lookup_empty in H. discriminate.
Qed.

End RefresherCaches.

Section BucketBound.

Variable cfg : Config.
Variable decodeSubmitResponse : string -> option Z.

Lemma cachesBounded_initial : cachesBounded cfg initialState.
Proof. intros [] ip b H; cbn in H; rewrite lookup_empty in H; discriminate. Qed.

(** A bucket comes into being with the one round that made it. *)
Lemma tryUpdateRound_creates st ip round reply pick st' w :
  tryUpdateRound cfg decodeSubmitResponse st ip round reply pick
  = Some (updated, st', w) ->
  cacheOf (fst (bindChain st (Height round))) st !! ip = None ->
  exists stored,
    cacheOf (fst (bindChain st (Height round))) st' !! ip
    = Some {[AccountID round := stored]}.
Proof.
  intros H Hnone.
  apply tryUpdateRound_inv in H
    as [(? & _) | [([|] & _) | (pc & bt & d & b & pr & H)]];
    try discriminate.
  destruct H as (_ & _ & Hbind & _ & _ & _ & Hstart & Hpr & _ & [(_ & ? & _) | (_ & _ & ->)]);
    [discriminate |].
  rewrite Hbind in *. cbn [fst] in *.
  pose proof (proxy_round _ _ _ _ _ _ _ _ _ Hpr) as (Ha & _).
  destruct Hstart as [Hc | b Hc _ _ | b b' Hc _ _ _ | b ex d' Hc _ _ _ _];
    try congruence.
  exists (prRound pr). unfold afterUpdate.
  rewrite Ha, insert_empty.
  destruct pc, (prLiar pr); cbn; apply lookup_insert_eq.
Qed.

(** A full bucket takes a new account only in the place of a stored
    round of a lower height. *)
Lemma tryUpdateRound_full st ip round reply pick o st' w bucket :
  tryUpdateRound cfg decodeSubmitResponse st ip round reply pick
  = Some (o, st', w) ->
  cacheOf (fst (bindChain st (Height round))) st !! ip = Some bucket ->
  bucket !! AccountID round = None ->
  Z.of_nat (size bucket) = minersPerIP cfg ->
  (o = updated ->
   exists k victim stored,
     bucket !! k = Some victim /\ Height victim < Height round
     /\ cacheOf (fst (bindChain st (Height round))) st' !! ip
        = Some (<[AccountID round := stored]>
                  (delete (AccountID victim) bucket)))
  /\ ((forall k r, bucket !! k = Some r -> Height round <= Height r) ->
      o <> updated /\ o <> remoteErr /\ st' = st).
Proof.
  intros H Hc Habs Hfull.
  apply tryUpdateRound_inv in H
    as [(-> & _ & -> & _) | [([-> | ->] & _ & -> & _) | (pc & bt & d & b & pr & H)]];
    try (split; [discriminate | intros _; repeat split; discriminate]).
  destruct H as (_ & _ & Hbind & _ & _ & _ & Hstart & Hpr & _ & Hres).
  rewrite Hbind in *. cbn [fst] in *.
  pose proof (proxy_round _ _ _ _ _ _ _ _ _ Hpr) as (Ha & _).
  destruct Hstart as [Hc' | b Hc' _ Hn | b b' Hc' _ _ Hev | b ex d' Hc' Hex _ _ _];
    try congruence.
  assert (b = bucket) as -> by congruence.
  split.
  - intros ->. destruct Hres as [(_ & ? & _) | (_ & _ & ->)]; [discriminate |].
    apply evictStale_Some in Hev as (k & victim & Hv & Hlt & ->).
    exists k, victim, (prRound pr). split; [exact Hv |]. split; [exact Hlt |].
    unfold afterUpdate. rewrite Ha.
    destruct pc, (prLiar pr); cbn; apply lookup_insert_eq.
  - intros Hnone. apply (evictStale_None bucket round pick) in Hnone.
    congruence.
Qed.

(** With no stored round to give way, a submission that passes the
    filters is answered [exceededMinersPerIP]. *)
Lemma tryUpdateRound_exceeded st ip round reply pick pc bt d bucket :
  ~ lateSubmission st round ->
  ip ∉ liarsCache st ->
  bindChain st (Height round) = (pc, bt) ->
  adjust round bt = Some d ->
  d <= (if pc then primTDL cfg else secTDL cfg) ->
  ((if pc then primaryIgnoreWorseDeadlines cfg
    else secondaryIgnoreWorseDeadlines cfg) = true -> d <= bestOf pc st) ->
  cacheOf pc st !! ip = Some bucket ->
  bucket !! AccountID round = None ->
  Z.of_nat (size bucket) = minersPerIP cfg ->
  (forall k r, bucket !! k = Some r -> Height round <= Height r) ->
  tryUpdateRound cfg decodeSubmitResponse st ip round reply pick
  = Some (exceededMinersPerIP, st, EmptyString).
Proof.
  intros Hlate Hliar Hbind Hd Htdl Hbest Hc Habs Hfull Hnone.
  unfold tryUpdateRound.
  destruct (negb (Height round =? currentHeight st)
            && Bool.eqb (currentPrimChain st) (lastPrimChain st)) eqn:H1.
  { exfalso. apply Hlate. left. apply andb_true_iff in H1 as [Hh Hf].
    apply Bool.eqb_prop in Hf. split; [lia | assumption]. }
  destruct (negb (Height round =? currentHeight st)
            && negb (Height round =? lastHeight st)) eqn:H2.
  { exfalso. apply Hlate. right. lia. }
  rewrite bool_decide_eq_false_2 by assumption.
  rewrite Hbind, Hd. cbn [mbind option_bind].
  assert (Hf1 : (pc && (d >? primTDL cfg)) || (negb pc && (d >? secTDL cfg))
                = false) by (destruct pc; simpl; lia).
  rewrite Hf1.
  assert (Hf2 : (pc && (d >? primBest st) && primaryIgnoreWorseDeadlines cfg)
                || (negb pc && ((d >? secBest st)
                                && secondaryIgnoreWorseDeadlines cfg))
                = false).
  { destruct pc; simpl in *.
    - destruct (primaryIgnoreWorseDeadlines cfg);
        [specialize (Hbest eq_refl) |]; lia.
    - destruct (secondaryIgnoreWorseDeadlines cfg);
        [specialize (Hbest eq_refl) |]; lia. }
  rewrite Hf2, Hc, Habs.
  apply Z.eqb_eq in Hfull. rewrite Hfull.
  apply (evictStale_None bucket round pick) in Hnone. rewrite Hnone.
  reflexivity.
Qed.

End BucketBound.

(** C6, as the code has it.  With [minersPerIP] at least one, every bucket
    holds at most [minersPerIP] rounds, each under its own account id: that
    holds when [main] starts, after every call of [tryUpdateRound] and
    after every tick of the refresher.  A
    bucket is created with one entry; a full bucket takes a new account id
    only in the place of a stored round whose height is lower than the
    incoming one; when there is none, nothing is forwarded or stored, and
    the answer to a submission that passed the filters is
    [exceededMinersPerIP]. *)
Theorem buckets_hold_at_most_minersPerIP (cfg : Config)
  (decode : string -> option Z) :
  1 <= minersPerIP cfg ->
  cachesBounded cfg initialState
  /\ (forall st ip round reply pick o st' w,
        cachesBounded cfg st ->
        tryUpdateRound cfg decode st ip round reply pick = Some (o, st', w) ->
        let pc := fst (bindChain st (Height round)) in
        cachesBounded cfg st'
        /\ (cacheOf pc st !! ip = None -> o = updated ->
            exists stored,
              cacheOf pc st' !! ip = Some {[AccountID round := stored]})
        /\ (forall bucket,
              cacheOf pc st !! ip = Some bucket ->
              bucket !! AccountID round = None ->
              Z.of_nat (size bucket) = minersPerIP cfg ->
              (o = updated ->
               exists k victim stored,
                 bucket !! k = Some victim /\ Height victim < Height round
                 /\ cacheOf pc st' !! ip
                    = Some (<[AccountID round := stored]>
                              (delete (AccountID victim) bucket)))
              /\ ((forall k r, bucket !! k = Some r ->
                               Height round <= Height r) ->
                  o <> updated /\ o <> remoteErr /\ st' = st)))
  /\ (forall st ip round reply pick pc bt d bucket,
        ~ lateSubmission st round ->
        ip ∉ liarsCache st ->
        bindChain st (Height round) = (pc, bt) ->
        adjust round bt = Some d ->
        d <= (if pc then primTDL cfg else secTDL cfg) ->
        ((if pc then primaryIgnoreWorseDeadlines cfg
          else secondaryIgnoreWorseDeadlines cfg) = true ->
         d <= bestOf pc st) ->
        cacheOf pc st !! ip = Some bucket ->
        bucket !! AccountID round = None ->
        Z.of_nat (size bucket) = minersPerIP cfg ->
        (forall k r, bucket !! k = Some r -> Height round <= Height r) ->
        tryUpdateRound cfg decode st ip round reply pick
        = Some (exceededMinersPerIP, st, EmptyString))
  /\ (forall decodeMiningInfo secondsSince env st,
        cachesBounded cfg st ->
        cachesBounded cfg
          (fst (refreshMiningInfo cfg decodeMiningInfo secondsSince env st))).
Proof.
  intros Hmin. split; [apply cachesBounded_initial |].
  split; [| split; [| intros; apply refreshMiningInfo_bounded; assumption]].
  - intros st ip round reply pick o st' w Hinv Hrun. cbv zeta.
    split; [eapply tryUpdateRound_bounded; eassumption |].
    split.
    + intros Hnone ->. eapply tryUpdateRound_creates; eassumption.
    + intros bucket Hc Habs Hfull.
      eapply tryUpdateRound_full; eassumption.
  - intros. eapply tryUpdateRound_exceeded; eassumption.
Qed.

Lemma buckets_hold_at_most_minersPerIP_witness :
  cachesBounded sampleConfig initialState.
Proof.
  refine (proj1 (buckets_hold_at_most_minersPerIP sampleConfig noDeadline _)).
  simpl. lia.
Defined.

(** C6 as stated fails for [minersPerIP = 0]: the first submission of an
    address creates a bucket of one round, more than the bound, and the
    full-bucket test, an equality, no longer fires. *)
Lemma zero_cap_bucket_exceeds_bound :
  cachesBounded zeroCapConfig (sampleState false 90)
  /\ exists st' w bucket,
      tryUpdateRound zeroCapConfig noDeadline (sampleState false 90)
        "10.0.0.1" (sampleRound 1 100 5000) (Replied "ok") 0
      = Some (updated, st', w)
      /\ primc st' !! "10.0.0.1"%string = Some bucket
      /\ size bucket = 1%nat
      /\ ~ Z.of_nat (size bucket) <= minersPerIP zeroCapConfig.
Proof.
  split.
  - intros [] ip b H; cbn in H; rewrite lookup_empty in H; discriminate.
  - eexists. eexists. eexists.
    split; [vm_compute; reflexivity |].
    split; [vm_compute; reflexivity |].
    split; [vm_compute; reflexivity |].
    vm_compute. intros H. apply H. reflexivity.
Qed.

(** ** The stored round of an account *)



Section StoredRound.

Variable cfg : Config.
Variable decodeSubmitResponse : string -> option Z.

(** The submissions of one miner for one round: address [ip], account
    [a], height [h], bound to the chain [pc] with base target [bt]. *)
Variable ip : string.
Variables a h : Z.
Variable pc : bool.
Variable bt : Z.


End StoredRound.

Section StoredRoundRuns.

Variable cfg : Config.
Variable decodeSubmitResponse : string -> option Z.

Lemma runSubmissions_length subs : forall st outs st',
  runSubmissions cfg decodeSubmitResponse st subs = Some (outs, st') ->
  length outs = length subs.
Proof.
  induction subs as [| s subs IH]; intros st outs st' H.
  - injection H as <- <-. reflexivity.
  - cbn [runSubmissions] in H.
    destruct (tryUpdateRound cfg decodeSubmitResponse st (subIP s)
                (subRound s) (subReply s) (subPick s))
      as [[[o st1] w] |]; [| discriminate].
    cbn in H.
    destruct (runSubmissions cfg decodeSubmitResponse st1 subs)
      as [[os st2] |] eqn:H2; [| discriminate].
    cbn in H. injection H as <- <-. cbn. f_equal. eapply IH, H2.
Qed.





(** As long as no item under the caller's address has expired, the timed
    call is the untimed call on the stored state. *)
Lemma visible_live t ip ts :
  live t (primExp (expirations ts)) ip = true ->
  live t (secExp (expirations ts)) ip = true ->
  live t (liarExp (expirations ts)) ip = true ->
  visible t ip ts = engine ts.
Proof.
  unfold visible, expire, expireSet. cbv zeta. intros -> -> ->.
  destruct (engine ts). reflexivity.
Qed.




End StoredRoundRuns.




(** ** The query of a pull submission *)

Section Query.

Lemma strAll_app P s t : strAll P (s +:+ t) = strAll P s && strAll P t.
Proof.
  induction s as [| c s IH]; [reflexivity |].
  simpl. rewrite IH. apply andb_assoc.
Qed.

Lemma escapeByte_no_equals c : strAll (isNot "=") (Url.escapeByte c) = true.
Proof. destruct c as [[] [] [] [] [] [] [] []]; vm_compute; reflexivity. Qed.

Lemma QueryEscape_no_equals s :
  strAll (isNot "=") (Url.QueryEscape s) = true.
Proof.
  induction s as [| c s IH]; [reflexivity |].
  cbn [Url.QueryEscape]. rewrite strAll_app, escapeByte_no_equals, IH.
  reflexivity.
Qed.

(** A pattern that holds [=] and no [&] does not start inside a value
    that is followed by the end of the query or by [&]. *)
Lemma hasPrefix_value pat : forall v rest,
  strAll (isNot "&") pat = true ->
  containsb "=" pat = true ->
  strAll (isNot "=") v = true ->
  (rest = EmptyString \/ exists rest', rest = String "&" rest') ->
  hasPrefix pat (v +:+ rest) = false.
Proof.
  induction pat as [| a pat IH]; intros v rest Hamp Heq Hv Hrest.
  - discriminate Heq.
  - cbn [strAll] in Hamp. apply andb_true_iff in Hamp as [Ha Hamp].
    destruct v as [| b v].
    + change (EmptyString +:+ rest) with rest.
      destruct Hrest as [-> | [rest' ->]]; [reflexivity |].
      cbn [hasPrefix]. unfold isNot in Ha.
      destruct (Ascii.eqb a "&"); [discriminate | reflexivity].
    + change (String b v +:+ rest) with (String b (v +:+ rest)).
      cbn [hasPrefix].
      cbn [strAll] in Hv. apply andb_true_iff in Hv as [Hb Hv].
      destruct (Ascii.eqb_spec a b) as [<- | Hne]; [| reflexivity].
      cbn [andb]. apply IH; try assumption.
      cbn [containsb hasPrefix] in Heq. unfold isNot in Hb.
      destruct (Ascii.eqb_spec "=" a) as [<- | Hne].
      * discriminate Hb.
      * exact Heq.
Qed.

Lemma containsb_value pat : forall v rest,
  strAll (isNot "&") pat = true ->
  containsb "=" pat = true ->
  strAll (isNot "=") v = true ->
  (rest = EmptyString \/ exists rest', rest = String "&" rest') ->
  containsb pat (v +:+ rest) = containsb pat rest.
Proof.
  intros v rest Hamp Heq; revert v.
  induction v as [| b v IH]; intros Hv Hrest; [reflexivity |].
  change (String b v +:+ rest) with (String b (v +:+ rest)).
  cbn [containsb].
  change (String b (v +:+ rest)) with (String b v +:+ rest).
  rewrite hasPrefix_value by assumption.
  cbn [strAll] in Hv. apply andb_true_iff in Hv as [_ Hv].
  cbn [orb]. apply IH; assumption.
Qed.

Lemma append_cons c s t : String c s +:+ t = String c (s +:+ t).
Proof. reflexivity. Qed.

Lemma append_nil t : EmptyString +:+ t = t.
Proof. reflexivity. Qed.

(** Lays the encoded query out as literal key text around the escaped
    values, then walks through it: literal bytes by computation, values
    by [containsb_value]. *)
Ltac walk_query :=
  cbv -[Url.QueryEscape String.append containsb];
  repeat match goal with
    | |- context [Url.QueryEscape (String ?c ?s)] =>
        let k := eval vm_compute in (Url.QueryEscape (String c s)) in
        change (Url.QueryEscape (String c s)) with k
    end;
  rewrite ?append_cons, ?append_nil;
  repeat (cbn;
          try (rewrite containsb_value;
               [| reflexivity | reflexivity
                | apply QueryEscape_no_equals | eauto]));
  try reflexivity.

(** Whether the query of a round, the passphrase overwrite done, names
    the parameter [deadline]: only when the round is not adjusted and
    carries no passphrase. *)
Lemma submitValues_deadline round :
  containsb "deadline=" (Url.Encode (submitValues round))
  = negb (Adjusted round) && negb (nonEmpty (Passphrase round)).
Proof.
  unfold submitValues, queryValues.
  generalize (Strconv.FormatUint (AccountID round))
    (Strconv.FormatUint (Height round))
    (Strconv.FormatUint (Deadline round))
    (Strconv.FormatUint (Nonce round)).
  intros a h d n.
  destruct (Adjusted round), (nonEmpty (Passphrase round)) eqn:Hp;
    generalize (Passphrase round); intros p; walk_query.
Qed.

End Query.

(** C7, as the code has it.  The encoded query of a round proxied to a
    pull upstream does not contain [deadline=] when [Adjusted] is true.
    When [Adjusted] is false it contains [deadline=] exactly if the
    passphrase, after the overwrite by the configured one, is empty: a
    non-empty passphrase removes the deadline as well.  The query is the
    one [proxySubmitRound] posts. *)
Theorem query_deadline_parameter (cfg : Config) (decode : string -> option Z)
  (primary : bool) (round : minerRound) :
  (Adjusted round = true ->
   containsb "deadline=" (submitQuery cfg primary round) = false)
  /\ (Adjusted round = false ->
      containsb "deadline=" (submitQuery cfg primary round)
      = negb (nonEmpty (Passphrase (passphraseOverwrite cfg primary round))))
  /\ (forall st ip bt reply pr,
        (primary && primaryws cfg) || (negb primary && secondaryws cfg) = false ->
        proxySubmitRound cfg decode st ip round primary bt reply = Some pr ->
        prCall pr = HttpPost (submitURI cfg primary round)).
Proof.
  pose proof (passphraseOverwrite_fields cfg primary round)
    as (_ & _ & _ & _ & Hadj).
  cbv zeta in Hadj.
  unfold submitQuery. rewrite submitValues_deadline, Hadj.
  split; [intros ->; reflexivity |].
  split; [intros ->; reflexivity |].
  intros st ip bt reply pr Hpull Hpr. unfold proxySubmitRound in Hpr.
  rewrite Hpull in Hpr.
  destruct reply; simplify_option_eq; reflexivity.
Qed.

Lemma query_deadline_parameter_witness :
  containsb "deadline=" (submitQuery sampleConfig true (sampleRound 1 100 5000))
  = true.
Proof.
  refine (proj1 (proj2 (query_deadline_parameter sampleConfig noDeadline true
                          (sampleRound 1 100 5000))) _).
  reflexivity.
Defined.

(** C7 as stated fails for an unadjusted round with a passphrase: the
    query carries [secretPhrase] and no [deadline=]. *)
Lemma wallet_query_has_no_deadline :
  Adjusted walletRound = false
  /\ containsb "deadline=" (submitQuery sampleConfig true walletRound) = false
  /\ containsb "secretPhrase=secret"
       (submitQuery sampleConfig true walletRound) = true.
Proof. vm_compute. auto. Qed.

(** * Further properties *)

(** ** Decimal text and numbers *)

Module StrconvRoundTrip.
Import Strconv.

Lemma decimalValueFrom_ge s : forall acc v,
  0 <= acc -> decimalValueFrom s acc = Some v -> acc <= v.
Proof.
  induction s as [| c s IH]; intros acc v Hacc Hv.
  - injection Hv as <-. lia.
  - cbn [decimalValueFrom] in Hv.
    destruct (isDigit c) eqn:Hc; [| discriminate].
    pose proof (StrconvFacts.isDigit_range c Hc).
    apply IH in Hv; lia.
Qed.

(** The loop of [ParseUint] reads every digit string whose number fits 64
    bits. *)
Lemma parseUintLoop_complete s : forall n v,
  0 <= n -> decimalValueFrom s n = Some v -> v <= 2 ^ 64 - 1 ->
  parseUintLoop (2 ^ 64 - 1) s n = Ok v.
Proof.
  induction s as [| c s IH]; intros n v Hn Hv Hfit.
  - cbn in *. congruence.
  - cbn [decimalValueFrom] in Hv. cbn [parseUintLoop].
    destruct (isDigit c) eqn:Hc; [| discriminate].
    rewrite (StrconvFacts.isDigit_digitVal c Hc).
    pose proof (StrconvFacts.isDigit_range c Hc) as Hd.
    set (d := byteVal c - 48) in *.
    assert (Hpos : 0 <= n * 10 + d) by lia.
    pose proof (decimalValueFrom_ge _ _ _ Hpos Hv) as Hge.
    change (2 ^ 64 - 1) with 18446744073709551615 in *.
    destruct (d >=? 10) eqn:Hd10; [lia |].
    change cutoff10 with 1844674407370955162.
    destruct (n >=? 1844674407370955162) eqn:Hcut; [lia |].
    cbv zeta. change (2 ^ 64) with 18446744073709551616.
    rewrite (Z.mod_small (n * 10)) by lia.
    rewrite (Z.mod_small (n * 10 + d)) by lia.
    destruct ((n * 10 + d <? n * 10) || (n * 10 + d >? 18446744073709551615))
      eqn:Hov; [lia |].
    apply IH; [lia | exact Hv | lia].
Qed.

(** What the loop returns fits 64 bits. *)
Lemma parseUintLoop_range s : forall n r,
  0 <= n <= 2 ^ 64 - 1 ->
  parseUintLoop (2 ^ 64 - 1) s n = Ok r -> 0 <= r <= 2 ^ 64 - 1.
Proof.
  induction s as [| c s IH]; intros n r Hn Hr.
  - cbn in Hr. injection Hr as <-. exact Hn.
  - cbn [parseUintLoop] in Hr.
    destruct (digitVal c) as [d |]; [| discriminate].
    destruct (d >=? 10); [discriminate |].
    destruct (n >=? cutoff10); [discriminate |].
    cbv zeta in Hr.
    set (n1 := ((n * 10) mod 2 ^ 64 + d) mod 2 ^ 64) in *.
    destruct ((n1 <? (n * 10) mod 2 ^ 64) || (n1 >? 2 ^ 64 - 1)) eqn:Hov;
      [discriminate |].
    apply IH in Hr; [exact Hr |].
    apply orb_false_iff in Hov as [_ Hov].
    assert (0 <= n1) by (apply Z.mod_pos_bound; lia).
    lia.
Qed.

Lemma ParseUint_range s n : ParseUint s 64 = Ok n -> 0 <= n <= maxU64.
Proof.
  unfold ParseUint, maxU64. destruct s; [discriminate |].
  apply parseUintLoop_range. lia.
Qed.

Lemma ParseUint_empty : ParseUint EmptyString 64 = Err ErrSyntax.
Proof. reflexivity. Qed.

(** The digits [FormatUint] writes, read from the left. *)
Lemma string_of_uint_acc d : forall acc,
  decimalValueFrom (NilEmpty.string_of_uint d) (Z.pos acc)
  = Some (Z.pos (Pos.of_uint_acc d acc)).
Proof.
  induction d; intros acc; cbn [NilEmpty.string_of_uint Pos.of_uint_acc];
    try reflexivity;
    cbn [decimalValueFrom];
    match goal with
    | |- context [isDigit ?c] => change (isDigit c) with true; cbv iota
    end;
    rewrite <- IHd; f_equal;
    match goal with
    | |- context [byteVal ?c] =>
        let v := eval vm_compute in (byteVal c) in change (byteVal c) with v
    end; lia.
Qed.

Lemma string_of_uint_value d :
  decimalValueFrom (NilEmpty.string_of_uint d) 0
  = Some (Z.of_N (Pos.of_uint d)).
Proof.
  induction d; cbn [NilEmpty.string_of_uint Pos.of_uint];
    try reflexivity;
    cbn [decimalValueFrom];
    match goal with
    | |- context [isDigit ?c] => change (isDigit c) with true; cbv iota
    end;
    first [exact IHd | apply string_of_uint_acc].
Qed.

Lemma NilZero_value d :
  decimalValue (NilZero.string_of_uint d) = Some (Z.of_N (N.of_uint d)).
Proof.
  unfold N.of_uint.
  destruct d; try reflexivity;
    unfold decimalValue, NilZero.string_of_uint;
    rewrite <- string_of_uint_value; reflexivity.
Qed.

Lemma FormatUint_value n : 0 <= n -> decimalValue (FormatUint n) = Some n.
Proof.
  intros Hn. unfold FormatUint.
  rewrite NilZero_value, DecimalN.Unsigned.of_to, Z2N.id by exact Hn.
  reflexivity.
Qed.

Lemma decimalValue_cons s v :
  decimalValue s = Some v ->
  exists c s', s = String c s' /\ isDigit c = true
               /\ decimalValueFrom s 0 = Some v.
Proof.
  destruct s as [| c s']; [discriminate |]. intros H.
  exists c, s'. split; [reflexivity |]. split; [| exact H].
  unfold decimalValue in H. cbn [decimalValueFrom] in H.
  destruct (isDigit c); [reflexivity | discriminate].
Qed.

(** [ParseUint] reads back what [FormatUint] writes. *)
Lemma ParseUint_FormatUint n :
  0 <= n <= maxU64 -> ParseUint (FormatUint n) 64 = Ok n.
Proof.
  intros [Hn Hmax].
  destruct (decimalValue_cons _ _ (FormatUint_value n Hn))
    as (c & s' & Hs & _ & Hv).
  rewrite Hs in *. unfold ParseUint.
  apply parseUintLoop_complete; [lia | exact Hv | exact Hmax].
Qed.

Lemma atoiFast_digits s : forall acc v,
  decimalValueFrom s acc = Some v -> atoiFast s acc = Ok v.
Proof.
  induction s as [| c s IH]; intros acc v Hv.
  - cbn in *. congruence.
  - cbn [decimalValueFrom] in Hv. cbn [atoiFast].
    destruct (isDigit c) eqn:Hc; [| discriminate].
    pose proof (StrconvFacts.isDigit_range c Hc) as Hd.
    cbv zeta. rewrite Z.mod_small by lia.
    destruct (byteVal c - 48 >? 9) eqn:Hgt; [lia |].
    apply IH, Hv.
Qed.

(** [Atoi] on a digit string, with or without a minus sign in front. *)
Lemma Atoi_digits s v :
  decimalValue s = Some v -> v <= 2 ^ 63 - 1 -> Atoi s = Ok v.
Proof.
  intros Hv Hfit.
  destruct (decimalValue_cons _ _ Hv) as (c & s' & -> & Hc & Hfrom).
  unfold Atoi. cbv zeta.
  destruct (StrconvFacts.isDigit_not_sign c Hc) as [Hm Hp].
  change (2 ^ 63 - 1) with 9223372036854775807 in Hfit.
  destruct ((0 <? Z.of_nat (String.length (String c s')))
            && (Z.of_nat (String.length (String c s')) <? 19)).
  - rewrite Hm, Hp. cbn [orb andb].
    rewrite (atoiFast_digits _ _ _ Hfrom). reflexivity.
  - unfold ParseInt. rewrite Hm, Hp. cbn [orb negb andb].
    unfold ParseUint, intSize.
    rewrite (parseUintLoop_complete _ _ _ (Z.le_refl 0) Hfrom)
      by (change (2 ^ 64 - 1) with 18446744073709551615; lia).
    change (2 ^ (64 - 1)) with 9223372036854775808.
    destruct (v >=? 9223372036854775808) eqn:Hge; [lia | reflexivity].
Qed.

Lemma Atoi_minus_digits s v :
  decimalValue s = Some v -> v <= 2 ^ 63 -> Atoi (String "-" s) = Ok (- v).
Proof.
  intros Hv Hfit.
  destruct (decimalValue_cons _ _ Hv) as (c & s' & -> & Hc & Hfrom).
  unfold Atoi. cbv zeta.
  change (2 ^ 63) with 9223372036854775808 in Hfit.
  destruct ((0 <? Z.of_nat (String.length (String "-" (String c s'))))
            && (Z.of_nat (String.length (String "-" (String c s'))) <? 19)).
  - cbn [Ascii.eqb Bool.eqb orb andb String.length].
    rewrite (atoiFast_digits _ _ _ Hfrom).
    destruct (Z.of_nat (S (String.length s')) <? 1) eqn:Hl; [| reflexivity].
    apply Z.ltb_lt in Hl. rewrite Nat2Z.inj_succ in Hl.
    pose proof (Nat2Z.is_nonneg (String.length s')). lia.
  - unfold ParseInt. cbn [Ascii.eqb Bool.eqb orb negb andb].
    unfold ParseUint, intSize.
    rewrite (parseUintLoop_complete _ _ _ (Z.le_refl 0) Hfrom)
      by (change (2 ^ 64 - 1) with 18446744073709551615; lia).
    change (2 ^ (64 - 1)) with 9223372036854775808.
    destruct (v >? 9223372036854775808) eqn:Hge; [lia | reflexivity].
Qed.

(** [Atoi] reads back what [FormatInt] writes for every [int]. *)
Lemma Atoi_FormatInt n :
  - 2 ^ 63 <= n <= 2 ^ 63 - 1 -> Atoi (FormatInt n) = Ok n.
Proof.
  intros [Hlo Hhi]. unfold FormatInt.
  destruct (n <? 0) eqn:Hneg.
  - replace n with (- (- n)) at 2 by lia.
    apply Atoi_minus_digits; [apply FormatUint_value; lia | lia].
  - apply Atoi_digits; [apply FormatUint_value; lia | exact Hhi].
Qed.

End StrconvRoundTrip.

(** X1.  [FlexUInt64] read from a JSON string: when the string holds the
    decimal text of an [int], as [FormatInt] writes it, [UnmarshalJSON]
    stores that number, also a negative one. *)
Theorem FlexUInt64_string_round_trip
  (jsonUnmarshalInt : string -> option Z)
  (jsonUnmarshalString : string -> option string)
  (b rest : string) (n : Z) :
  b = String (ascii_of_nat 34) rest ->
  jsonUnmarshalString b = Some (Strconv.FormatInt n) ->
  - 2 ^ 63 <= n <= 2 ^ 63 - 1 ->
  UnmarshalJSON jsonUnmarshalInt jsonUnmarshalString b = Stored n.
Proof.
  intros -> Hs Hn. unfold UnmarshalJSON.
  rewrite Ascii.eqb_refl. cbn [negb]. rewrite Hs.
  rewrite (StrconvRoundTrip.Atoi_FormatInt n Hn). reflexivity.
Qed.

Lemma FlexUInt64_string_round_trip_witness :
  UnmarshalJSON (fun _ => None) (fun _ => Some (Strconv.FormatInt (-42)))
    (dquote +:+ "-42" +:+ dquote) = Stored (-42).
Proof.
  apply (FlexUInt64_string_round_trip _ _ _ ("-42" +:+ dquote) (-42)).
  - reflexivity.
  - reflexivity.
  - vm_compute. split; discriminate.
Defined.

(** ** Parsing a submission *)

Lemma minerRound_eta round :
  {| AccountID := AccountID round; Height := Height round;
     Deadline := Deadline round; Nonce := Nonce round;
     Passphrase := Passphrase round; Adjusted := Adjusted round |} = round.
Proof. destruct round; reflexivity. Qed.

(** X2.  [parseRound] reads back a round from the form that carries its
    four numbers in decimal and its passphrase: for every round within the
    unsigned 64-bit range that is not adjusted, whatever the headers. *)
Theorem parseRound_round_trip (r : Request) (round : minerRound) :
  roundInRange round ->
  Adjusted round = false ->
  Form r = formOf round ->
  parseRound r = inr round.
Proof.
  intros (Ha & Hh & Hd & Hn) Hadj Hform.
  unfold parseRound, parseDeadline, FormValue. rewrite Hform.
  change (formOf round !! "deadline"%string)
    with (Some (Strconv.FormatUint (Deadline round))).
  change (formOf round !! "nonce"%string)
    with (Some (Strconv.FormatUint (Nonce round))).
  change (formOf round !! "blockheight"%string)
    with (Some (Strconv.FormatUint (Height round))).
  change (formOf round !! "accountId"%string)
    with (Some (Strconv.FormatUint (AccountID round))).
  change (formOf round !! "secretPhrase"%string)
    with (Some (Passphrase round)).
  cbn [default from_option]. unfold id.
  rewrite !StrconvRoundTrip.ParseUint_FormatUint by assumption.
  rewrite <- Hadj. f_equal. apply minerRound_eta.
Qed.

Lemma parseRound_round_trip_witness :
  parseRound {| RemoteHost := "10.0.0.1";
                Form := formOf (sampleRound 1 100 5000); Header := ∅ |}
  = inr (sampleRound 1 100 5000).
Proof.
  apply parseRound_round_trip.
  - unfold roundInRange, isU64, maxU64. cbn. lia.
  - reflexivity.
  - reflexivity.
Defined.

(** X3.  What [parseRound] returns.  The four numbers of a parsed round
    fit 64 bits without sign and the passphrase is the form value.  The
    round is marked adjusted exactly when the form value [deadline] does
    not parse, and its deadline is then the one of the header [X-Deadline];
    a readable form value wins over the header. *)
Theorem parseRound_result (r : Request) (round : minerRound) :
  parseRound r = inr round ->
  roundInRange round
  /\ Passphrase round = FormValue r "secretPhrase"
  /\ (Adjusted round = true <->
      Strconv.is_err (Strconv.ParseUint (FormValue r "deadline") 64) = true)
  /\ (Adjusted round = false ->
      Strconv.ParseUint (FormValue r "deadline") 64
      = Strconv.Ok (Deadline round))
  /\ (Adjusted round = true ->
      Strconv.ParseUint (HeaderGet r "X-Deadline") 64
      = Strconv.Ok (Deadline round)).
Proof.
  unfold parseRound, parseDeadline. intros H.
  destruct (Strconv.ParseUint (FormValue r "nonce") 64) as [n |] eqn:Hn;
    [| repeat case_match; discriminate].
  destruct (Strconv.ParseUint (FormValue r "blockheight") 64) as [h |] eqn:Hh;
    [| repeat case_match; discriminate].
  destruct (Strconv.ParseUint (FormValue r "accountId") 64) as [a |] eqn:Ha;
    [| repeat case_match; discriminate].
  apply StrconvRoundTrip.ParseUint_range in Hn, Hh, Ha.
  destruct (Strconv.ParseUint (FormValue r "deadline") 64) as [d |] eqn:Hd.
  - injection H as <-. cbn.
    apply StrconvRoundTrip.ParseUint_range in Hd.
    unfold roundInRange, isU64. cbn.
    repeat split; try lia; try discriminate; try reflexivity.
  - destruct (Strconv.ParseUint (HeaderGet r "X-Deadline") 64) as [d |] eqn:Hx;
      [| discriminate].
    injection H as <-. cbn.
    apply StrconvRoundTrip.ParseUint_range in Hx.
    unfold roundInRange, isU64. cbn.
    repeat split; try lia; try discriminate; try reflexivity.
Qed.

Lemma parseRound_result_witness :
  roundInRange (sampleRound 1 100 5000).
Proof.
  refine (proj1 (parseRound_result
            {| RemoteHost := "10.0.0.1";
               Form := formOf (sampleRound 1 100 5000); Header := ∅ |}
            (sampleRound 1 100 5000) _)).
  vm_compute. reflexivity.
Defined.

(** X4.  Which error [parseRound] returns.  The fields are looked at in
    the order deadline, nonce, block height, account id, and the error is
    that of the first one that cannot be read: each error is returned
    exactly when its field is unreadable and all fields before it are
    readable.  The deadline is unreadable when neither the form value nor
    the header [X-Deadline] is a decimal [uint64]; in particular a request
    that has neither is refused as a wrong deadline whatever else it
    carries, and a missing nonce is an error of its own. *)
Theorem parseRound_errors (r : Request) :
  (Form r !! "deadline"%string = None ->
   Header r !! "X-Deadline"%string = None ->
   parseRound r = inl errSubmissionWrongFormatDeadline)
  /\ (forall e,
        parseRound r = inl e <->
        match e with
        | errSubmissionWrongFormatDeadline => deadlineReadable r = false
        | errSubmissionWrongFormatNonce =>
            deadlineReadable r = true
            /\ readable (FormValue r "nonce") = false
        | errSubmissionWrongFormatBlockHeight =>
            deadlineReadable r = true
            /\ readable (FormValue r "nonce") = true
            /\ readable (FormValue r "blockheight") = false
        | errSubmissionWrongFormatAccountID =>
            deadlineReadable r = true
            /\ readable (FormValue r "nonce") = true
            /\ readable (FormValue r "blockheight") = true
            /\ readable (FormValue r "accountId") = false
        end)
  /\ (parseDeadline r <> None ->
      Form r !! "nonce"%string = None ->
      parseRound r = inl errSubmissionWrongFormatNonce).
Proof.
  split; [| split].
  - intros Hf Hh. unfold parseRound, parseDeadline, FormValue, HeaderGet.
    rewrite Hf, Hh. reflexivity.
  - intros e. unfold parseRound, parseDeadline, deadlineReadable, readable.
    destruct (Strconv.ParseUint (FormValue r "deadline") 64);
      destruct (Strconv.ParseUint (HeaderGet r "X-Deadline") 64);
      destruct (Strconv.ParseUint (FormValue r "nonce") 64);
      destruct (Strconv.ParseUint (FormValue r "blockheight") 64);
      destruct (Strconv.ParseUint (FormValue r "accountId") 64);
      destruct e; cbn; split; intros H;
      try discriminate H; try reflexivity;
      try (decompose [and] H; discriminate); auto.
  - intros Hd Hn. unfold parseRound.
    destruct (parseDeadline r) as [[d adj] |]; [| contradiction].
    unfold FormValue. rewrite Hn. reflexivity.
Qed.

Lemma parseRound_errors_witness :
  parseRound {| RemoteHost := "10.0.0.1"; Form := ∅; Header := ∅ |}
  = inl errSubmissionWrongFormatDeadline.
Proof.
  refine (proj1 (parseRound_errors
            {| RemoteHost := "10.0.0.1"; Form := ∅; Header := ∅ |}) _ _);
    reflexivity.
Defined.

(** X5.  The query [proxySubmitRound] posts for a round, read as a form by
    [parseRound].  In pool mode, an unadjusted round without passphrase,
    the round comes back as it was.  The query of an adjusted round, or of
    one with a passphrase, lacks the deadline: without a header
    [X-Deadline] it is refused as a wrong deadline. *)
Theorem submitValues_parse (r : Request) (round : minerRound) :
  Form r = list_to_map (submitValues round) ->
  (roundInRange round -> Adjusted round = false ->
   Passphrase round = EmptyString ->
   parseRound r = inr round)
  /\ (Adjusted round = true \/ Passphrase round <> EmptyString ->
      Header r !! "X-Deadline"%string = None ->
      parseRound r = inl errSubmissionWrongFormatDeadline).
Proof.
  intros Hform. split.
  - intros (Ha & Hh & Hd & Hn) Hadj Hpass.
    unfold parseRound, parseDeadline, FormValue. rewrite Hform.
    unfold submitValues, queryValues. rewrite Hadj, Hpass. cbn [nonEmpty].
    change (list_to_map _ !! "deadline"%string)
      with (Some (Strconv.FormatUint (Deadline round))).
    change (list_to_map _ !! "nonce"%string)
      with (Some (Strconv.FormatUint (Nonce round))).
    change (list_to_map _ !! "blockheight"%string)
      with (Some (Strconv.FormatUint (Height round))).
    change (list_to_map _ !! "accountId"%string)
      with (Some (Strconv.FormatUint (AccountID round))).
    change (list_to_map _ !! "secretPhrase"%string)
      with (@None string).
    cbn [default from_option]. unfold id.
    rewrite !StrconvRoundTrip.ParseUint_FormatUint by assumption.
    rewrite <- Hadj, <- Hpass. f_equal. apply minerRound_eta.
  - intros Hmode Hhdr.
    apply (proj1 (parseRound_errors r)); [| exact Hhdr].
    rewrite Hform. unfold submitValues, queryValues.
    destruct (Adjusted round), (Passphrase round) as [| c p];
      try reflexivity.
    destruct Hmode as [? | Hp]; [discriminate | contradiction].
Qed.

Lemma submitValues_parse_witness :
  parseRound {| RemoteHost := "10.0.0.1";
                Form := list_to_map (submitValues (sampleRound 1 100 5000));
                Header := ∅ |}
  = inr (sampleRound 1 100 5000).
Proof.
  refine (proj1 (submitValues_parse
            {| RemoteHost := "10.0.0.1";
               Form := list_to_map (submitValues (sampleRound 1 100 5000));
               Header := ∅ |} (sampleRound 1 100 5000) eq_refl) _ _ _).
  - unfold roundInRange, isU64, maxU64. cbn. lia.
  - reflexivity.
  - reflexivity.
Defined.

(** ** The admission engine: what a call leaves alone *)

Section EngineLocality.

Variable cfg : Config.
Variable decodeSubmitResponse : string -> option Z.

Lemma liarsCache_afterFailure st pc ip bucket :
  liarsCache (afterFailure st pc ip bucket) = liarsCache st.
Proof.
  unfold afterFailure. destruct (cacheOf pc st !! ip); [| reflexivity].
  destruct pc; reflexivity.
Qed.

Lemma cacheOf_afterFailure st pc ip bucket ip' :
  ip' <> ip ->
  cacheOf pc (afterFailure st pc ip bucket) !! ip' = cacheOf pc st !! ip'.
Proof.
  intros Hne. unfold afterFailure.
  destruct (cacheOf pc st !! ip); [| reflexivity].
  rewrite cacheOf_set_cacheOf. apply lookup_insert_ne. congruence.
Qed.

Lemma cacheOf_afterFailure_other st pc ip bucket :
  cacheOf (negb pc) (afterFailure st pc ip bucket) = cacheOf (negb pc) st.
Proof.
  unfold afterFailure. destruct (cacheOf pc st !! ip); [| reflexivity].
  apply cacheOf_set_cacheOf_other.
Qed.

Lemma bestOf_afterFailure st pc ip bucket pc' :
  bestOf pc' (afterFailure st pc ip bucket) = bestOf pc' st.
Proof.
  unfold afterFailure. destruct (cacheOf pc st !! ip); [| reflexivity].
  destruct pc, pc'; reflexivity.
Qed.

Lemma cacheOf_afterUpdate st pc ip bucket stored d liar :
  cacheOf pc (afterUpdate st pc ip bucket stored d liar)
  = <[ip := <[AccountID stored := stored]> bucket]> (cacheOf pc st).
Proof. unfold afterUpdate. destruct pc, liar; reflexivity. Qed.

Lemma cacheOf_afterUpdate_other st pc ip bucket stored d liar :
  cacheOf (negb pc) (afterUpdate st pc ip bucket stored d liar)
  = cacheOf (negb pc) st.
Proof. unfold afterUpdate. destruct pc, liar; reflexivity. Qed.

Lemma bestOf_afterUpdate st pc ip bucket stored d liar :
  bestOf pc (afterUpdate st pc ip bucket stored d liar) = d
  /\ bestOf (negb pc) (afterUpdate st pc ip bucket stored d liar)
     = bestOf (negb pc) st.
Proof. unfold afterUpdate. destruct pc, liar; split; reflexivity. Qed.

Lemma liarsCache_afterUpdate st pc ip bucket stored d liar :
  liarsCache (afterUpdate st pc ip bucket stored d liar)
  = if liar then {[ip]} ∪ liarsCache st else liarsCache st.
Proof. unfold afterUpdate. destruct pc, liar; reflexivity. Qed.

End EngineLocality.

(** X6.  A call of [tryUpdateRound] touches one bucket at most.  The cache
    and the best-deadline counter of the other chain, the buckets of the
    other addresses and the chain variables are as before; no address
    other than the caller's is put into the liar cache and none is taken
    out of it. *)
Theorem tryUpdateRound_locality (cfg : Config) (decode : string -> option Z)
  (st st' : State) (ip : string) (round : minerRound) (reply : UpstreamReply)
  (pick : nat) (o : Outcome) (w : string) :
  tryUpdateRound cfg decode st ip round reply pick = Some (o, st', w) ->
  let pc := fst (bindChain st (Height round)) in
  cacheOf (negb pc) st' = cacheOf (negb pc) st
  /\ bestOf (negb pc) st' = bestOf (negb pc) st
  /\ (forall ip', ip' <> ip -> cacheOf pc st' !! ip' = cacheOf pc st !! ip')
  /\ chainVars st' = chainVars st
  /\ liarsCache st ⊆ liarsCache st'
  /\ liarsCache st' ⊆ {[ip]} ∪ liarsCache st.
Proof.
  intros H. cbv zeta.
  pose proof (tryUpdateRound_chainVars _ _ _ _ _ _ _ _ _ _ H) as Hframe.
  assert (Hsame : st' = st ->
    cacheOf (negb (fst (bindChain st (Height round)))) st'
    = cacheOf (negb (fst (bindChain st (Height round)))) st
    /\ bestOf (negb (fst (bindChain st (Height round)))) st'
       = bestOf (negb (fst (bindChain st (Height round)))) st
    /\ (forall ip', ip' <> ip ->
          cacheOf (fst (bindChain st (Height round))) st' !! ip'
          = cacheOf (fst (bindChain st (Height round))) st !! ip')
    /\ chainVars st' = chainVars st
    /\ liarsCache st ⊆ liarsCache st'
    /\ liarsCache st' ⊆ {[ip]} ∪ liarsCache st).
  { intros ->. repeat split; try reflexivity. apply union_subseteq_r. }
  apply tryUpdateRound_inv in H
    as [(_ & _ & Heq & _) | [(_ & _ & Heq & _) | (pc & bt & d & b & pr & H)]];
    [exact (Hsame Heq) | exact (Hsame Heq) |].
  clear Hsame.
  destruct H as (_ & _ & Hbind & _ & _ & _ & _ & _ & _ & Hres).
  rewrite Hbind. cbn [fst].
  destruct Hres as [(_ & _ & ->) | (_ & _ & ->)].
  - split; [apply cacheOf_afterFailure_other |].
    split; [apply bestOf_afterFailure |].
    split; [intros; apply cacheOf_afterFailure; assumption |].
    split; [exact Hframe |].
    rewrite liarsCache_afterFailure.
    split; [reflexivity | apply union_subseteq_r].
  - split; [apply cacheOf_afterUpdate_other |].
    split; [apply bestOf_afterUpdate |].
    split.
    { intros ip' Hne. rewrite cacheOf_afterUpdate.
      apply lookup_insert_ne. congruence. }
    split; [exact Hframe |].
    rewrite liarsCache_afterUpdate. destruct (prLiar pr).
    + split; [apply union_subseteq_r | reflexivity].
    + split; [reflexivity | apply union_subseteq_r].
Qed.

Lemma tryUpdateRound_locality_witness :
  exists st',
    stateOfRun
      (tryUpdateRound sampleConfig noDeadline fullBucketState "10.0.0.9"
         (sampleRound 3 100 5000) (Replied "ok") 0) = Some st'
    /\ primc st' !! "10.0.0.1"%string = primc fullBucketState !! "10.0.0.1"%string.
Proof.
  destruct (tryUpdateRound sampleConfig noDeadline fullBucketState "10.0.0.9"
              (sampleRound 3 100 5000) (Replied "ok") 0)
    as [[[o st'] w] |] eqn:Hrun; [| vm_compute in Hrun; discriminate Hrun].
  exists st'. split; [reflexivity |].
  exact (proj1 (proj2 (proj2
           (tryUpdateRound_locality _ _ _ _ _ _ _ _ _ _ Hrun)))
           "10.0.0.1"%string ltac:(discriminate)).
Defined.

(** ** The admission engine: answers *)

Section EngineAnswers.

Variable cfg : Config.
Variable decodeSubmitResponse : string -> option Z.

(** The base target the handler divides by is the one the engine bound
    the round to. *)
Lemma handler_baseTarget st h :
  (if negb (h =? currentHeight st) then lastBaseTarget st
   else currentBaseTarget st) = snd (bindChain st h).
Proof. unfold bindChain. destruct (h =? currentHeight st); reflexivity. Qed.

(** On a push upstream the call cannot fail, marks nobody, leaves the
    round as it is and answers with the deadline computed here. *)
Lemma proxy_push st ip round primary bt reply pr :
  (primary && primaryws cfg) || (negb primary && secondaryws cfg) = true ->
  proxySubmitRound cfg decodeSubmitResponse st ip round primary bt reply
  = Some pr ->
  prFailed pr = false /\ prLiar pr = false /\ prRound pr = round
  /\ exists d, adjust round (snd (bindChain st (Height round))) = Some d
               /\ prBody pr = successBody d.
Proof.
  intros Hws H. unfold proxySubmitRound in H. rewrite Hws in H.
  cbv zeta in H. rewrite handler_baseTarget in H.
  destruct (adjust round (snd (bindChain st (Height round)))) as [d |] eqn:Hd;
    [| discriminate].
  cbn [mbind option_bind] in H. injection H as <-.
  cbn [prFailed prLiar prRound prBody].
  split; [reflexivity | split; [reflexivity | split; [reflexivity |]]].
  exists d. split; reflexivity.
Qed.

(** The liar mark a pull call leaves. *)
Lemma proxy_pull_liar st ip round primary bt reply pr :
  (primary && primaryws cfg) || (negb primary && secondaryws cfg) = false ->
  proxySubmitRound cfg decodeSubmitResponse st ip round primary bt reply
  = Some pr ->
  prFailed pr = false ->
  exists respBody,
    reply = Replied respBody /\ prBody pr = respBody
    /\ (prLiar pr = true <->
        lieDetector cfg = true
        /\ exists m d, decodeSubmitResponse respBody = Some m
                       /\ adjust round bt = Some d /\ to_uint64 m <> d).
Proof.
  intros Hws H Hok. unfold proxySubmitRound in H. rewrite Hws in H.
  destruct reply as [| respBody]; [injection H as <-; discriminate Hok |].
  exists respBody. split; [reflexivity |].
  assert (Hadj : adjust (passphraseOverwrite cfg primary round) bt
                 = adjust round bt).
  { pose proof (passphraseOverwrite_fields cfg primary round)
      as (_ & _ & Hd & _ & Hj). cbv zeta in Hd, Hj.
    unfold adjust. rewrite Hd, Hj. reflexivity. }
  rewrite Hadj in H.
  destruct (lieDetector cfg).
  - destruct (decodeSubmitResponse respBody) as [m |].
    + destruct (adjust round bt) as [d |]; [| discriminate].
      cbn in H. injection H as <-. cbn. split; [reflexivity |].
      split.
      * intros Hl. split; [reflexivity |]. exists m, d.
        repeat split. apply negb_true_iff in Hl. lia.
      * intros (_ & m' & d' & [= <-] & [= <-] & Hne).
        apply negb_true_iff. lia.
    + cbn in H. injection H as <-. cbn. split; [reflexivity |].
      split; [discriminate |]. intros (_ & m & d & ? & _). discriminate.
  - cbn in H. injection H as <-. cbn. split; [reflexivity |].
    split; [discriminate |]. intros (? & _). discriminate.
Qed.

End EngineAnswers.

(** The status of the [submitNonce] arm, and when it leaves the state
    alone. *)
Lemma submit_answer_by_outcome_aux (cfg : Config)
  (decode : string -> option Z) (st st' : State) (ip : string)
  (round : minerRound) (reply : UpstreamReply) (pick : nat)
  (resp : Response) :
  requestHandlerSubmit cfg decode st ip round reply pick = Some (resp, st') ->
  exists o w,
    tryUpdateRound cfg decode st ip round reply pick = Some (o, st', w)
    /\ (status resp = 200 \/ status resp = 400)
    /\ (o = wrongHeight \/ o = notUpdated \/ o = exceededMinersPerIP ->
        st' = st).
Proof.
  unfold requestHandlerSubmit. intros H.
  destruct (tryUpdateRound cfg decode st ip round reply pick)
    as [[[o st1] w] |] eqn:Hrun; [| discriminate].
  cbn [mbind option_bind] in H.
  assert (Hsame : o = wrongHeight \/ o = notUpdated
                  \/ o = exceededMinersPerIP -> st1 = st).
  { intros Ho.
    apply tryUpdateRound_inv in Hrun
      as [(_ & _ & -> & _) | [(_ & _ & -> & _) | (? & ? & ? & ? & ? & Hr)]];
      try reflexivity.
    destruct Hr as (_ & _ & _ & _ & _ & _ & _ & _ & _ & [(_ & -> & _) | (_ & -> & _)]);
      destruct Ho as [? | [? | ?]]; discriminate. }
  exists o, w.
  destruct o.
  - injection H as <- <-. cbn. auto.
  - destruct (adjust round _) as [d |]; [| discriminate].
    cbn in H. injection H as <- <-. cbn. auto.
  - injection H as <- <-. cbn. auto.
  - injection H as <- <-. cbn. auto.
  - injection H as <- <-. cbn. auto.
Qed.

(** X7.  The answer of the [submitNonce] arm, by the outcome of
    [tryUpdateRound].  The status is 400 exactly for [wrongHeight] and
    [exceededMinersPerIP] and 200 otherwise, also when the upstream could
    not be reached.  After [updated] and [remoteErr] the body is what the
    submitter wrote.  After [notUpdated] the state is unchanged and the
    body is the success answer with the deadline adjusted here, by the base
    target of the chain the round is bound to; a marked address gets the
    same answer. *)
Theorem submit_answer_by_outcome (cfg : Config) (decode : string -> option Z)
  (st st' : State) (ip : string) (round : minerRound) (reply : UpstreamReply)
  (pick : nat) (resp : Response) :
  requestHandlerSubmit cfg decode st ip round reply pick = Some (resp, st') ->
  exists o w,
    tryUpdateRound cfg decode st ip round reply pick = Some (o, st', w)
    /\ (status resp = 400 <-> o = wrongHeight \/ o = exceededMinersPerIP)
    /\ (status resp = 200 <-> o = updated \/ o = remoteErr \/ o = notUpdated)
    /\ (o = updated \/ o = remoteErr -> body resp = w)
    /\ (o = notUpdated ->
        st' = st
        /\ exists d,
            adjust round (snd (bindChain st (Height round))) = Some d
            /\ body resp = successBody d)
    /\ (o = wrongHeight ->
        st' = st
        /\ body resp = formatJSONError 1005 "Submitted on wrong height").
Proof.
  unfold requestHandlerSubmit. intros H.
  destruct (tryUpdateRound cfg decode st ip round reply pick)
    as [[[o st1] w] |] eqn:Hrun; [| discriminate].
  cbn [mbind option_bind] in H.
  pose proof (tryUpdateRound_chainVars _ _ _ _ _ _ _ _ _ _ Hrun) as Hframe.
  pose proof (tryUpdateRound_inv _ _ _ _ _ _ _ _ _ _ Hrun) as Hinv.
  exists o, w.
  destruct o.
  - injection H as <- <-. split; [reflexivity |].
    cbn. repeat split; try discriminate; try tauto; intros; try lia;
      try (intuition discriminate).
  - rewrite handler_baseTarget, (bindChain_chainVars _ _ _ Hframe) in H.
    destruct (adjust round (snd (bindChain st (Height round)))) as [d |];
      [| discriminate].
    cbn in H. injection H as <- <-. split; [reflexivity |].
    destruct Hinv as [(? & _) | [(_ & _ & -> & ->) | (? & ? & ? & ? & ? & Hr)]];
      [discriminate | |
       destruct Hr as (_ & _ & _ & _ & _ & _ & _ & _ & _ & [(_ & ? & _) | (_ & ? & _)]);
       discriminate].
    cbn. repeat split; try discriminate; try tauto; intros; try lia;
      try (intuition discriminate).
    exists d. split; reflexivity.
  - injection H as <- <-. split; [reflexivity |].
    cbn. repeat split; try discriminate; try tauto; intros; try lia;
      try (intuition discriminate).
  - injection H as <- <-. split; [reflexivity |].
    cbn. repeat split; try discriminate; try tauto; intros; try lia;
      try (intuition discriminate).
  - injection H as <- <-. split; [reflexivity |].
    destruct Hinv as [(_ & _ & -> & ->) | [([|] & _) | (? & ? & ? & ? & ? & Hr)]];
      [| discriminate | discriminate |
       destruct Hr as (_ & _ & _ & _ & _ & _ & _ & _ & _ & [(_ & ? & _) | (_ & ? & _)]);
       discriminate].
    cbn. repeat split; try discriminate; try tauto; intros; try lia;
      try (intuition discriminate).
Qed.

Lemma submit_answer_by_outcome_witness :
  exists o w,
    tryUpdateRound sampleConfig noDeadline (sampleState true 90) "10.0.0.1"
      (sampleRound 1 90 5000) (Replied "ok") 0
    = Some (o, sampleState true 90, w)
    /\ (400 = 400 <-> o = wrongHeight \/ o = exceededMinersPerIP).
Proof.
  assert (Hreq :
    requestHandlerSubmit sampleConfig noDeadline (sampleState true 90)
      "10.0.0.1" (sampleRound 1 90 5000) (Replied "ok") 0
    = Some ({| status := 400;
               body := formatJSONError 1005 "Submitted on wrong height" |},
            sampleState true 90)) by (vm_compute; reflexivity).
  destruct (submit_answer_by_outcome sampleConfig noDeadline
              (sampleState true 90) (sampleState true 90) "10.0.0.1"
              (sampleRound 1 90 5000) (Replied "ok") 0
              {| status := 400;
                 body := formatJSONError 1005 "Submitted on wrong height" |}
              Hreq) as (o & w & Hrun & H400 & _).
  exists o, w. split; [exact Hrun | exact H400].
Defined.

(** X8.  A round bound to a chain whose upstream is a websocket is never
    answered [remoteErr] and never marks its address as a liar; when it is
    stored, it is stored as it came, and the body is the success answer
    with the deadline adjusted here. *)
Theorem push_upstream_never_fails (cfg : Config)
  (decode : string -> option Z) (st st' : State) (ip : string)
  (round : minerRound) (reply : UpstreamReply) (pick : nat) (o : Outcome)
  (w : string) :
  (if fst (bindChain st (Height round)) then primaryws cfg
   else secondaryws cfg) = true ->
  tryUpdateRound cfg decode st ip round reply pick = Some (o, st', w) ->
  o <> remoteErr
  /\ liarsCache st' = liarsCache st
  /\ (o = updated ->
      (exists bucket,
          cacheOf (fst (bindChain st (Height round))) st' !! ip = Some bucket
          /\ bucket !! AccountID round = Some round)
      /\ exists d,
          adjust round (snd (bindChain st (Height round))) = Some d
          /\ w = successBody d).
Proof.
  intros Hws H.
  apply tryUpdateRound_inv in H
    as [(-> & _ & -> & _) | [([-> | ->] & _ & -> & _) | (pc & bt & d & b & pr & H)]];
    try (repeat split; discriminate).
  destruct H as (_ & _ & Hbind & _ & _ & _ & _ & Hpr & -> & Hres).
  rewrite Hbind in *. cbn [fst snd] in *.
  assert (Hmode : (pc && primaryws cfg) || (negb pc && secondaryws cfg) = true)
    by (destruct pc; cbn; [rewrite Hws; reflexivity | exact Hws]).
  destruct (proxy_push _ _ _ _ _ _ _ _ _ Hmode Hpr)
    as (Hok & Hl & Hr & d' & Hd' & Hbody).
  rewrite Hbind in Hd'. cbn [snd] in Hd'.
  destruct Hres as [(Hf & _) | (_ & -> & ->)]; [congruence |].
  split; [discriminate |].
  split; [rewrite liarsCache_afterUpdate, Hl; reflexivity |].
  intros _. split.
  - exists (<[AccountID (prRound pr) := prRound pr]> b).
    rewrite cacheOf_afterUpdate, lookup_insert_eq, Hr, lookup_insert_eq.
    split; reflexivity.
  - exists d'. split; assumption.
Qed.

Lemma push_upstream_never_fails_witness :
  exists o st' w,
    tryUpdateRound pushConfig noDeadline (sampleState false 90) "10.0.0.1"
      (sampleRound 1 100 5000) Unreachable 0 = Some (o, st', w)
    /\ o <> remoteErr.
Proof.
  destruct (tryUpdateRound pushConfig noDeadline (sampleState false 90)
              "10.0.0.1" (sampleRound 1 100 5000) Unreachable 0)
    as [[[o st'] w] |] eqn:Hrun; [| vm_compute in Hrun; discriminate Hrun].
  exists o, st', w. split; [reflexivity |].
  exact (proj1 (push_upstream_never_fails pushConfig noDeadline
                  (sampleState false 90) st' "10.0.0.1"
                  (sampleRound 1 100 5000) Unreachable 0 o w eq_refl Hrun)).
Defined.

(** ** The admission engine: what is forwarded *)

Section EngineGates.

Variable cfg : Config.
Variable decodeSubmitResponse : string -> option Z.

Local Abbreviation tryUpdate := (tryUpdateRound cfg decodeSubmitResponse).

(** The two height checks, as one proposition. *)
Lemma lateSubmission_checks st round :
  ~ lateSubmission st round ->
  negb (Height round =? currentHeight st)
  && Bool.eqb (currentPrimChain st) (lastPrimChain st) = false
  /\ negb (Height round =? currentHeight st)
     && negb (Height round =? lastHeight st) = false.
Proof.
  unfold lateSubmission. intros Hl.
  destruct (Height round =? currentHeight st) eqn:Hc; [split; reflexivity |].
  apply Z.eqb_neq in Hc. cbn [negb andb]. split.
  - apply Bool.eqb_false_iff. intros He. apply Hl. left. split; assumption.
  - apply negb_false_iff, Z.eqb_eq.
    destruct (Z.eq_dec (Height round) (lastHeight st)) as [He | Hne];
      [exact He |].
    exfalso. apply Hl. right. split; assumption.
Qed.

(** What is known once a submission got as far as the upstream call. *)
Lemma tryUpdateRound_forwarded st ip round reply pick o st' w :
  tryUpdate st ip round reply pick = Some (o, st', w) ->
  o = updated \/ o = remoteErr ->
  exists d,
    adjust round (snd (bindChain st (Height round))) = Some d
    /\ d <= (if fst (bindChain st (Height round)) then primTDL cfg
             else secTDL cfg).
Proof.
  unfold tryUpdateRound. intros H Ho.
  destruct (negb (Height round =? currentHeight st)
            && Bool.eqb (currentPrimChain st) (lastPrimChain st));
    [injection H as <- _ _; destruct Ho; discriminate |].
  destruct (negb (Height round =? currentHeight st)
            && negb (Height round =? lastHeight st));
    [injection H as <- _ _; destruct Ho; discriminate |].
  destruct (bool_decide (ip ∈ liarsCache st));
    [injection H as <- _ _; destruct Ho; discriminate |].
  destruct (bindChain st (Height round)) as [pc bt]. cbn [fst snd].
  destruct (adjust round bt) as [d |]; [| discriminate].
  cbn [mbind option_bind] in H. exists d. split; [reflexivity |].
  destruct ((pc && (d >? primTDL cfg)) || (negb pc && (d >? secTDL cfg)))
    eqn:Htdl; [injection H as <- _ _; destruct Ho; discriminate |].
  apply orb_false_iff in Htdl as [Hp Hs].
  destruct pc; cbn in Hp, Hs; lia.
Qed.

End EngineGates.

(** X9.  An address marked as a liar is never forwarded.  Its submission
    for a height that passes the height check leaves the state as it is,
    reaches no upstream, and the handler answers 200 with the success
    body carrying the deadline adjusted here: the miner cannot tell the
    answer from that of a submission that was not better than the stored
    one. *)
Theorem liar_answered_locally (cfg : Config) (decode : string -> option Z)
  (st : State) (ip : string) (round : minerRound) (reply : UpstreamReply)
  (pick : nat) (d : Z) :
  ip ∈ liarsCache st ->
  ~ lateSubmission st round ->
  adjust round (snd (bindChain st (Height round))) = Some d ->
  tryUpdateRound cfg decode st ip round reply pick
  = Some (notUpdated, st, EmptyString)
  /\ requestHandlerSubmit cfg decode st ip round reply pick
     = Some ({| status := 200; body := successBody d |}, st).
Proof.
  intros Hin Hlate Hd.
  assert (Hrun : tryUpdateRound cfg decode st ip round reply pick
                 = Some (notUpdated, st, EmptyString)).
  { unfold tryUpdateRound.
    destruct (lateSubmission_checks st round Hlate) as [-> ->].
    rewrite bool_decide_eq_true_2 by exact Hin. reflexivity. }
  split; [exact Hrun |].
  unfold requestHandlerSubmit. rewrite Hrun. cbn [mbind option_bind].
  rewrite handler_baseTarget, Hd. reflexivity.
Qed.

Lemma liar_answered_locally_witness :
  requestHandlerSubmit sampleConfig noDeadline
    (set_liarsCache {["10.0.0.1"%string]} (sampleState false 90)) "10.0.0.1"
    (sampleRound 1 100 5000) (Replied "ok") 0
  = Some ({| status := 200; body := successBody 500 |},
          set_liarsCache {["10.0.0.1"%string]} (sampleState false 90)).
Proof.
  assert (Hin : "10.0.0.1"%string
                ∈ liarsCache (set_liarsCache {["10.0.0.1"%string]}
                                (sampleState false 90)))
    by (cbn [liarsCache set_liarsCache]; apply elem_of_singleton; reflexivity).
  assert (Hlate : ~ lateSubmission
                      (set_liarsCache {["10.0.0.1"%string]}
                         (sampleState false 90)) (sampleRound 1 100 5000))
    by (unfold lateSubmission; cbn; intros [[H _] | [H _]]; apply H;
        reflexivity).
  exact (proj2 (liar_answered_locally sampleConfig noDeadline
                  (set_liarsCache {["10.0.0.1"%string]} (sampleState false 90))
                  "10.0.0.1" (sampleRound 1 100 5000) (Replied "ok") 0 500
                  Hin Hlate eq_refl)).
Defined.

(** X10.  The lie detector.  When a submission to a pull upstream is
    stored, the upstream answered and its answer is what the miner gets;
    the address is marked as a liar exactly when the detector is on, a
    deadline could be read from the answer, and that deadline differs from
    the one adjusted here.  No other address is marked or cleared. *)
Theorem lie_detector_marks (cfg : Config) (decode : string -> option Z)
  (st st' : State) (ip : string) (round : minerRound) (reply : UpstreamReply)
  (pick : nat) (w : string) :
  (if fst (bindChain st (Height round)) then primaryws cfg
   else secondaryws cfg) = false ->
  tryUpdateRound cfg decode st ip round reply pick = Some (updated, st', w) ->
  reply = Replied w
  /\ (ip ∈ liarsCache st' <->
      lieDetector cfg = true
      /\ exists m d,
          decode w = Some m
          /\ adjust round (snd (bindChain st (Height round))) = Some d
          /\ to_uint64 m <> d)
  /\ (forall ip', ip' <> ip -> ip' ∈ liarsCache st' <-> ip' ∈ liarsCache st).
Proof.
  intros Hws H.
  apply tryUpdateRound_inv in H
    as [(? & _) | [([|] & _) | (pc & bt & d & b & pr & H)]];
    try discriminate.
  destruct H as (_ & Hnot & Hbind & _ & _ & _ & _ & Hpr & -> & Hres).
  rewrite Hbind in *. cbn [fst snd] in *.
  destruct Hres as [(_ & ? & _) | (Hok & _ & ->)]; [discriminate |].
  assert (Hmode : (pc && primaryws cfg) || (negb pc && secondaryws cfg) = false)
    by (destruct pc; cbn; [rewrite Hws; reflexivity | exact Hws]).
  destruct (proxy_pull_liar _ _ _ _ _ _ _ _ _ Hmode Hpr Hok)
    as (respBody & -> & Hbody & Hliar).
  rewrite Hbody. split; [reflexivity |].
  rewrite liarsCache_afterUpdate. split.
  - rewrite <- Hliar. destruct (prLiar pr).
    + split; [reflexivity | intros _; apply elem_of_union_l, elem_of_singleton;
                            reflexivity].
    + split; [intros Hin; contradiction | discriminate].
  - intros ip' Hne. destruct (prLiar pr); [| reflexivity].
    rewrite elem_of_union, elem_of_singleton. tauto.
Qed.

Lemma lie_detector_marks_witness :
  exists st',
    tryUpdateRound detectorConfig (deadlineIs 499) (sampleState false 90)
      "10.0.0.1" (sampleRound 1 100 5000) (Replied "ok") 0
    = Some (updated, st', "ok"%string)
    /\ ("10.0.0.1"%string ∈ liarsCache st' <->
        lieDetector detectorConfig = true
        /\ exists m d,
            deadlineIs 499 "ok" = Some m
            /\ adjust (sampleRound 1 100 5000)
                 (snd (bindChain (sampleState false 90) 100)) = Some d
            /\ to_uint64 m <> d).
Proof.
  destruct (tryUpdateRound detectorConfig (deadlineIs 499)
              (sampleState false 90) "10.0.0.1" (sampleRound 1 100 5000)
              (Replied "ok") 0) as [[[o st'] w] |] eqn:Hrun;
    [| vm_compute in Hrun; discriminate Hrun].
  assert (Ho : o = updated)
    by (vm_compute in Hrun; injection Hrun as <- _ _; reflexivity).
  assert (Hw : w = "ok"%string)
    by (vm_compute in Hrun; injection Hrun as _ _ <-; reflexivity).
  subst o w. exists st'. split; [reflexivity |].
  exact (proj1 (proj2 (lie_detector_marks detectorConfig (deadlineIs 499)
                         (sampleState false 90) st' "10.0.0.1"
                         (sampleRound 1 100 5000) (Replied "ok") 0 "ok"
                         eq_refl Hrun))).
Defined.

(** X11.  What reaches an upstream.  A submission is forwarded (outcome
    [updated] or [remoteErr]) only from an address that is not marked, for
    a height that passes the height check, and with a deadline that is at
    most the target deadline limit of the chain it is bound to and, where
    worse deadlines are ignored on that chain, at most the best deadline
    recorded for it. *)
Theorem forwarded_only_within_limits (cfg : Config)
  (decode : string -> option Z) (st st' : State) (ip : string)
  (round : minerRound) (reply : UpstreamReply) (pick : nat) (o : Outcome)
  (w : string) :
  tryUpdateRound cfg decode st ip round reply pick = Some (o, st', w) ->
  o = updated \/ o = remoteErr ->
  let pc := fst (bindChain st (Height round)) in
  (ip ∉ liarsCache st)
  /\ ~ lateSubmission st round
  /\ (exists d,
      adjust round (snd (bindChain st (Height round))) = Some d
      /\ d <= (if pc then primTDL cfg else secTDL cfg)
      /\ ((if pc then primaryIgnoreWorseDeadlines cfg
           else secondaryIgnoreWorseDeadlines cfg) = true ->
          d <= bestOf pc st)).
Proof.
  intros H Ho pc.
  destruct (tryUpdateRound_forwarded _ _ _ _ _ _ _ _ _ _ H Ho)
    as (d & Hd & Htdl).
  apply tryUpdateRound_inv in H
    as [(-> & _) | [([-> | ->] & _) | (pc' & bt & d' & b & pr & H)]];
    try (destruct Ho; discriminate).
  destruct H as (Hlate & Hnot & Hbind & Hd' & Hp & Hs & _).
  subst pc. rewrite Hbind in *. cbn [fst snd] in *.
  assert (d' = d) by congruence. subst d'.
  split; [exact Hnot |]. split; [exact Hlate |].
  exists d. split; [exact Hd |]. split; [exact Htdl |].
  destruct pc'; cbn; auto.
Qed.

Lemma forwarded_only_within_limits_witness :
  exists o st' w,
    tryUpdateRound sampleConfig noDeadline (sampleState false 90) "10.0.0.1"
      (sampleRound 1 100 5000) Unreachable 0 = Some (o, st', w)
    /\ "10.0.0.1"%string ∉ liarsCache (sampleState false 90).
Proof.
  destruct (tryUpdateRound sampleConfig noDeadline (sampleState false 90)
              "10.0.0.1" (sampleRound 1 100 5000) Unreachable 0)
    as [[[o st'] w] |] eqn:Hrun; [| vm_compute in Hrun; discriminate Hrun].
  assert (Ho : o = remoteErr)
    by (vm_compute in Hrun; injection Hrun as <- _ _; reflexivity).
  exists o, st', w. split; [reflexivity |].
  exact (proj1 (forwarded_only_within_limits sampleConfig noDeadline
                  (sampleState false 90) st' "10.0.0.1"
                  (sampleRound 1 100 5000) Unreachable 0 o w Hrun
                  (or_intror Ho))).
Defined.

(** X12.  The division by the base target.  An unadjusted round that
    passes the height check and is bound to a chain whose base target is
    zero makes the handler panic, whoever sends it: for an unmarked address
    the division in [tryUpdateRound] fails, for a marked one the division
    in [requestHandler]. *)
Theorem zero_base_target_panics (cfg : Config) (decode : string -> option Z)
  (st : State) (ip : string) (round : minerRound) (reply : UpstreamReply)
  (pick : nat) :
  ~ lateSubmission st round ->
  Adjusted round = false ->
  snd (bindChain st (Height round)) = 0 ->
  requestHandlerSubmit cfg decode st ip round reply pick = None.
Proof.
  intros Hlate Hadj Hbt.
  assert (Hnone : adjust round (snd (bindChain st (Height round))) = None)
    by (unfold adjust; rewrite Hadj, Hbt; reflexivity).
  unfold requestHandlerSubmit, tryUpdateRound.
  destruct (lateSubmission_checks st round Hlate) as [-> ->].
  destruct (bool_decide (ip ∈ liarsCache st)).
  - cbn [mbind option_bind]. rewrite handler_baseTarget, Hnone. reflexivity.
  - destruct (bindChain st (Height round)) as [pc bt]. cbn [snd] in Hnone.
    rewrite Hnone. reflexivity.
Qed.

Lemma zero_base_target_panics_witness :
  requestHandlerSubmit sampleConfig noDeadline
    (set_current 0 100 true (sampleState false 90)) "10.0.0.1"
    (sampleRound 1 100 5000) (Replied "ok") 0 = None.
Proof.
  refine (zero_base_target_panics sampleConfig noDeadline
            (set_current 0 100 true (sampleState false 90)) "10.0.0.1"
            (sampleRound 1 100 5000) (Replied "ok") 0 _ eq_refl eq_refl).
  unfold lateSubmission. cbn. intros [[H _] | [H _]]; apply H; reflexivity.
Defined.

(** ** The admission engine: the fate of a stored round *)

(** X13.  What a call of [tryUpdateRound] can do to a round that is
    stored.  The round stays where it is, or it is replaced by the incoming
    round of the same account, whose height is not lower, or it is evicted
    from the full bucket of the caller, and then its height was below that
    of the incoming round.  The owner of a stored round is its key, as all
    buckets the engine builds have it. *)
Theorem stored_round_kept_replaced_or_evicted (cfg : Config)
  (decode : string -> option Z) (st st' : State) (ip : string)
  (round : minerRound) (reply : UpstreamReply) (pick : nat) (o : Outcome)
  (w : string) (pc : bool) (ip' : string) (bucket : ipData) (a : Z)
  (r : minerRound) :
  tryUpdateRound cfg decode st ip round reply pick = Some (o, st', w) ->
  cacheOf pc st !! ip' = Some bucket ->
  bucketKeyed bucket ->
  bucket !! a = Some r ->
  exists bucket',
    cacheOf pc st' !! ip' = Some bucket'
    /\ (bucket' !! a = Some r
        \/ (ip' = ip /\ a = AccountID round /\ o = updated
            /\ Height r <= Height round
            /\ exists r', bucket' !! a = Some r'
                          /\ AccountID r' = a /\ Height r' = Height round)
        \/ (ip' = ip /\ a <> AccountID round /\ bucket' !! a = None
            /\ Height r < Height round
            /\ Z.of_nat (size bucket) = minersPerIP cfg)).
Proof.
  intros H Hb Hkeyed Hr.
  apply tryUpdateRound_inv in H
    as [(_ & _ & -> & _) | [(_ & _ & -> & _) | (pc0 & bt & d & b & pr & H)]];
    try (exists bucket; split; [exact Hb | left; exact Hr]).
  destruct H as (_ & _ & _ & _ & _ & _ & Hstart & Hpr & _ & Hres).
  destruct (proxy_round _ _ _ _ _ _ _ _ _ Hpr) as (Hacc & Hh & _ & _).
  (* the other chain, or another address *)
  destruct (Bool.bool_dec pc pc0) as [-> | Hpc].
  2: { exists bucket. split; [| left; exact Hr].
       assert (pc = negb pc0) as -> by (destruct pc, pc0; cbn; congruence).
       destruct Hres as [(_ & _ & ->) | (_ & _ & ->)];
         [rewrite cacheOf_afterFailure_other | rewrite cacheOf_afterUpdate_other];
         exact Hb. }
  destruct (decide (ip' = ip)) as [-> | Hip].
  2: { exists bucket. split; [| left; exact Hr].
       destruct Hres as [(_ & _ & ->) | (_ & _ & ->)].
       - rewrite cacheOf_afterFailure by exact Hip. exact Hb.
       - rewrite cacheOf_afterUpdate, lookup_insert_ne by congruence.
         exact Hb. }
  (* the bucket of the caller *)
  assert (Hfail : cacheOf pc0 (afterFailure st pc0 ip b) !! ip = Some b).
  { unfold afterFailure. rewrite Hb, cacheOf_set_cacheOf.
    apply lookup_insert_eq. }
  assert (Hupd : forall liar,
    cacheOf pc0 (afterUpdate st pc0 ip b (prRound pr) d liar) !! ip
    = Some (<[AccountID round := prRound pr]> b)).
  { intros liar. rewrite cacheOf_afterUpdate, lookup_insert_eq, Hacc.
    reflexivity. }
  inversion Hstart as [Hnone | b0 Hb0 Hfree Hsize | b0 b1 Hb0 Hfree Hsize Hev
                       | b0 ex exd Hb0 Hex Hexd Hle Hdl]; subst.
  - congruence.
  - assert (b = bucket) as -> by congruence.
    assert (a <> AccountID round) by congruence.
    destruct Hres as [(_ & _ & ->) | (_ & _ & ->)].
    + exists bucket. split; [exact Hfail | left; exact Hr].
    + eexists. split; [apply Hupd |]. left.
      rewrite lookup_insert_ne by congruence. exact Hr.
  - assert (b0 = bucket) as -> by congruence.
    assert (Hne : a <> AccountID round) by congruence.
    apply evictStale_Some in Hev as (k & victim & Hk & Hlt & ->).
    pose proof (Hkeyed _ _ Hk) as Hkey.
    destruct (decide (a = AccountID victim)) as [Ha | Ha].
    + assert (r = victim) by congruence. subst r.
      destruct Hres as [(_ & _ & ->) | (_ & _ & ->)].
      * eexists. split; [exact Hfail |]. right. right.
        rewrite Ha, lookup_delete_eq. rewrite <- Ha. auto.
      * eexists. split; [apply Hupd |]. right. right.
        rewrite lookup_insert_ne by congruence.
        rewrite Ha, lookup_delete_eq. rewrite <- Ha. auto.
    + destruct Hres as [(_ & _ & ->) | (_ & _ & ->)].
      * eexists. split; [exact Hfail |]. left.
        rewrite lookup_delete_ne by congruence. exact Hr.
      * eexists. split; [apply Hupd |]. left.
        rewrite lookup_insert_ne by congruence.
        rewrite lookup_delete_ne by congruence. exact Hr.
  - assert (b = bucket) as -> by congruence.
    destruct Hres as [(_ & _ & ->) | (_ & -> & ->)].
    + exists bucket. split; [exact Hfail | left; exact Hr].
    + eexists. split; [apply Hupd |].
      destruct (decide (a = AccountID round)) as [-> | Ha].
      * assert (ex = r) by congruence. subst ex.
        right. left. repeat split; try reflexivity; try assumption.
        exists (prRound pr). rewrite lookup_insert_eq. auto.
      * left. rewrite lookup_insert_ne by congruence. exact Hr.
Qed.

Lemma stored_round_kept_replaced_or_evicted_witness :
  exists o st' w bucket',
    tryUpdateRound sampleConfig noDeadline fullBucketState "10.0.0.1"
      (sampleRound 3 100 5000) (Replied "ok") 0 = Some (o, st', w)
    /\ cacheOf true st' !! "10.0.0.1"%string = Some bucket'
    /\ (bucket' !! 1 = Some (sampleRound 1 99 5000)
        \/ bucket' !! 1 = None).
Proof.
  destruct (tryUpdateRound sampleConfig noDeadline fullBucketState "10.0.0.1"
              (sampleRound 3 100 5000) (Replied "ok") 0)
    as [[[o st'] w] |] eqn:Hrun; [| vm_compute in Hrun; discriminate Hrun].
  assert (Hkeyed : bucketKeyed
            ({[1 := sampleRound 1 99 5000; 2 := sampleRound 2 99 6000]}
             : ipData)).
  { intros k r Hk.
    apply lookup_insert_Some in Hk as [[<- <-] | [_ Hk]]; [reflexivity |].
    apply lookup_singleton_Some in Hk as [<- <-]. reflexivity. }
  assert (Hbucket :
    cacheOf true fullBucketState !! "10.0.0.1"%string
    = Some ({[1 := sampleRound 1 99 5000; 2 := sampleRound 2 99 6000]}
            : ipData)) by apply lookup_singleton_eq.
  assert (Hstored :
    ({[1 := sampleRound 1 99 5000; 2 := sampleRound 2 99 6000]} : ipData)
      !! 1 = Some (sampleRound 1 99 5000)) by apply lookup_insert_eq.
  destruct (stored_round_kept_replaced_or_evicted sampleConfig noDeadline
              fullBucketState st' "10.0.0.1" (sampleRound 3 100 5000)
              (Replied "ok") 0 o w true "10.0.0.1"
              {[1 := sampleRound 1 99 5000; 2 := sampleRound 2 99 6000]}
              1 (sampleRound 1 99 5000) Hrun Hbucket Hkeyed Hstored)
    as (bucket' & Hb & Hcases).
  exists o, st', w, bucket'. split; [reflexivity |]. split; [exact Hb |].
  destruct Hcases as [Hkeep | [(_ & Ha & _) | (_ & _ & Hgone & _)]].
  - left. exact Hkeep.
  - discriminate Ha.
  - right. exact Hgone.
Defined.

(** ** The handler as a whole *)

(** X14.  [requestHandler] answers 200 or 400 and never writes a chain
    variable.  A request type other than [getMiningInfo] and [submitNonce]
    is answered 400 with error code 4, a submission that does not parse
    400 with error code 1 and the text of the parse error, both without a
    change of state.  The state changes only through a parsed submission
    that [tryUpdateRound] forwarded. *)
Theorem requestHandler_answers (cfg : Config) (decode : string -> option Z)
  (st st' : State) (r : Request) (reply : UpstreamReply) (pick : nat)
  (resp : Response) :
  requestHandler cfg decode st r reply pick = Some (resp, st') ->
  (status resp = 200 \/ status resp = 400)
  /\ chainVars st' = chainVars st
  /\ (FormValue r "requestType" <> "getMiningInfo"%string ->
      FormValue r "requestType" <> "submitNonce"%string ->
      st' = st /\ status resp = 400
      /\ body resp = formatJSONError 4 "unknown request type")
  /\ (FormValue r "requestType" = "submitNonce"%string ->
      forall e, parseRound r = inl e ->
        st' = st /\ status resp = 400
        /\ body resp = formatJSONError 1 (errorText e))
  /\ (st' <> st ->
      FormValue r "requestType" = "submitNonce"%string
      /\ exists round o w,
          parseRound r = inr round
          /\ tryUpdateRound cfg decode st (RemoteHost r) round reply pick
             = Some (o, st', w)
          /\ (o = updated \/ o = remoteErr)).
Proof.
  unfold requestHandler. cbv zeta. intros H.
  destruct (String.eqb (FormValue r "requestType") "getMiningInfo") eqn:Hget.
  { destruct (if currentPrimChain st then curPrimaryMiningInfo st
              else curSecondaryMiningInfo st) as [mi |]; [| discriminate].
    cbn in H. injection H as <- <-. apply String.eqb_eq in Hget.
    cbn. repeat split; auto; try congruence. }
  destruct (String.eqb (FormValue r "requestType") "submitNonce") eqn:Hsub.
  2: { injection H as <- <-. apply String.eqb_neq in Hsub.
       cbn. repeat split; auto; congruence. }
  apply String.eqb_eq in Hsub. apply String.eqb_neq in Hget.
  destruct (parseRound r) as [e | round] eqn:Hparse.
  { injection H as <- <-. cbn. repeat split; auto; congruence. }
  destruct (submit_answer_by_outcome_aux cfg decode st st' (RemoteHost r)
              round reply pick resp H)
    as (o & w & Hrun & Hstatus & Hsame).
  pose proof (tryUpdateRound_chainVars _ _ _ _ _ _ _ _ _ _ Hrun) as Hframe.
  split; [exact Hstatus |]. split; [exact Hframe |].
  split; [congruence |]. split; [intros _ e He; discriminate He |].
  intros Hne. split; [exact Hsub |]. exists round, o, w.
  split; [reflexivity |]. split; [exact Hrun |].
  destruct o; auto; exfalso; apply Hne, Hsame; auto.
Qed.

Lemma requestHandler_answers_witness :
  status {| status := 400;
            body := formatJSONError 4 "unknown request type" |} = 200
  \/ status {| status := 400;
               body := formatJSONError 4 "unknown request type" |} = 400.
Proof.
  assert (Hreq :
    requestHandler sampleConfig noDeadline (sampleState false 90)
      {| RemoteHost := "10.0.0.1"; Form := ∅; Header := ∅ |} Unreachable 0
    = Some ({| status := 400;
               body := formatJSONError 4 "unknown request type" |},
            sampleState false 90)) by (vm_compute; reflexivity).
  exact (proj1 (requestHandler_answers sampleConfig noDeadline
                  (sampleState false 90) (sampleState false 90)
                  {| RemoteHost := "10.0.0.1"; Form := ∅; Header := ∅ |}
                  Unreachable 0
                  {| status := 400;
                     body := formatJSONError 4 "unknown request type" |}
                  Hreq)).
Defined.

(** ** The admission engine: a submission sent twice *)

Section EngineDuplicates.

Variable cfg : Config.
Variable decodeSubmitResponse : string -> option Z.

Lemma lateSubmission_chainVars st st' round :
  chainVars st' = chainVars st ->
  lateSubmission st' round -> lateSubmission st round.
Proof.
  unfold chainVars, lateSubmission. intros H.
  injection H as H1 H2 _ H4 H5 _ _ _. rewrite H1, H2, H4, H5. tauto.
Qed.

(** The upstream call is defined as soon as both divisions are. *)
Lemma proxy_defined_by_adjust st ip round pc bt reply d :
  adjust round bt = Some d ->
  snd (bindChain st (Height round)) = bt ->
  exists pr,
    proxySubmitRound cfg decodeSubmitResponse st ip round pc bt reply
    = Some pr.
Proof.
  intros Hd Hbt. unfold proxySubmitRound.
  destruct ((pc && primaryws cfg) || (negb pc && secondaryws cfg)).
  - cbv zeta. rewrite handler_baseTarget, Hbt, Hd. cbn. eauto.
  - assert (Hadj : adjust (passphraseOverwrite cfg pc round) bt = Some d).
    { pose proof (passphraseOverwrite_fields cfg pc round)
        as (_ & _ & Hdl & _ & Hj). cbv zeta in Hdl, Hj.
      unfold adjust in *. rewrite Hdl, Hj. exact Hd. }
    cbv zeta. destruct reply as [| respBody]; [eauto |].
    destruct (lieDetector cfg); [| cbn; eauto].
    destruct (decodeSubmitResponse respBody); [| cbn; eauto].
    rewrite Hadj. cbn. eauto.
Qed.

(** Without the lie detector nobody is marked. *)
Lemma liarsCache_without_detector st ip round reply pick o st' w :
  lieDetector cfg = false ->
  tryUpdateRound cfg decodeSubmitResponse st ip round reply pick
  = Some (o, st', w) ->
  liarsCache st' = liarsCache st.
Proof.
  intros Hoff H.
  apply tryUpdateRound_inv in H
    as [(_ & _ & -> & _) | [(_ & _ & -> & _) | (pc & bt & d & b & pr & H)]];
    try reflexivity.
  destruct H as (_ & _ & _ & _ & _ & _ & _ & Hpr & _ & Hres).
  destruct Hres as [(_ & _ & ->) | (_ & _ & ->)];
    [apply liarsCache_afterFailure |].
  rewrite liarsCache_afterUpdate.
  assert (prLiar pr = false) as ->; [| reflexivity].
  unfold proxySubmitRound in Hpr. rewrite Hoff in Hpr.
  destruct ((pc && primaryws cfg) || (negb pc && secondaryws cfg)).
  - cbv zeta in Hpr.
    destruct (adjust round _); [| discriminate].
    cbn in Hpr. injection Hpr as <-. reflexivity.
  - destruct reply; cbn in Hpr; injection Hpr as <-; reflexivity.
Qed.

End EngineDuplicates.

(** X15.  A submission sent twice is forwarded twice.  After a submission
    was stored, the same round from the same address, sent again before
    the next tick, is not answered from the stored round: only a stored
    deadline that is strictly smaller stops a round of the same height.
    Unless the first answer marked the address as a liar, the round
    reaches the upstream again and the outcome is [updated] or
    [remoteErr]. *)
Theorem duplicate_is_forwarded_again (cfg : Config)
  (decode : string -> option Z) (st st' : State) (ip : string)
  (round : minerRound) (reply reply' : UpstreamReply) (pick pick' : nat)
  (w : string) :
  tryUpdateRound cfg decode st ip round reply pick = Some (updated, st', w) ->
  ip ∉ liarsCache st' ->
  exists o st'' w',
    tryUpdateRound cfg decode st' ip round reply' pick' = Some (o, st'', w')
    /\ (o = updated \/ o = remoteErr).
Proof.
  intros H Hnot.
  pose proof (tryUpdateRound_chainVars _ _ _ _ _ _ _ _ _ _ H) as Hframe.
  destruct (tryUpdateRound_forwarded _ _ _ _ _ _ _ _ _ _ H (or_introl eq_refl))
    as (d & Hd & Htdl).
  apply tryUpdateRound_inv in H
    as [(? & _) | [([|] & _) | (pc & bt & d' & b & pr & H)]];
    try discriminate.
  destruct H as (Hlate & _ & Hbind & Hd' & _ & _ & _ & Hpr & _ & Hres).
  destruct Hres as [(_ & ? & _) | (_ & _ & Hst')]; [discriminate |].
  rewrite Hbind in Hd, Htdl. cbn [fst snd] in Hd, Htdl.
  assert (d' = d) by congruence. subst d'.
  destruct (proxy_round _ _ _ _ _ _ _ _ _ Hpr) as (Hacc & Hh & Hdl & Hadj).
  assert (Hbind' : bindChain st' (Height round) = (pc, bt))
    by (rewrite (bindChain_chainVars _ _ _ Hframe); exact Hbind).
  assert (Hlate' : ~ lateSubmission st' round)
    by (intros Hl; apply Hlate; eapply lateSubmission_chainVars; eassumption).
  assert (Hbest : bestOf pc st' = d)
    by (rewrite Hst'; apply bestOf_afterUpdate).
  assert (Hcache : cacheOf pc st' !! ip
                   = Some (<[AccountID round := prRound pr]> b)).
  { rewrite Hst', cacheOf_afterUpdate, lookup_insert_eq, Hacc. reflexivity. }
  assert (Hstored : adjust (prRound pr) bt = Some d)
    by (unfold adjust in *; rewrite Hdl, Hadj; exact Hd).
  unfold tryUpdateRound.
  destruct (lateSubmission_checks st' round Hlate') as [-> ->].
  rewrite bool_decide_eq_false_2 by exact Hnot.
  rewrite Hbind', Hd. cbn [mbind option_bind].
  replace ((pc && (d >? primTDL cfg)) || (negb pc && (d >? secTDL cfg)))
    with false by (destruct pc; cbn; lia).
  replace ((pc && (d >? primBest st') && primaryIgnoreWorseDeadlines cfg)
           || (negb pc && ((d >? secBest st')
                           && secondaryIgnoreWorseDeadlines cfg)))
    with false
    by (unfold bestOf in Hbest; destruct pc; cbn; rewrite Hbest;
        replace (d >? d) with false by lia; reflexivity).
  rewrite Hcache, lookup_insert_eq, Hstored. cbn [mbind option_bind].
  rewrite Hh.
  replace ((Height round >? Height round)
           || ((Height round =? Height round) && (d <? d)))
    with false by (rewrite Z.eqb_refl; replace (d <? d) with false by lia;
                   replace (Height round >? Height round) with false by lia;
                   reflexivity).
  unfold updateBucket. rewrite proxy_set_cacheOf.
  destruct (proxy_defined_by_adjust cfg decode st' ip round pc bt reply' d Hd)
    as [pr' Hpr'];
    [rewrite Hbind'; reflexivity |].
  rewrite Hpr'. cbn [mbind option_bind].
  destruct (prFailed pr'); eauto 6.
Qed.

Lemma duplicate_is_forwarded_again_witness :
  exists st' o st'' w',
    tryUpdateRound sampleConfig noDeadline (sampleState false 90) "10.0.0.1"
      (sampleRound 1 100 5000) (Replied "ok") 0
    = Some (updated, st', "ok"%string)
    /\ tryUpdateRound sampleConfig noDeadline st' "10.0.0.1"
         (sampleRound 1 100 5000) (Replied "ok") 0 = Some (o, st'', w')
    /\ (o = updated \/ o = remoteErr).
Proof.
  destruct (tryUpdateRound sampleConfig noDeadline (sampleState false 90)
              "10.0.0.1" (sampleRound 1 100 5000) (Replied "ok") 0)
    as [[[o1 st'] w1] |] eqn:Hrun; [| vm_compute in Hrun; discriminate Hrun].
  assert (Ho : o1 = updated)
    by (vm_compute in Hrun; injection Hrun as <- _ _; reflexivity).
  assert (Hw : w1 = "ok"%string)
    by (vm_compute in Hrun; injection Hrun as _ _ <-; reflexivity).
  subst o1 w1.
  assert (Hnot : "10.0.0.1"%string ∉ liarsCache st').
  { rewrite (liarsCache_without_detector sampleConfig noDeadline _ _ _ _ _ _
               _ _ eq_refl Hrun).
    apply not_elem_of_empty. }
  destruct (duplicate_is_forwarded_again sampleConfig noDeadline
              (sampleState false 90) st' "10.0.0.1" (sampleRound 1 100 5000)
              (Replied "ok") (Replied "ok") 0 0 "ok" Hrun Hnot)
    as (o & st'' & w' & Hrun' & Ho).
  exists st', o, st'', w'. split; [reflexivity |]. split; assumption.
Defined.

(** ** The refresher: what a tick publishes *)

Section RefresherFacts.

Variable cfg : Config.
Variable decodeMiningInfo : string -> miningInfo -> option miningInfo.
Variable secondsSince : Z -> Z -> Z.

Local Abbreviation refresh := (refreshMiningInfo cfg decodeMiningInfo secondsSince).

Ltac unfold_arms :=
  unfold primaryNewBlock, primaryForkBack, primarySameHeightFork,
    rescheduleSecondary, secondaryNewBlock, secondaryForkBack,
    secondarySameHeightFork; cbv zeta.

Lemma stamp_bytes t mi : miBytes (stamp t mi) = miningInfoBytes (stamp t mi).
Proof. reflexivity. Qed.

(** Every arm of the first switch publishes the round it was given. *)
Lemma primary_arm_publishes env mi st :
  classify (curPrimaryMiningInfo st) mi <> NoChange ->
  let res := refreshPrimary cfg decodeMiningInfo secondsSince env mi st in
  snd res = None
  /\ currentPrimChain (fst res) = true
  /\ curPrimaryMiningInfo (fst res) = Some (stamp (now env) mi)
  /\ currentHeight (fst res) = to_uint64 (miHeight mi)
  /\ currentBaseTarget (fst res) = to_uint64 (miBaseTarget mi)
  /\ (curSecondaryMiningInfo (fst res) = curSecondaryMiningInfo st
      \/ curSecondaryMiningInfo (fst res) = Some resetMiningInfo).
Proof.
  intros Hc. cbv zeta. unfold refreshPrimary.
  destruct (classify (curPrimaryMiningInfo st) mi); try contradiction;
    cbn [fst snd]; unfold_arms;
    destruct (secondsSince (now env) (startOf (curSecondaryMiningInfo st))
              <? scanTime cfg);
    cbn; destruct (currentPrimChain st); cbn; auto 10.
Qed.

(** The arms of the second switch. *)
Lemma secondary_arm_publishes t mi st :
  classify (curSecondaryMiningInfo st) mi <> NoChange ->
  let st' := secondarySwitch t mi st in
  curSecondaryMiningInfo st' = Some (stamp t mi)
  /\ curPrimaryMiningInfo st' = curPrimaryMiningInfo st
  /\ currentHeight st' = to_uint64 (miHeight mi)
  /\ currentBaseTarget st' = to_uint64 (miBaseTarget mi)
  /\ (currentPrimChain st' = false
      \/ classify (curSecondaryMiningInfo st) mi = ForkBack).
Proof.
  intros Hc. cbv zeta. unfold secondarySwitch.
  destruct (classify (curSecondaryMiningInfo st) mi); try contradiction;
    unfold_arms; cbn; destruct (currentPrimChain st); cbn; auto 10.
Qed.

Lemma published_refresh env st :
  published st -> published (fst (refresh env st)).
Proof.
  intros [Hp Hs].
  destruct (refreshMiningInfo_inv cfg decodeMiningInfo secondsSince env st)
    as [Heq | [(mi & Hc & Heq) | (mi & Hc & Heq)]]; cbv zeta in Heq;
    rewrite Heq.
  - split; assumption.
  - destruct (primary_arm_publishes env mi st Hc)
      as (_ & Hcur & Hprim & _). cbv zeta in Hcur, Hprim.
    split; [rewrite Hprim; discriminate | rewrite Hcur; discriminate].
  - destruct (secondary_arm_publishes (now env) mi st Hc)
      as (Hsec & Hprim & _). cbv zeta in Hsec, Hprim.
    split; [rewrite Hprim; exact Hp | rewrite Hsec; discriminate].
Qed.

Lemma refreshSecondary_error env mi st st' e :
  refreshSecondary cfg decodeMiningInfo secondsSince env mi st = (st', Some e) ->
  st' = st
  /\ nonEmpty (secondarySubmitURL cfg) = true
  /\ match e with
     | ErrTransport =>
         secondaryws cfg = false /\ secondaryReply env = FetchFailed
     | ErrMissingInfo => secondaryws cfg = true /\ available env = false
     | ErrDecode =>
         secondaryws cfg = false
         /\ exists respBody,
             secondaryReply env = Fetched respBody
             /\ decodeMiningInfo respBody mi = None
     end.
Proof.
  unfold refreshSecondary.
  destruct (nonEmpty (secondarySubmitURL cfg)); [| discriminate].
  cbn [negb].
  destruct (secondsSince (now env) (startOf (curPrimaryMiningInfo st))
            <? scanTime cfg); [discriminate |].
  destruct (secondaryws cfg).
  - destruct (available env); [discriminate |].
    intros [= <- <-]. auto.
  - destruct (secondaryReply env) as [| respBody]; [intros [= <- <-]; auto |].
    destruct (decodeMiningInfo respBody mi) eqn:Hd; [discriminate |].
    intros [= <- <-]. eauto 6.
Qed.

Lemma refreshPrimary_error env mi st st' e :
  refreshPrimary cfg decodeMiningInfo secondsSince env mi st = (st', Some e) ->
  refreshSecondary cfg decodeMiningInfo secondsSince env mi st = (st', Some e).
Proof.
  unfold refreshPrimary.
  destruct (classify (curPrimaryMiningInfo st) mi); try discriminate.
  auto.
Qed.

End RefresherFacts.

(** X16.  Once mining info of the primary chain has been stored, and that
    of the secondary chain when it is the current one, this stays so under
    every tick of the refresher and every submission, and a
    [getMiningInfo] request is answered 200 with the stored bytes of the
    current chain's mining info, without a change of state. *)
Theorem published_mining_info_is_served (cfg : Config)
  (decodeMiningInfo : string -> miningInfo -> option miningInfo)
  (secondsSince : Z -> Z -> Z) (decode : string -> option Z) (st : State)
  (env : RefreshEnv) (r : Request) (reply : UpstreamReply) (pick : nat) :
  published st ->
  FormValue r "requestType" = "getMiningInfo"%string ->
  published (fst (refreshMiningInfo cfg decodeMiningInfo secondsSince env st))
  /\ (forall ip round o st' w,
        tryUpdateRound cfg decode st ip round reply pick = Some (o, st', w) ->
        published st')
  /\ exists mi,
      servedInfo st = Some mi
      /\ requestHandler cfg decode st r reply pick
         = Some ({| status := 200; body := miBytes mi |}, st).
Proof.
  intros Hpub Hreq. split; [apply published_refresh, Hpub |]. split.
  - intros ip round o st' w Hrun.
    apply tryUpdateRound_chainVars in Hrun. unfold chainVars in Hrun.
    destruct Hpub as [Hp Hs]. unfold published.
    assert (currentPrimChain st' = currentPrimChain st) as -> by congruence.
    assert (curPrimaryMiningInfo st' = curPrimaryMiningInfo st) as ->
      by congruence.
    assert (curSecondaryMiningInfo st' = curSecondaryMiningInfo st) as ->
      by congruence.
    split; assumption.
  - unfold requestHandler, servedInfo. cbv zeta. rewrite Hreq.
    destruct Hpub as [Hp Hs].
    destruct (currentPrimChain st).
    + destruct (curPrimaryMiningInfo st) as [mi |]; [| contradiction].
      exists mi. split; reflexivity.
    + destruct (curSecondaryMiningInfo st) as [mi |];
        [| exfalso; apply Hs; reflexivity].
      exists mi. split; reflexivity.
Qed.

Lemma published_mining_info_is_served_witness :
  exists mi,
    servedInfo twoChainState = Some mi
    /\ requestHandler sampleConfig noDeadline twoChainState
         getMiningInfoRequest Unreachable 0
       = Some ({| status := 200; body := miBytes mi |}, twoChainState).
Proof.
  refine (proj2 (proj2 (published_mining_info_is_served sampleConfig
                          sampleDecodeMiningInfo (fun t s => t - s)
                          noDeadline twoChainState nobodyAnswers
                          getMiningInfoRequest Unreachable 0 _ eq_refl))).
  split; [discriminate | intros _; discriminate].
Defined.

(** X17.  The first contact with the primary upstream.  As long as no
    mining info of the primary chain is stored, a tick that gets hold of
    one returns no error, makes the primary chain the current one at the
    height and base target it was given, resets the best primary deadline
    to the maximum, and stores the info with its bytes and the instant of
    the tick: from then on mining info is published. *)
Theorem first_primary_contact_publishes (cfg : Config)
  (decodeMiningInfo : string -> miningInfo -> option miningInfo)
  (secondsSince : Z -> Z -> Z) (env : RefreshEnv) (st : State)
  (mi : miningInfo) :
  curPrimaryMiningInfo st = None ->
  primarySource cfg decodeMiningInfo env = Some mi ->
  let res := refreshMiningInfo cfg decodeMiningInfo secondsSince env st in
  snd res = None
  /\ published (fst res)
  /\ coherent (fst res)
  /\ currentPrimChain (fst res) = true
  /\ curPrimaryMiningInfo (fst res) = Some (stamp (now env) mi)
  /\ primBest (fst res) = maxU64
  /\ lastVars (fst res)
     = (if currentPrimChain st then lastVars st
        else (false, currentHeight st, currentBaseTarget st)).
Proof.
  intros Hnone Hsrc. cbv zeta.
  assert (Hc : classify (curPrimaryMiningInfo st) mi <> NoChange)
    by (rewrite Hnone; discriminate).
  assert (Heq : refreshMiningInfo cfg decodeMiningInfo secondsSince env st
                = refreshPrimary cfg decodeMiningInfo secondsSince env mi st).
  { unfold refreshMiningInfo, primarySource in *.
    destruct (primaryws cfg).
    - destruct (available env); [| discriminate]. congruence.
    - destruct (primaryReply env) as [| respBody]; [discriminate |].
      rewrite Hsrc. reflexivity. }
  rewrite Heq.
  destruct (primary_arm_publishes cfg decodeMiningInfo secondsSince env mi st Hc)
    as (Herr & Hcur & Hprim & Hh & Hbt & Hsec).
  cbv zeta in Herr, Hcur, Hprim, Hh, Hbt, Hsec.
  pose proof (primBest_refreshPrimary cfg decodeMiningInfo secondsSince
                env mi st Hc) as Hbest.
  split; [exact Herr |]. split.
  { split; [rewrite Hprim; discriminate | rewrite Hcur; discriminate]. }
  split.
  { exists (stamp (now env) mi). unfold servedInfo. rewrite Hcur, Hprim.
    split; [reflexivity |]. split; [reflexivity |].
    split; assumption. }
  split; [exact Hcur |]. split; [exact Hprim |]. split; [exact Hbest |].
  unfold refreshPrimary. rewrite Hnone. cbn [classify fst].
  unfold primaryNewBlock, rescheduleSecondary, lastVars. cbv zeta.
  destruct (secondsSince (now env) (startOf None) <? scanTime cfg),
    (secondsSince (now env) (startOf (curSecondaryMiningInfo st))
     <? scanTime cfg);
    cbn; destruct (currentPrimChain st); reflexivity.
Qed.

Lemma first_primary_contact_publishes_witness :
  published (fst (refreshMiningInfo sampleConfig sampleDecodeMiningInfo
                    (fun t s => t - s) primaryAnswers initialState)).
Proof.
  exact (proj1 (proj2 (first_primary_contact_publishes sampleConfig
                         sampleDecodeMiningInfo (fun t s => t - s)
                         primaryAnswers initialState (sampleMiningInfo 100 10)
                         eq_refl eq_refl))).
Defined.

(** X18.  A failure of the primary upstream is not reported.  In
    single-chain mode a tick that cannot reach the primary upstream, or
    finds that the websocket has published nothing yet, returns no error
    and leaves the state as it is.  The first call in [main] therefore
    lets the server start, and as long as no mining info is stored a
    [getMiningInfo] request panics. *)
Theorem primary_failure_not_reported (cfg : Config)
  (decodeMiningInfo : string -> miningInfo -> option miningInfo)
  (secondsSince : Z -> Z -> Z) (decode : string -> option Z)
  (env : RefreshEnv) (st : State) (r : Request) (reply : UpstreamReply)
  (pick : nat) :
  (if primaryws cfg then available env = false
   else primaryReply env = FetchFailed) ->
  secondarySubmitURL cfg = EmptyString ->
  refreshMiningInfo cfg decodeMiningInfo secondsSince env st = (st, None)
  /\ (servedInfo st = None ->
      FormValue r "requestType" = "getMiningInfo"%string ->
      requestHandler cfg decode st r reply pick = None).
Proof.
  intros Hfail Hsingle. split.
  - unfold refreshMiningInfo.
    assert (Hsec : forall mi,
              refreshSecondary cfg decodeMiningInfo secondsSince env mi st
              = (st, None))
      by (intros mi; unfold refreshSecondary; rewrite Hsingle; reflexivity).
    destruct (primaryws cfg); rewrite Hfail; apply Hsec.
  - intros Hnone Hreq. unfold requestHandler. cbv zeta. rewrite Hreq.
    unfold servedInfo in Hnone. cbn [String.eqb Ascii.eqb Bool.eqb].
    change (String.eqb "getMiningInfo" "getMiningInfo") with true.
    cbv iota. rewrite Hnone. reflexivity.
Qed.

Lemma primary_failure_not_reported_witness :
  refreshMiningInfo singleChainConfig sampleDecodeMiningInfo
    (fun t s => t - s) nobodyAnswers initialState = (initialState, None)
  /\ requestHandler singleChainConfig noDeadline initialState
       getMiningInfoRequest Unreachable 0 = None.
Proof.
  destruct (primary_failure_not_reported singleChainConfig
              sampleDecodeMiningInfo (fun t s => t - s) noDeadline
              nobodyAnswers initialState getMiningInfoRequest Unreachable 0
              eq_refl eq_refl) as [Htick Hpanic].
  split; [exact Htick | exact (Hpanic eq_refl eq_refl)].
Defined.

(** X19.  What a tick serves afterwards.  After a tick, either the state
    is as before, or the served mining info is the round the engine takes
    for the current one (same height, same base target, bytes the JSON
    form of its fields), or the tick took the fork-back arm of the
    secondary chain: the one arm that stores the secondary round as the
    current one while the primary mining info goes on being served. *)
Theorem tick_serves_current_round (cfg : Config)
  (decodeMiningInfo : string -> miningInfo -> option miningInfo)
  (secondsSince : Z -> Z -> Z) (env : RefreshEnv) (st : State) :
  let st' := fst (refreshMiningInfo cfg decodeMiningInfo secondsSince env st) in
  st' = st
  \/ coherent st'
  \/ exists mi,
      classify (curSecondaryMiningInfo st) mi = ForkBack
      /\ st' = secondaryForkBack (now env) mi st
      /\ servedInfo st' = curPrimaryMiningInfo st
      /\ currentHeight st' = to_uint64 (miHeight mi).
Proof.
  cbv zeta.
  destruct (refreshMiningInfo_inv cfg decodeMiningInfo secondsSince env st)
    as [Heq | [(mi & Hc & Heq) | (mi & Hc & Heq)]]; cbv zeta in Heq;
    rewrite Heq.
  - left. reflexivity.
  - right. left.
    destruct (primary_arm_publishes cfg decodeMiningInfo secondsSince
                env mi st Hc) as (_ & Hcur & Hprim & Hh & Hbt & _).
    cbv zeta in Hcur, Hprim, Hh, Hbt.
    exists (stamp (now env) mi). unfold servedInfo. rewrite Hcur, Hprim.
    split; [reflexivity |]. split; [reflexivity |]. split; assumption.
  - destruct (secondary_arm_publishes (now env) mi st Hc)
      as (Hsec & Hprim & Hh & Hbt & [Hcur | Hfork]);
      cbv zeta in Hsec, Hprim, Hh, Hbt.
    + right. left. cbv zeta in Hcur.
      exists (stamp (now env) mi). unfold servedInfo. rewrite Hcur, Hsec.
      split; [reflexivity |]. split; [reflexivity |]. split; assumption.
    + right. right. exists mi. split; [exact Hfork |].
      unfold secondarySwitch. rewrite Hfork.
      split; [reflexivity |]. split; [| reflexivity].
      unfold servedInfo, secondaryForkBack. cbv zeta. cbn.
      destruct (currentPrimChain st); reflexivity.
Qed.

(** X20.  Errors of a tick.  A tick that returns an error has changed
    nothing.  A transport error and the error of the missing initial
    mining info are always those of the secondary upstream, which is then
    configured; a decoding error comes from the primary answer or the
    secondary one. *)
Theorem refresh_error_changes_nothing (cfg : Config)
  (decodeMiningInfo : string -> miningInfo -> option miningInfo)
  (secondsSince : Z -> Z -> Z) (env : RefreshEnv) (st st' : State)
  (e : RefreshError) :
  refreshMiningInfo cfg decodeMiningInfo secondsSince env st = (st', Some e) ->
  st' = st
  /\ match e with
     | ErrTransport =>
         nonEmpty (secondarySubmitURL cfg) = true
         /\ secondaryws cfg = false /\ secondaryReply env = FetchFailed
     | ErrMissingInfo =>
         nonEmpty (secondarySubmitURL cfg) = true
         /\ secondaryws cfg = true /\ available env = false
     | ErrDecode =>
         (primaryws cfg = false
          /\ exists respBody,
              primaryReply env = Fetched respBody
              /\ decodeMiningInfo respBody zeroMiningInfo = None)
         \/ (secondaryws cfg = false
             /\ exists respBody mi,
                 secondaryReply env = Fetched respBody
                 /\ decodeMiningInfo respBody mi = None)
     end.
Proof.
  intros H.
  assert (Hsec : forall mi,
    refreshSecondary cfg decodeMiningInfo secondsSince env mi st
    = (st', Some e) ->
    st' = st
    /\ match e with
       | ErrTransport =>
           nonEmpty (secondarySubmitURL cfg) = true
           /\ secondaryws cfg = false /\ secondaryReply env = FetchFailed
       | ErrMissingInfo =>
           nonEmpty (secondarySubmitURL cfg) = true
           /\ secondaryws cfg = true /\ available env = false
       | ErrDecode =>
           (primaryws cfg = false
            /\ exists respBody,
                primaryReply env = Fetched respBody
                /\ decodeMiningInfo respBody zeroMiningInfo = None)
           \/ (secondaryws cfg = false
               /\ exists respBody mi,
                   secondaryReply env = Fetched respBody
                   /\ decodeMiningInfo respBody mi = None)
       end).
  { intros mi Hs.
    apply refreshSecondary_error in Hs as (-> & Hurl & He).
    split; [reflexivity |].
    destruct e; [| tauto | tauto].
    right. destruct He as (Hws & respBody & Hr & Hd). eauto. }
  unfold refreshMiningInfo in H.
  destruct (primaryws cfg) eqn:Hws.
  - destruct (available env);
      [apply refreshPrimary_error in H |]; eapply Hsec, H.
  - destruct (primaryReply env) as [| respBody] eqn:Hr; [eapply Hsec, H |].
    destruct (decodeMiningInfo respBody zeroMiningInfo) as [mi |] eqn:Hd.
    + apply refreshPrimary_error in H. eapply Hsec, H.
    + injection H as <- <-. split; [reflexivity |]. left. eauto.
Qed.

Lemma refresh_error_changes_nothing_witness :
  fst (refreshMiningInfo sampleConfig sampleDecodeMiningInfo
         (fun t s => t - s) nobodyAnswers twoChainState) = twoChainState.
Proof.
  exact (proj1 (refresh_error_changes_nothing sampleConfig
                  sampleDecodeMiningInfo (fun t s => t - s) nobodyAnswers
                  twoChainState
                  (fst (refreshMiningInfo sampleConfig sampleDecodeMiningInfo
                          (fun t s => t - s) nobodyAnswers twoChainState))
                  ErrTransport eq_refl)).
Defined.

(** ** The refresher: which arm a tick takes *)

Section RefresherArms.

Variable cfg : Config.
Variable decodeMiningInfo : string -> miningInfo -> option miningInfo.
Variable secondsSince : Z -> Z -> Z.

(** The secondary part changes the state only past the two guards, and
    then by the arm the fetched mining info selects. *)
Lemma refreshSecondary_arm env mi st :
  let st' := fst (refreshSecondary cfg decodeMiningInfo secondsSince env mi st) in
  st' = st
  \/ (nonEmpty (secondarySubmitURL cfg) = true
      /\ scanTime cfg
         <= secondsSince (now env) (startOf (curPrimaryMiningInfo st))
      /\ exists mi',
          secondaryFetch cfg decodeMiningInfo env mi = Some mi'
          /\ classify (curSecondaryMiningInfo st) mi' <> NoChange
          /\ st' = secondarySwitch (now env) mi' st).
Proof.
  cbv zeta. unfold refreshSecondary, secondaryFetch.
  destruct (nonEmpty (secondarySubmitURL cfg)); [| left; reflexivity].
  cbn [negb].
  destruct (secondsSince (now env) (startOf (curPrimaryMiningInfo st))
            <? scanTime cfg) eqn:Hscan; [left; reflexivity |].
  apply Z.ltb_ge in Hscan.
  assert (Hsw : forall m,
    secondarySwitch (now env) m st = st
    \/ (true = true
        /\ scanTime cfg
           <= secondsSince (now env) (startOf (curPrimaryMiningInfo st))
        /\ exists mi',
            Some m = Some mi'
            /\ classify (curSecondaryMiningInfo st) mi' <> NoChange
            /\ secondarySwitch (now env) m st
               = secondarySwitch (now env) mi' st)).
  { intros m. destruct (secondarySwitch_cases (now env) m st) as [-> | Hc];
      [left; reflexivity | right; eauto 6]. }
  destruct (secondaryws cfg).
  - destruct (available env); [apply Hsw | left; reflexivity].
  - destruct (secondaryReply env) as [| respBody]; [left; reflexivity |].
    destruct (decodeMiningInfo respBody mi); [apply Hsw | left; reflexivity].
Qed.

(** One tick: nothing, an arm of the first switch on the mining info the
    primary source gave, or an arm of the second switch on the mining
    info the secondary source gave, past its guards and only when the
    first switch took none. *)
Lemma refreshMiningInfo_arm env st :
  let st' := fst (refreshMiningInfo cfg decodeMiningInfo secondsSince env st) in
  st' = st
  \/ (exists mi,
        primarySource cfg decodeMiningInfo env = Some mi
        /\ classify (curPrimaryMiningInfo st) mi <> NoChange
        /\ st' = fst (refreshPrimary cfg decodeMiningInfo secondsSince env mi st))
  \/ (nonEmpty (secondarySubmitURL cfg) = true
      /\ scanTime cfg
         <= secondsSince (now env) (startOf (curPrimaryMiningInfo st))
      /\ exists mi,
          secondarySource cfg decodeMiningInfo env = Some mi
          /\ classify (curSecondaryMiningInfo st) mi <> NoChange
          /\ st' = secondarySwitch (now env) mi st).
Proof.
  cbv zeta.
  assert (Hsec : forall mi,
    default zeroMiningInfo (primarySource cfg decodeMiningInfo env) = mi ->
    let st' := fst (refreshSecondary cfg decodeMiningInfo secondsSince env mi st) in
    st' = st
    \/ (exists mi0,
          primarySource cfg decodeMiningInfo env = Some mi0
          /\ classify (curPrimaryMiningInfo st) mi0 <> NoChange
          /\ st' = fst (refreshPrimary cfg decodeMiningInfo secondsSince env mi0 st))
    \/ (nonEmpty (secondarySubmitURL cfg) = true
        /\ scanTime cfg
           <= secondsSince (now env) (startOf (curPrimaryMiningInfo st))
        /\ exists mi0,
            secondarySource cfg decodeMiningInfo env = Some mi0
            /\ classify (curSecondaryMiningInfo st) mi0 <> NoChange
            /\ st' = secondarySwitch (now env) mi0 st)).
  { intros mi Hmi. cbv zeta. unfold secondarySource. rewrite Hmi.
    destruct (refreshSecondary_arm env mi st) as [H | H]; cbv zeta in H;
      [left; exact H | right; right; exact H]. }
  assert (Hprim : forall mi,
    primarySource cfg decodeMiningInfo env = Some mi ->
    let st' := fst (refreshPrimary cfg decodeMiningInfo secondsSince env mi st) in
    st' = st
    \/ (exists mi0,
          primarySource cfg decodeMiningInfo env = Some mi0
          /\ classify (curPrimaryMiningInfo st) mi0 <> NoChange
          /\ st' = fst (refreshPrimary cfg decodeMiningInfo secondsSince env mi0 st))
    \/ (nonEmpty (secondarySubmitURL cfg) = true
        /\ scanTime cfg
           <= secondsSince (now env) (startOf (curPrimaryMiningInfo st))
        /\ exists mi0,
            secondarySource cfg decodeMiningInfo env = Some mi0
            /\ classify (curSecondaryMiningInfo st) mi0 <> NoChange
            /\ st' = secondarySwitch (now env) mi0 st)).
  { intros mi Hsrc. cbv zeta.
    destruct (classify (curPrimaryMiningInfo st) mi) eqn:Hc;
      try (right; left; exists mi;
           split; [exact Hsrc | split; [rewrite Hc; discriminate | reflexivity]]).
    unfold refreshPrimary. rewrite Hc. apply Hsec. rewrite Hsrc. reflexivity. }
  assert (Hnone : primarySource cfg decodeMiningInfo env = None ->
                  default zeroMiningInfo (primarySource cfg decodeMiningInfo env)
                  = zeroMiningInfo) by (intros ->; reflexivity).
  unfold refreshMiningInfo.
  destruct (primaryws cfg) eqn:Hws.
  - destruct (available env) eqn:Hav.
    + apply Hprim. unfold primarySource. rewrite Hws, Hav. reflexivity.
    + apply Hsec, Hnone. unfold primarySource. rewrite Hws, Hav. reflexivity.
  - destruct (primaryReply env) as [| respBody] eqn:Hr.
    + apply Hsec, Hnone. unfold primarySource. rewrite Hws, Hr. reflexivity.
    + destruct (decodeMiningInfo respBody zeroMiningInfo) as [mi |] eqn:Hd;
        [| left; reflexivity].
      apply Hprim. unfold primarySource. rewrite Hws, Hr. exact Hd.
Qed.

(** What the arms of the first switch do to the caches and to the
    variables of the last round. *)
Lemma primary_arm_frame env mi st :
  let st' := fst (refreshPrimary cfg decodeMiningInfo secondsSince env mi st) in
  classify (curPrimaryMiningInfo st) mi <> NoChange ->
  liarsCache st' = liarsCache st
  /\ secc st' = secc st
  /\ secBest st' = secBest st
  /\ (primc st' = primc st
      \/ (primc st' = ∅
          /\ (classify (curPrimaryMiningInfo st) mi = ForkBack
              \/ classify (curPrimaryMiningInfo st) mi = SameHeightFork)))
  /\ lastVars st'
     = (if currentPrimChain st then lastVars st else currentVars st).
Proof.
  cbv zeta. intros Hc. unfold refreshPrimary.
  destruct (classify (curPrimaryMiningInfo st) mi); try contradiction;
    cbn [fst];
    unfold primaryNewBlock, primaryForkBack, primarySameHeightFork,
      rescheduleSecondary, lastVars, currentVars; cbv zeta;
    destruct (secondsSince (now env) (startOf (curSecondaryMiningInfo st))
              <? scanTime cfg);
    cbn; destruct (currentPrimChain st) eqn:Hcur; cbn; rewrite ?Hcur;
    auto 10.
Qed.

Lemma secondary_arm_frame t mi st :
  let st' := secondarySwitch t mi st in
  classify (curSecondaryMiningInfo st) mi <> NoChange ->
  liarsCache st' = liarsCache st
  /\ primc st' = primc st
  /\ primBest st' = primBest st
  /\ (secc st' = secc st
      \/ (secc st' = ∅
          /\ (classify (curSecondaryMiningInfo st) mi = ForkBack
              \/ classify (curSecondaryMiningInfo st) mi = SameHeightFork)))
  /\ lastVars st'
     = (if currentPrimChain st then currentVars st else lastVars st).
Proof.
  cbv zeta. intros Hc. unfold secondarySwitch.
  destruct (classify (curSecondaryMiningInfo st) mi); try contradiction;
    unfold secondaryNewBlock, secondaryForkBack, secondarySameHeightFork,
      lastVars, currentVars; cbv zeta;
    cbn; destruct (currentPrimChain st) eqn:Hcur; cbn; rewrite ?Hcur;
    auto 10.
Qed.

End RefresherArms.

(** X21.  What a tick does to the caches.  The liar cache is never
    touched.  The cache of a chain is either left as it is or flushed, and
    it is flushed only when the mining info the tick got from that chain's
    own source is a fork of the round stored for that chain (a lower
    height, or the same height with another base target).  Mining info
    that is a new block, on either chain, leaves the stored rounds of both
    chains in place. *)
Theorem caches_flushed_only_by_own_fork (cfg : Config)
  (decodeMiningInfo : string -> miningInfo -> option miningInfo)
  (secondsSince : Z -> Z -> Z) (env : RefreshEnv) (st : State) :
  let st' := fst (refreshMiningInfo cfg decodeMiningInfo secondsSince env st) in
  liarsCache st' = liarsCache st
  /\ (primc st' = primc st
      \/ (primc st' = ∅
          /\ exists mi,
              primarySource cfg decodeMiningInfo env = Some mi
              /\ (classify (curPrimaryMiningInfo st) mi = ForkBack
                  \/ classify (curPrimaryMiningInfo st) mi = SameHeightFork)))
  /\ (secc st' = secc st
      \/ (secc st' = ∅
          /\ exists mi,
              secondarySource cfg decodeMiningInfo env = Some mi
              /\ (classify (curSecondaryMiningInfo st) mi = ForkBack
                  \/ classify (curSecondaryMiningInfo st) mi = SameHeightFork)))
  /\ ((forall mi, primarySource cfg decodeMiningInfo env = Some mi ->
                  classify (curPrimaryMiningInfo st) mi = NewBlock
                  \/ classify (curPrimaryMiningInfo st) mi = NoChange) ->
      (forall mi, secondarySource cfg decodeMiningInfo env = Some mi ->
                  classify (curSecondaryMiningInfo st) mi = NewBlock
                  \/ classify (curSecondaryMiningInfo st) mi = NoChange) ->
      primc st' = primc st /\ secc st' = secc st).
Proof.
  cbv zeta.
  assert (Hmain :
    let st' := fst (refreshMiningInfo cfg decodeMiningInfo secondsSince env st) in
    liarsCache st' = liarsCache st
    /\ (primc st' = primc st
        \/ (primc st' = ∅
            /\ exists mi,
                primarySource cfg decodeMiningInfo env = Some mi
                /\ (classify (curPrimaryMiningInfo st) mi = ForkBack
                    \/ classify (curPrimaryMiningInfo st) mi
                       = SameHeightFork)))
    /\ (secc st' = secc st
        \/ (secc st' = ∅
            /\ exists mi,
                secondarySource cfg decodeMiningInfo env = Some mi
                /\ (classify (curSecondaryMiningInfo st) mi = ForkBack
                    \/ classify (curSecondaryMiningInfo st) mi
                       = SameHeightFork)))).
  { cbv zeta.
    destruct (refreshMiningInfo_arm cfg decodeMiningInfo secondsSince env st)
      as [Heq | [(mi & Hsrc & Hc & Heq) | (_ & _ & mi & Hsrc & Hc & Heq)]];
      cbv zeta in Heq; rewrite Heq.
    - auto.
    - destruct (primary_arm_frame cfg decodeMiningInfo secondsSince env mi st Hc)
        as (Hl & Hs & _ & Hp & _).
      split; [exact Hl |]. split; [| left; exact Hs].
      destruct Hp as [Hp | [Hp Hfork]]; [left; exact Hp |].
      right. split; [exact Hp |]. exists mi. split; assumption.
    - destruct (secondary_arm_frame (now env) mi st Hc)
        as (Hl & Hp & _ & Hs & _).
      split; [exact Hl |]. split; [left; exact Hp |].
      destruct Hs as [Hs | [Hs Hfork]]; [left; exact Hs |].
      right. split; [exact Hs |]. exists mi. split; assumption. }
  cbv zeta in Hmain. destruct Hmain as (Hl & Hp & Hs).
  split; [exact Hl |]. split; [exact Hp |]. split; [exact Hs |].
  intros Hpn Hsn. split.
  - destruct Hp as [Hp | (_ & mi & Hsrc & Hfork)]; [exact Hp |].
    destruct (Hpn mi Hsrc) as [Hn | Hn]; rewrite Hn in Hfork;
      destruct Hfork; discriminate.
  - destruct Hs as [Hs | (_ & mi & Hsrc & Hfork)]; [exact Hs |].
    destruct (Hsn mi Hsrc) as [Hn | Hn]; rewrite Hn in Hfork;
      destruct Hfork; discriminate.
Qed.

(** X22.  The variables of the last round.  A tick leaves [lastPrimChain],
    [lastHeight] and [lastBaseTarget] as they are, or sets them to what
    the current round was before the tick; the latter only when the other
    chain takes over.  In single-chain mode, with the primary chain
    current, they never change: a new block of the same chain does not
    make the block before it the last round. *)
Theorem last_round_set_on_chain_switch_only (cfg : Config)
  (decodeMiningInfo : string -> miningInfo -> option miningInfo)
  (secondsSince : Z -> Z -> Z) (env : RefreshEnv) (st : State) :
  let st' := fst (refreshMiningInfo cfg decodeMiningInfo secondsSince env st) in
  (lastVars st' = lastVars st \/ lastVars st' = currentVars st)
  /\ (lastVars st' <> lastVars st -> st' <> st /\ lastVars st' = currentVars st)
  /\ (currentPrimChain st = true ->
      secondarySubmitURL cfg = EmptyString ->
      lastVars st' = lastVars st /\ currentPrimChain st' = true).
Proof.
  cbv zeta.
  destruct (refreshMiningInfo_arm cfg decodeMiningInfo secondsSince env st)
    as [Heq | [(mi & Hsrc & Hc & Heq) | (Hurl & _ & mi & _ & Hc & Heq)]];
    cbv zeta in Heq; rewrite Heq.
  - split; [left; reflexivity |]. split; [intros H; contradiction |].
    intros Hcur _. split; [reflexivity | exact Hcur].
  - destruct (primary_arm_frame cfg decodeMiningInfo secondsSince env mi st Hc)
      as (_ & _ & _ & _ & Hlast).
    destruct (primary_arm_publishes cfg decodeMiningInfo secondsSince
                env mi st Hc) as (_ & Hcur' & _).
    cbv zeta in Hcur'. rewrite Hlast.
    destruct (currentPrimChain st) eqn:Hcur.
    + split; [left; reflexivity |]. split; [intros H; contradiction |].
      intros _ _. split; [reflexivity | exact Hcur'].
    + split; [right; reflexivity |]. split; [| intros H; discriminate H].
      intros Hne. split; [| reflexivity].
      intros Hsame. rewrite Hsame in Hcur'. congruence.
  - destruct (secondary_arm_frame (now env) mi st Hc)
      as (_ & _ & _ & _ & Hlast). rewrite Hlast.
    destruct (currentPrimChain st) eqn:Hcur.
    + split; [right; reflexivity |]. split.
      * intros Hne. split; [| reflexivity].
        intros Hsame. apply Hne. rewrite <- Hlast, Hsame. reflexivity.
      * intros _ Hsingle. rewrite Hsingle in Hurl. discriminate Hurl.
    + split; [left; reflexivity |]. split; [intros H; contradiction |].
      intros H. discriminate H.
Qed.

Lemma last_round_set_on_chain_switch_only_witness :
  lastVars (fst (refreshMiningInfo singleChainConfig sampleDecodeMiningInfo
                   (fun t s => t - s) primaryAnswers (sampleState false 90)))
  = lastVars (sampleState false 90).
Proof.
  exact (proj1 (proj2 (proj2 (last_round_set_on_chain_switch_only
                                singleChainConfig sampleDecodeMiningInfo
                                (fun t s => t - s) primaryAnswers
                                (sampleState false 90)))
                  eq_refl eq_refl)).
Defined.

(** X23.  The scan-time guard.  While the stored round of the primary
    chain is younger than [scanTime] seconds, a tick does not hand the
    current round over to the secondary chain: it changes nothing, or it
    takes an arm of the primary chain, which is current afterwards.  The
    same holds at any time when no secondary upstream is configured. *)
Theorem secondary_waits_for_primary_scan (cfg : Config)
  (decodeMiningInfo : string -> miningInfo -> option miningInfo)
  (secondsSince : Z -> Z -> Z) (env : RefreshEnv) (st : State) :
  secondsSince (now env) (startOf (curPrimaryMiningInfo st)) < scanTime cfg
  \/ secondarySubmitURL cfg = EmptyString ->
  let st' := fst (refreshMiningInfo cfg decodeMiningInfo secondsSince env st) in
  st' = st
  \/ (currentPrimChain st' = true
      /\ secc st' = secc st /\ secBest st' = secBest st
      /\ exists mi,
          primarySource cfg decodeMiningInfo env = Some mi
          /\ curPrimaryMiningInfo st' = Some (stamp (now env) mi)).
Proof.
  intros Hguard. cbv zeta.
  destruct (refreshMiningInfo_arm cfg decodeMiningInfo secondsSince env st)
    as [Heq | [(mi & Hsrc & Hc & Heq) | (Hurl & Hscan & _)]];
    try (cbv zeta in Heq; rewrite Heq).
  - left. reflexivity.
  - right.
    destruct (primary_arm_frame cfg decodeMiningInfo secondsSince env mi st Hc)
      as (_ & Hs & Hb & _).
    destruct (primary_arm_publishes cfg decodeMiningInfo secondsSince
                env mi st Hc) as (_ & Hcur & Hprim & _).
    cbv zeta in Hcur, Hprim.
    split; [exact Hcur |]. split; [exact Hs |]. split; [exact Hb |].
    exists mi. split; assumption.
  - exfalso. destruct Hguard as [Hlt | Hsingle]; [lia |].
    rewrite Hsingle in Hurl. discriminate Hurl.
Qed.

Lemma secondary_waits_for_primary_scan_witness :
  let st' := fst (refreshMiningInfo singleChainConfig sampleDecodeMiningInfo
                    (fun t s => t - s) nobodyAnswers twoChainState) in
  st' = twoChainState
  \/ (currentPrimChain st' = true
      /\ secc st' = secc twoChainState /\ secBest st' = secBest twoChainState
      /\ exists mi,
          primarySource singleChainConfig sampleDecodeMiningInfo nobodyAnswers
          = Some mi
          /\ curPrimaryMiningInfo st' = Some (stamp (now nobodyAnswers) mi)).
Proof.
  exact (secondary_waits_for_primary_scan singleChainConfig
           sampleDecodeMiningInfo (fun t s => t - s) nobodyAnswers
           twoChainState (or_intror eq_refl)).
Defined.

(** ** miner.go: the registry *)

Module MinerFacts.

Import Miner.

Lemma to_int64_add_l a b : to_int64 (to_int64 a + b) = to_int64 (a + b).
Proof.
  unfold to_int64.
  replace ((a + 2 ^ 63) mod 2 ^ 64 - 2 ^ 63 + b + 2 ^ 63)
    with ((a + 2 ^ 63) mod 2 ^ 64 + b) by lia.
  rewrite Zplus_mod_idemp_l. f_equal. f_equal. lia.
Qed.

Lemma to_int64_id x : - 2 ^ 63 <= x < 2 ^ 63 -> to_int64 x = x.
Proof. intros H. unfold to_int64. rewrite Z.mod_small; lia. Qed.

Lemma capacitySum_insert (m : gmap string clientData) k v :
  m !! k = None ->
  capacitySum (<[k := v]> m) = capacitySum m + Capacity v.
Proof.
  intros Hk. unfold capacitySum.
  rewrite map_fold_insert_L; [reflexivity | | exact Hk].
  intros. lia.
Qed.

Lemma TotalCapacity_insert (m : gmap string clientData) k v :
  m !! k = None ->
  TotalCapacity (<[k := v]> m) = to_int64 (TotalCapacity m + Capacity v).
Proof.
  intros Hk. unfold TotalCapacity.
  rewrite map_fold_insert_L; [reflexivity | | exact Hk].
  intros. rewrite !to_int64_add_l. f_equal. lia.
Qed.

Lemma TotalCapacity_sum (m : gmap string clientData) :
  TotalCapacity m = to_int64 (capacitySum m).
Proof.
  induction m as [| k v m Hk IH] using map_ind.
  - reflexivity.
  - rewrite TotalCapacity_insert, capacitySum_insert, IH by exact Hk.
    apply to_int64_add_l.
Qed.

Lemma capacitySum_delete (m : gmap string clientData) k v :
  m !! k = Some v ->
  capacitySum m = capacitySum (delete k m) + Capacity v.
Proof.
  intros Hk. rewrite <- (insert_id m k v Hk) at 1.
  rewrite <- insert_delete_eq.
  apply capacitySum_insert, lookup_delete_eq.
Qed.

End MinerFacts.

(** X24.  [TotalCapacity] is the sum of the capacities of all registered
    miners, reduced to 64 bits with sign once: the wrap-around of the
    single additions does not depend on the order in which the map is
    ranged over, and as long as the sum fits [int64] the result is the
    sum itself. *)
Theorem TotalCapacity_is_wrapped_sum
  (clients : gmap string Miner.clientData) :
  Miner.TotalCapacity clients = to_int64 (Miner.capacitySum clients)
  /\ - 2 ^ 63 <= Miner.TotalCapacity clients < 2 ^ 63
  /\ (- 2 ^ 63 <= Miner.capacitySum clients < 2 ^ 63 ->
      Miner.TotalCapacity clients = Miner.capacitySum clients).
Proof.
  rewrite MinerFacts.TotalCapacity_sum.
  split; [reflexivity |]. split.
  - unfold to_int64.
    pose proof (Z.mod_pos_bound (Miner.capacitySum clients + 2 ^ 63)
                  (2 ^ 64) ltac:(lia)).
    lia.
  - apply MinerFacts.to_int64_id.
Qed.

(** X25.  [UpdateClient] files a miner under the hash of its id.  The
    entry under that key is the new record and every other entry is as
    before, so a miner that reports again replaces its record: the sum of
    the capacities changes by the difference between the new capacity and
    the one held under the key before, and a second call with the same
    arguments changes nothing. *)
Theorem UpdateClient_replaces (hash : Miner.clientID -> string)
  (clients : gmap string Miner.clientData) (ip minerName alias xpu : string)
  (capacity : Z) :
  let key := hash {| Miner.IP := ip; Miner.MinerName := minerName;
                     Miner.Xpu := xpu |} in
  let clients' :=
    Miner.UpdateClient hash clients ip minerName alias xpu capacity in
  clients' !! key
  = Some {| Miner.Id := {| Miner.IP := ip; Miner.MinerName := minerName;
                           Miner.Xpu := xpu |};
            Miner.Capacity := capacity; Miner.Alias := alias |}
  /\ (forall k, k <> key -> clients' !! k = clients !! k)
  /\ Miner.capacitySum clients'
     = Miner.capacitySum clients
       - default 0 (Miner.Capacity <$> clients !! key) + capacity
  /\ Miner.UpdateClient hash clients' ip minerName alias xpu capacity
     = clients'.
Proof.
  cbv zeta. unfold Miner.UpdateClient. cbn [Miner.Id].
  set (id := {| Miner.IP := ip; Miner.MinerName := minerName;
                Miner.Xpu := xpu |}).
  set (cd := {| Miner.Id := id; Miner.Capacity := capacity;
                Miner.Alias := alias |}).
  split; [apply lookup_insert_eq |].
  split; [intros k Hk; apply lookup_insert_ne; congruence |].
  split; [| apply insert_insert_eq].
  destruct (clients !! hash id) as [old |] eqn:Hold.
  - rewrite <- insert_delete_eq.
    rewrite MinerFacts.capacitySum_insert by apply lookup_delete_eq.
    rewrite (MinerFacts.capacitySum_delete clients (hash id) old Hold).
    cbn. lia.
  - rewrite MinerFacts.capacitySum_insert by exact Hold. cbn. lia.
Qed.

(** ** The adapter between fasthttp and net/http *)

Module AdapterFacts.

Import Adapter.

Lemma append_assoc (s t u : string) : (s +:+ t) +:+ u = s +:+ (t +:+ u).
Proof.
  induction s as [| c s IH]; [reflexivity |].
  rewrite !append_cons, IH. reflexivity.
Qed.

Lemma append_nil_r (s : string) : s +:+ EmptyString = s.
Proof.
  induction s as [| c s IH]; [reflexivity |].
  rewrite append_cons, IH. reflexivity.
Qed.

(** One [Read] of a body that is not exhausted. *)
Lemma Read_chunk (b p : list ascii) :
  b <> [] ->
  let n := Nat.min (length p) (length b) in
  exists p',
    Read b p = (n, false, p', drop n b)
    /\ take n p' = take n b /\ length p' = length p.
Proof.
  intros Hb. cbv zeta. destruct b as [| c b]; [contradiction |].
  unfold Read. eexists. split; [reflexivity |].
  set (n := Nat.min (length p) (length (c :: b))).
  assert (Hlen : length (take n (c :: b)) = n)
    by (rewrite length_take; unfold n; lia).
  split.
  - rewrite take_app_le by lia. rewrite take_ge by lia. reflexivity.
  - rewrite length_app, Hlen, length_drop. unfold n. lia.
Qed.

Lemma readAll_drains (size : nat) :
  (1 <= size)%nat ->
  forall fuel b, (length b < fuel)%nat -> readAll fuel size b = Some b.
Proof.
  intros Hsize. induction fuel as [| fuel IH]; intros b Hfuel; [lia |].
  destruct b as [| c b]; [reflexivity |].
  cbn [readAll].
  destruct (Read_chunk (c :: b) (replicate size "000"%char) ltac:(discriminate))
    as (p' & -> & Htake & _).
  rewrite length_replicate in *.
  set (n := Nat.min size (length (c :: b))) in *.
  assert (Hn : (1 <= n)%nat) by (unfold n; cbn [length]; lia).
  rewrite IH by (rewrite length_drop; cbn [length] in *; lia).
  cbn [mbind option_bind]. rewrite Htake, take_drop. reflexivity.
Qed.

Lemma readAll_stuck fuel b : b <> [] -> readAll fuel 0 b = None.
Proof.
  intros Hb. induction fuel as [| fuel IH]; [reflexivity |].
  destruct b as [| c b]; [contradiction |].
  cbn [readAll Read replicate length Nat.min drop]. rewrite IH. reflexivity.
Qed.

Lemma perform_all calls : forall w,
  let w' := foldl perform w calls in
  body w' = body w +:+ written calls
  /\ statusCode w' = lastCode calls (statusCode w)
  /\ h w' = h w.
Proof.
  induction calls as [| c calls IH]; intros w; cbv zeta.
  - cbn [foldl written lastCode]. rewrite append_nil_r. auto.
  - cbn [foldl]. destruct (IH (perform w c)) as (Hb & Hs & Hh).
    rewrite Hb, Hs, Hh. destruct c as [code | p];
      cbn [perform WriteHeader Write fst body statusCode h written lastCode].
    + auto.
    + rewrite append_assoc. auto.
Qed.

End AdapterFacts.

(** X26.  Reading the request body.  A reader that calls [Read] with a
    buffer of at least one byte until [io.EOF] gets exactly the bytes of
    the body, whatever the buffer size.  With an empty buffer [Read]
    returns zero bytes and no error for ever on a body that is not empty.
    After [Close] the first [Read] returns [io.EOF]. *)
Theorem body_read_in_chunks (size fuel : nat) (b : list ascii) :
  (length b < fuel)%nat ->
  ((1 <= size)%nat -> Adapter.readAll fuel size b = Some b)
  /\ (b <> [] -> Adapter.readAll fuel 0 b = None)
  /\ Adapter.readAll fuel size (Adapter.Close b) = Some [].
Proof.
  intros Hfuel. split; [| split].
  - intros Hsize. apply AdapterFacts.readAll_drains; assumption.
  - apply AdapterFacts.readAll_stuck.
  - destruct fuel as [| fuel]; [lia |]. reflexivity.
Qed.

Lemma body_read_in_chunks_witness :
  Adapter.readAll 6 2 (list_ascii_of_string "hello")
  = Some (list_ascii_of_string "hello").
Proof.
  refine (proj1 (body_read_in_chunks 2 6 (list_ascii_of_string "hello") _) _);
    cbn; lia.
Defined.

(** X27.  The response writer.  Whatever a handler calls on the writer,
    the body handed back to fasthttp is the concatenation of the bytes of
    all [Write] calls in their order, and the status is the code of the
    last [WriteHeader] call, also of one made after a [Write]; it is 200
    when there was none or when its code was 0. *)
Theorem writer_collects_calls (calls : list Adapter.call) :
  let w := foldl Adapter.perform Adapter.zeroWriter calls in
  Adapter.body w = Adapter.written calls
  /\ Adapter.StatusCode w
     = (if Adapter.lastCode calls 0 =? 0 then 200
        else Adapter.lastCode calls 0).
Proof.
  cbv zeta.
  destruct (AdapterFacts.perform_all calls Adapter.zeroWriter)
    as (Hb & Hs & _).
  cbv zeta in Hb, Hs. unfold Adapter.StatusCode. rewrite Hb, Hs.
  split; reflexivity.
Qed.

(** ** The websocket receive path *)

Section WebsocketFacts.

Variable decodeCmd : string -> option string.
Variable decodePara : string -> miningInfo -> option miningInfo.

Lemma onTextMessage_ready t message ws :
  let ws' := Websocket.onTextMessage decodeCmd decodePara t message ws in
  (ready ws -> ready ws')
  /\ (Websocket.available ws = true -> Websocket.available ws' = true)
  /\ (decodeCmd message = None -> ws' = ws).
Proof.
  cbv zeta. unfold Websocket.onTextMessage, ready.
  destruct (decodeCmd message) as [cmd |]; [| auto].
  destruct (String.eqb cmd "poolmgr.heartbeat");
    [cbn; repeat split; auto; discriminate |].
  destruct (String.eqb cmd "poolmgr.mining_info").
  { destruct (decodePara message zeroMiningInfo) as [para |];
      [| repeat split; auto; discriminate].
    cbn. repeat split; try discriminate; auto.
    intros _ _. eexists. split; reflexivity. }
  destruct (String.eqb cmd "mining_info");
    [| repeat split; auto; discriminate].
  destruct (decodePara message _) as [para |];
    [| repeat split; auto; discriminate].
  cbn. repeat split; try discriminate; auto.
  intros _ _. eexists. split; reflexivity.
Qed.

End WebsocketFacts.

(** X28.  What the websocket publishes.  From a connection on which
    nothing has been received yet, whatever messages arrive, [available]
    is set only when a mining info is stored, and the stored info then
    carries the bytes of its own height, base target and generation
    signature: the refresher never reads a missing mining info.  Once set,
    [available] stays set. *)
Theorem websocket_available_has_info (decodeCmd : string -> option string)
  (decodePara : string -> miningInfo -> option miningInfo)
  (messages more : list (Z * string)) :
  let ws := Websocket.receive decodeCmd decodePara Websocket.initial messages in
  let ws' := Websocket.receive decodeCmd decodePara ws more in
  (Websocket.available ws = true ->
   exists mi,
     Websocket.currentMiningInfo ws = Some mi
     /\ miBytes mi = miningInfoBytes mi)
  /\ (Websocket.available ws = true -> Websocket.available ws' = true).
Proof.
  cbv zeta.
  assert (Hinv : forall msgs ws,
    ready ws ->
    ready (Websocket.receive decodeCmd decodePara ws msgs)
    /\ (Websocket.available ws = true ->
        Websocket.available (Websocket.receive decodeCmd decodePara ws msgs)
        = true)).
  { induction msgs as [| [t m] msgs IH]; intros ws Hr; [auto |].
    unfold Websocket.receive. cbn [foldl fst snd].
    destruct (onTextMessage_ready decodeCmd decodePara t m ws)
      as (Hready & Havail & _). cbv zeta in Hready, Havail.
    destruct (IH _ (Hready Hr)) as [Hr' Ha'].
    split; [exact Hr' | intros Ha; apply Ha', Havail, Ha]. }
  assert (Hinit : ready Websocket.initial) by (intros H; discriminate H).
  destruct (Hinv messages _ Hinit) as [Hr _].
  split; [exact Hr | apply (Hinv more _ Hr)].
Qed.

(** ** [formatJSONError] *)

Section JsonFacts.







End JsonFacts.


